(** * Selection-to-enhancement geometry and history of the photo editor

    A shallow embedding of the coordinate pipeline and of the undo/redo
    history of the editor (the [App] component, [ImageDisplay] and
    [serviceEnhance]).

    Conventions of the embedding.
    - A JavaScript [number] is an exact rational ([Q]); [==] is numeric
      equality.  Rounding error of IEEE doubles is not modelled, so a
      property the specification states "within tolerance" is stated
      here as an exact equality.  A division is only meaningful where
      the divisor is non-zero; the theorems say so in their hypotheses.
    - A React state variable is a field of the record [App.State]; a
      handler is a function from the state it closed over (the snapshot
      of the last render) to the state after its updates.  Every read
      inside a handler goes to the snapshot, as in the source.
    - The external collaborators (image decoding, cropping, the
      description service, the generation backend) are fields of the
      record [App.Env]; a promise settles in [Return v] or [Throw e]. *)

From Stdlib Require Import QArith Qminmax Qabs Qround Qfield Lqa ZArith Lia.
From Stdlib Require Import String Ascii Bool.
From stdpp Require Import base option list.

(** ** [types.ts]: the shared data types *)

Module Types.

(** [Rect]: [{x, y, w, h}] in the coordinate space of the call site. *)
Record Rect : Type := mkRect { x : Q; y : Q; w : Q; h : Q }.

(** Numeric equality of rectangles, field by field. *)
Definition Rect_eq (a b : Rect) : Prop :=
  (x a == x b /\ y a == y b /\ w a == w b /\ h a == h b)%Q.

Record ImageDescription : Type :=
  mkDescription { selectionDescription : string; prompt : string }.

Record HistoryStep : Type :=
  mkStep { imageSrc : string;
           description : option ImageDescription;
           originalRect : option Rect }.

(** The phases of the editor, as [StatusBar] and [LoadingSpinner]
    enumerate them. *)
Inductive AppState : Type :=
| IDLE | LOADING | LOADED | SELECTING
| ANALYZING | ENHANCING | ENHANCED | CONVERTING.

Definition AppState_eqb (a b : AppState) : bool :=
  match a, b with
  | IDLE, IDLE | LOADING, LOADING | LOADED, LOADED
  | SELECTING, SELECTING | ANALYZING, ANALYZING
  | ENHANCING, ENHANCING | ENHANCED, ENHANCED
  | CONVERTING, CONVERTING => true
  | _, _ => false
  end.

End Types.

(** ** JavaScript numbers *)

Module JsNumber.
Local Open Scope Q_scope.

(** [a < b] as a boolean. *)
Definition Qltb (a b : Q) : bool := negb (Qle_bool b a).

(** [Math.round]: the nearest integer, ties towards +infinity. *)
Definition Math_round (v : Q) : Q := inject_Z (Qfloor (v + (1 # 2))).

End JsNumber.

(** ** The padding and inverse-crop arithmetic of [runEnhancementJob] *)

Module Padding.
Import Types JsNumber.
Local Open Scope Q_scope.

(** [const padding = 0.5; // 50% padding] *)
Definition padding : Q := 1 # 2.

(** The padded rectangle computed from [originalRect], for a padding
    factor [p] and a source image of the given natural size
    (the constants [paddedX] ... [finalPaddedY2] and [paddedRect]). *)
Definition paddedRectWith (p sourceImageWidth sourceImageHeight : Q)
    (originalRect : Rect) : Rect :=
  let paddedX := x originalRect - w originalRect * p in
  let paddedY := y originalRect - h originalRect * p in
  let paddedW := w originalRect * (1 + 2 * p) in
  let paddedH := h originalRect * (1 + 2 * p) in
  let finalPaddedX := Qmax 0 paddedX in
  let finalPaddedY := Qmax 0 paddedY in
  let finalPaddedX2 := Qmin sourceImageWidth (paddedX + paddedW) in
  let finalPaddedY2 := Qmin sourceImageHeight (paddedY + paddedH) in
  {| x := finalPaddedX;
     y := finalPaddedY;
     w := finalPaddedX2 - finalPaddedX;
     h := finalPaddedY2 - finalPaddedY |}.

(** The rectangle the handlers use: the factor is the constant 0.5. *)
Definition paddedRect (sourceImageWidth sourceImageHeight : Q)
    (originalRect : Rect) : Rect :=
  paddedRectWith padding sourceImageWidth sourceImageHeight originalRect.

(** The size requested from [cropImage] for the padded crop. *)
Definition targetWidth : Q := 1024.

Definition targetHeight (paddedRect : Rect) : Q :=
  let aspect := h paddedRect / w paddedRect in
  Math_round (targetWidth * aspect).

(** The crop area, inside the enhanced padded image, that corresponds
    to the original selection ([finalCropRect]). *)
Definition finalCropRect (originalRect paddedRect : Rect)
    (naturalWidth naturalHeight : Q) : Rect :=
  {| x := naturalWidth * ((x originalRect - x paddedRect) / w paddedRect);
     y := naturalHeight * ((y originalRect - y paddedRect) / h paddedRect);
     w := naturalWidth * (w originalRect / w paddedRect);
     h := naturalHeight * (h originalRect / h paddedRect) |}.

(** The size of the final crop. *)
Definition finalImageWidth : Q := 1024.

Definition finalImageHeight (originalRect : Rect) : Q :=
  Math_round (finalImageWidth * (h originalRect / w originalRect)).

(** Modelled from the spec: [cropImage] of [utils/imageUtils] is not
    among the sources.  The spec describes it as reading the pixels of
    a region of a decoded image into a new buffer at a target size,
    resized uniformly and without letterboxing.  [resized] is where a
    rectangle [r] of the source image lands in the buffer produced by
    [cropImage(image, rect, targetWidth, targetHeight)]. *)
Definition resized (rect : Rect) (targetWidth targetHeight : Q)
    (r : Rect) : Rect :=
  {| x := (x r - x rect) * targetWidth / w rect;
     y := (y r - y rect) * targetHeight / h rect;
     w := w r * targetWidth / w rect;
     h := h r * targetHeight / h rect |}.

(** Modelled from the spec: the same resize read backwards, from a
    rectangle [r] of the buffer to the part of the source image it
    shows. *)
Definition footprint (rect : Rect) (targetWidth targetHeight : Q)
    (r : Rect) : Rect :=
  {| x := x rect + x r * w rect / targetWidth;
     y := y rect + y r * h rect / targetHeight;
     w := w r * w rect / targetWidth;
     h := h r * h rect / targetHeight |}.

(** Geometric vocabulary of the statements. *)
Definition area (r : Rect) : Q := w r * h r.

(** [r] lies within [[0,W] x [0,H]] and is not inverted. *)
Definition within (W H : Q) (r : Rect) : Prop :=
  0 <= x r /\ 0 <= y r /\ 0 <= w r /\ 0 <= h r /\
  x r + w r <= W /\ y r + h r <= H.

(** [outer] contains [inner]. *)
Definition contains (outer inner : Rect) : Prop :=
  x outer <= x inner /\ y outer <= y inner /\
  x inner + w inner <= x outer + w outer /\
  y inner + h inner <= y outer + h outer.

End Padding.

(** ** [ImageDisplay.tsx]: the pan/zoom transform *)

Module ImageDisplay.
Import JsNumber.
Local Open Scope Q_scope.

(** [const clamp = (val, min, max) => Math.max(min, Math.min(val, max))] *)
Definition clamp (val min max : Q) : Q := Qmax min (Qmin val max).

(** [useState({ x: 0, y: 0, scale: 1 })] *)
Record Transform : Type := mkTransform { x : Q; y : Q; scale : Q }.

Definition initialTransform : Transform := {| x := 0; y := 0; scale := 1 |}.

(** The fields of a wheel event and of the canvas' bounding rectangle
    that [handleWheel] reads. *)
Record WheelEvent : Type :=
  mkWheel { clientX : Q; clientY : Q; deltaY : Q }.

Record DOMRect : Type := mkDOMRect { left : Q; top : Q }.

(** [handleWheel]: [canvas] is [None] when [canvasRef.current] is
    null; the result is the transform after the event. *)
Definition handleWheel (isEnhancing : bool) (canvas : option DOMRect)
    (e : WheelEvent) (transform : Transform) : Transform :=
  if isEnhancing then transform else
  match canvas with
  | None => transform
  | Some rect =>
      let mouseX := clientX e - left rect in
      let mouseY := clientY e - top rect in
      let zoomFactor := 11 # 10 in
      let newScale :=
        if Qltb (deltaY e) 0 then scale transform * zoomFactor
        else scale transform / zoomFactor in
      let clampedScale := clamp newScale (1 # 4) 20 in
      let newX :=
        mouseX - (mouseX - x transform) * (clampedScale / scale transform) in
      let newY :=
        mouseY - (mouseY - y transform) * (clampedScale / scale transform) in
      {| x := newX; y := newY; scale := clampedScale |}
  end.

(** [getTransformedMousePos]: the point of the untransformed canvas
    that lies under the canvas position [(canvasX, canvasY)]. *)
Definition getTransformedMousePos (transform : Transform)
    (canvasX canvasY : Q) : Q * Q :=
  let transformedX := (canvasX - x transform) / scale transform in
  let transformedY := (canvasY - y transform) / scale transform in
  (transformedX, transformedY).

(** [draw] paints under [ctx.translate(transform.x, transform.y)]
    followed by [ctx.scale(transform.scale, transform.scale)]: a point
    [p] of the untransformed canvas appears at this canvas position. *)
Definition drawnAt (transform : Transform) (p : Q * Q) : Q * Q :=
  (fst p * scale transform + x transform,
   snd p * scale transform + y transform).

(** Numeric equality of points. *)
Definition point_eq (p q : Q * Q) : Prop :=
  fst p == fst q /\ snd p == snd q.

(** The scale range enforced by [clamp]. *)
Definition scaleInRange (transform : Transform) : Prop :=
  1 # 4 <= scale transform /\ scale transform <= 20.

End ImageDisplay.

(** ** Promises: a result that is either returned or thrown *)

Module Promise.

(** A thrown value, reduced to what the handlers read of it:
    [error?.message]. *)
Record Error : Type := mkError { message : option string }.

Inductive Outcome (A : Type) : Type :=
| Return (a : A)
| Throw (e : Error).
Arguments Return {A} a.
Arguments Throw {A} e.

Definition isThrow {A : Type} (o : Outcome A) : bool :=
  match o with Return _ => false | Throw _ => true end.

(** [new Error(msg)] *)
Definition new_Error (msg : string) : Error := {| message := Some msg |}.

End Promise.

(** ** [serviceEnhance.ts]: the request sent to the generation backend *)

Module ServiceEnhance.
Import Promise.
Local Open Scope string_scope.
Local Open Scope Q_scope.

Definition dquote : string := String "034"%char EmptyString.
Definition newline : string := String "010"%char EmptyString.
Definition backtick : string := String "096"%char EmptyString.
(** The banana emoji (U+1F34C) in UTF-8. *)
Definition banana : string :=
  String "240"%char (String "159"%char
    (String "141"%char (String "140"%char EmptyString))).

Definition cat (parts : list string) : string := String.concat EmptyString parts.

(** Truthiness of a string, and [a || b] on strings. *)
Definition truthy (s : string) : bool :=
  match s with EmptyString => false | _ => true end.

Definition orElse (a b : string) : string := if truthy a then a else b.

(** [dataUrl.split(',')]: the pieces between commas. *)
Fixpoint splitComma (s : string) : list string :=
  match s with
  | EmptyString => [EmptyString]
  | String c rest =>
      if Ascii.eqb c ","%char then EmptyString :: splitComma rest
      else match splitComma rest with
           | piece :: pieces => String c piece :: pieces
           | [] => [String c EmptyString]
           end
  end.

Definition dataUrlToBase64 (dataUrl : string) : string :=
  let parts := splitComma dataUrl in
  if (1 <? length parts)%nat then
    match parts !! 1%nat with Some p => p | None => EmptyString end
  else EmptyString.

Definition getQualityModifiers (sharpness denoise : Q) : list string :=
  let modifiers : list string := [] in
  let modifiers :=
    if Qle_bool sharpness 20 then
      (modifiers ++ ["have a soft focus, maintaining the original level of detail"])%list
    else if Qle_bool 61 sharpness && Qle_bool sharpness 80 then
      (modifiers ++ ["have a sharp, crisp finish, adding subtle, plausible details where the image is slightly blurry"])%list
    else if Qle_bool 81 sharpness then
      (modifiers ++ ["be extremely sharp, with highly defined details. Where the image is blurry, you must invent and add intricate, photorealistic details that are consistent with the surrounding context"])%list
    else modifiers in
  let modifiers :=
    if Qle_bool denoise 20 then
      (modifiers ++ ["preserve the original film grain and texture"])%list
    else if Qle_bool 61 denoise && Qle_bool denoise 80 then
      (modifiers ++ ["apply significant noise reduction for a clean look"])%list
    else if Qle_bool 81 denoise then
      (modifiers ++ ["be almost completely free of noise and grain, resulting in a very smooth image"])%list
    else modifiers in
  modifiers.

Definition getImaginationInstructions (imagination : Q) : string :=
  if Qle_bool imagination 20 then
    "The final image should be a direct, high-resolution upscale of the input. Stick as closely as possible to the original image's shapes, colors, and content. Do not add or remove any elements."
  else if Qle_bool imagination 40 then
    "Subtly enhance the details. You can introduce small, plausible textures and details that are hinted at in the original, but do not add new objects or significantly alter the composition."
  else if Qle_bool imagination 60 then
    "Be moderately creative. You can reinterpret blurry or ambiguous areas into more defined objects and textures that fit the context. The overall theme and composition should remain consistent with the original."
  else if Qle_bool imagination 80 then
    "Use your imagination. You can add new elements and transform parts of the scene, as long as it's clearly inspired by the original image's colors and shapes. The result can be a creative interpretation."
  else
    "Transform the image into something fantastical and surreal. The original image is merely a starting point for a highly imaginative and artistic creation. Feel free to completely reimagine the scene.".

(** [history[history.length-1]]; [undefined] reads as the empty
    string, which [context || ...] treats alike. *)
Definition lastPrompt (history : list string) : string :=
  default EmptyString (history !! (length history - 1)%nat).

(** The text of [generationPrompt] for the context string [context]. *)
Definition generationPrompt (context : string) (seekNanoBanana : bool)
    (sharpness denoise imagination : Q) : string :=
  let qualityModifiers := getQualityModifiers sharpness denoise in
  let qualityInstructions :=
    if (0 <? length qualityModifiers)%nat then
      cat ["The final image should ";
           String.concat " and " qualityModifiers; "."]
    else EmptyString in
  let imaginationInstructions := getImaginationInstructions imagination in
  cat [ "The provided image is a low-resolution crop, described as: ";
        dquote; orElse context "an unknown scene"; dquote;
        ". Your task is to upscale it into a high-resolution, detailed image.";
        newline; newline;
        "**Creative Guidance:** "; imaginationInstructions;
        newline; newline;
        "**Quality Instructions:** ";
        orElse qualityInstructions "Use default quality settings.";
        newline; newline;
        "**Boundary Rules:** The resulting image must be a plausible, higher-resolution version of the input, interpreted through the creative guidance above. It should build upon the shapes and colors present in the reference image.";
        newline;
        if seekNanoBanana then
          cat [ newline;
                "**Easter Egg:** There's a small chance you can hide a ";
                dquote; "nano banana"; dquote; " "; banana;
                " in the image. Be subtle. If you add a banana, respond with the text part as a JSON object: ";
                backtick; "{"; dquote; "foundTheBanana"; dquote; ": true}";
                backtick;
                ". Otherwise, do not include a text part or set it to ";
                backtick; "{"; dquote; "foundTheBanana"; dquote; ": false}";
                backtick; "." ]
        else EmptyString ].

(** The request handed to [ai.models.generateContent]. *)
Record InlineData : Type := mkInline { mimeType : string; data : string }.

Record Request : Type :=
  mkRequest { model : string; imagePart : InlineData; text : string }.

(** The response, as far as [serviceEnhance] inspects it: a missing
    field is [None]. *)
Record Part : Type :=
  mkPart { part_text : option string; part_inlineData : option InlineData }.
Record Content : Type := mkContent { parts : option (list Part) }.
Record Candidate : Type := mkCandidate { content : option Content }.
Record Response : Type :=
  mkResponse { candidates : option (list Candidate) }.

Record Enhanced : Type :=
  mkEnhanced { imageSrc : string; foundTheBanana : bool }.

(** [`data:${part.inlineData.mimeType};base64,${imageData}`] *)
Definition dataUrl (d : InlineData) : string :=
  cat ["data:"; mimeType d; ";base64,"; data d].

(** The loop over the parts of the first candidate.  [JSON_flag t] is
    [None] when [JSON.parse(t)] (or reading the flag) throws and
    otherwise the truthiness of [json.foundTheBanana]. *)
Fixpoint scanParts (JSON_flag : string -> option bool) (ps : list Part)
    (found : bool) (src : option string) : bool * option string :=
  match ps with
  | [] => (found, src)
  | part :: rest =>
      match part_text part, part_inlineData part with
      | Some t, inline =>
          if truthy t then
            match JSON_flag t with
            | Some true => scanParts JSON_flag rest true src
            | _ => scanParts JSON_flag rest found src
            end
          else
            match inline with
            | Some d => scanParts JSON_flag rest found (Some (dataUrl d))
            | None => scanParts JSON_flag rest found src
            end
      | None, Some d => scanParts JSON_flag rest found (Some (dataUrl d))
      | None, None => scanParts JSON_flag rest found src
      end
  end.

Definition readResponse (JSON_flag : string -> option bool)
    (response : Response) : Outcome Enhanced :=
  match candidates response with
  | None | Some [] =>
      Throw (new_Error "No candidates returned from the API.")
  | Some (first :: _) =>
      match content first with
      | None => Throw (new_Error "No contents returned from the API.")
      | Some contents =>
          match parts contents with
          | None => Throw (new_Error "No parts returned from the API.")
          | Some ps =>
              match scanParts JSON_flag ps false None with
              | (found, Some src) =>
                  if truthy src then
                    Return {| imageSrc := src; foundTheBanana := found |}
                  else
                    Throw (new_Error "API response did not include an image.")
              | (_, None) =>
                  Throw (new_Error "API response did not include an image.")
              end
          end
      end
  end.

(** [serviceEnhance]: the first component lists the requests issued to
    the backend, in order; the second is the settled promise. *)
Definition serviceEnhance
    (generateContent : Request -> Outcome Response)
    (JSON_flag : string -> option bool)
    (croppedImageDataUrl : string) (history : list string)
    (seekNanoBanana : bool) (sharpness denoise imagination : Q)
    : list Request * Outcome Enhanced :=
  let base64Data := dataUrlToBase64 croppedImageDataUrl in
  let imagePart := {| mimeType := "image/png"; data := base64Data |} in
  if (length history =? 0)%nat then
    ([], Throw (new_Error "Enhancement history is empty."))
  else
      let context := lastPrompt history in
      let request :=
        {| model := "gemini-2.5-flash-image";
           imagePart := imagePart;
           text := generationPrompt context seekNanoBanana
                     sharpness denoise imagination |} in
      match generateContent request with
      | Throw e => ([request], Throw e)
      | Return response => ([request], readResponse JSON_flag response)
      end.

End ServiceEnhance.

(** ** JavaScript arrays read through a signed index *)

Module JsArray.
Local Open Scope Z_scope.

(** A relative index of [slice]: negative counts from the end, and the
    result is clamped to [[0, len]]. *)
Definition relIndex (len k : Z) : Z :=
  if k <? 0 then Z.max (len + k) 0 else Z.min k len.

(** [l.slice(start, end)] *)
Definition slice {A : Type} (l : list A) (start end_ : Z) : list A :=
  let len := Z.of_nat (length l) in
  let k := relIndex len start in
  let final := relIndex len end_ in
  take (Z.to_nat (final - k)) (drop (Z.to_nat k) l).

(** [l[i]]: [None] is [undefined]. *)
Definition get {A : Type} (l : list A) (i : Z) : option A :=
  if i <? 0 then None else l !! Z.to_nat i.

(** [l.length] *)
Definition len {A : Type} (l : list A) : Z := Z.of_nat (length l).

End JsArray.

(** ** [App.tsx]: the editor state and its handlers *)

Module App.
Import Types Promise.
Local Open Scope Z_scope.

(** A decoded image, as far as the handlers read it. *)
Record HTMLImageElement : Type :=
  mkImage { src : string; naturalWidth : Q; naturalHeight : Q }.

Record EnhancementJob : Type :=
  mkJob { job_originalRect : Rect;
          canvasWithSelectionDataUrl : string;
          pixelatedSrc : string;
          screenRect : Rect }.

Record OptimalSettings : Type :=
  mkSettings { opt_sharpness : Q; opt_denoise : Q; opt_imagination : Q }.

(** A dropped or selected file: [file.type] and [file.name]. *)
Record File : Type := mkFile { type : string; name : string }.

(** The collaborators outside [App.tsx].  [newImage url] is the
    element whose [onload] fires after [img.src = url], or [None] when
    [onerror] fires instead; [serviceDescribeImage] takes [false] where
    the call leaves [isFullImage] out; [JSON_apiError m] is the pair
    [(parsed.error.message, parsed.error.status)] when [JSON.parse(m)]
    succeeds and [parsed.error?.message] is truthy;
    [fetchInitialImage] is the object URL of the fetched starter
    image. *)
Record Env : Type := mkEnv {
  window_innerWidth : Q;
  window_innerHeight : Q;
  newImage : string -> option HTMLImageElement;
  cropImage : HTMLImageElement -> Rect -> Q -> Q -> bool -> Outcome string;
  imageToDataUrl : HTMLImageElement -> Outcome string;
  serviceDescribeImage :
    string -> list ImageDescription -> bool -> Outcome ImageDescription;
  generateContent :
    ServiceEnhance.Request -> Outcome ServiceEnhance.Response;
  JSON_flag : string -> option bool;
  serviceAnalyzeForOptimalSettings : string -> Outcome OptimalSettings;
  JSON_apiError : string -> option (string * option string);
  fetchInitialImage : Outcome string;
  heic2any : File -> Outcome File;
  createObjectURL : File -> string }.

(** The state variables of the component ([useState]).  The export
    menu flag [isExportMenuOpen] and the PNG/JPG export handlers, which
    read [finalImageSrc] only, are left out. *)
Record State : Type := mkState {
  appState : AppState;
  image : option HTMLImageElement;
  pixelatedImageSrc : option string;
  enhancedImageSrc : option string;
  finalImageSrc : option string;
  history : list HistoryStep;
  historyIndex : Z;
  newHistoryEntryData : option (ImageDescription * Rect);
  enhancementJob : option EnhancementJob;
  finalEnhancementRect : option Rect;
  displaySelection : option Rect;
  isGeneratingGif : bool;
  showBananaBanner : bool;
  seekNanoBanana : bool;
  sharpness : Q;
  denoise : Q;
  imagination : Q;
  isRegenPromptVisible : bool;
  regenPrompt : string;
  errorMessage : option string }.

(** The setters returned by [useState], one per variable. *)
Definition setAppState (v : AppState) (s : State) : State :=
  {| appState := v; image := image s;
     pixelatedImageSrc := pixelatedImageSrc s;
     enhancedImageSrc := enhancedImageSrc s;
     finalImageSrc := finalImageSrc s; history := history s;
     historyIndex := historyIndex s;
     newHistoryEntryData := newHistoryEntryData s;
     enhancementJob := enhancementJob s;
     finalEnhancementRect := finalEnhancementRect s;
     displaySelection := displaySelection s;
     isGeneratingGif := isGeneratingGif s;
     showBananaBanner := showBananaBanner s;
     seekNanoBanana := seekNanoBanana s; sharpness := sharpness s;
     denoise := denoise s; imagination := imagination s;
     isRegenPromptVisible := isRegenPromptVisible s;
     regenPrompt := regenPrompt s; errorMessage := errorMessage s |}.

Definition setImage (v : option HTMLImageElement) (s : State) : State :=
  {| appState := appState s; image := v;
     pixelatedImageSrc := pixelatedImageSrc s;
     enhancedImageSrc := enhancedImageSrc s;
     finalImageSrc := finalImageSrc s; history := history s;
     historyIndex := historyIndex s;
     newHistoryEntryData := newHistoryEntryData s;
     enhancementJob := enhancementJob s;
     finalEnhancementRect := finalEnhancementRect s;
     displaySelection := displaySelection s;
     isGeneratingGif := isGeneratingGif s;
     showBananaBanner := showBananaBanner s;
     seekNanoBanana := seekNanoBanana s; sharpness := sharpness s;
     denoise := denoise s; imagination := imagination s;
     isRegenPromptVisible := isRegenPromptVisible s;
     regenPrompt := regenPrompt s; errorMessage := errorMessage s |}.

Definition setPixelatedImageSrc (v : option string) (s : State) : State :=
  {| appState := appState s; image := image s; pixelatedImageSrc := v;
     enhancedImageSrc := enhancedImageSrc s;
     finalImageSrc := finalImageSrc s; history := history s;
     historyIndex := historyIndex s;
     newHistoryEntryData := newHistoryEntryData s;
     enhancementJob := enhancementJob s;
     finalEnhancementRect := finalEnhancementRect s;
     displaySelection := displaySelection s;
     isGeneratingGif := isGeneratingGif s;
     showBananaBanner := showBananaBanner s;
     seekNanoBanana := seekNanoBanana s; sharpness := sharpness s;
     denoise := denoise s; imagination := imagination s;
     isRegenPromptVisible := isRegenPromptVisible s;
     regenPrompt := regenPrompt s; errorMessage := errorMessage s |}.

Definition setEnhancedImageSrc (v : option string) (s : State) : State :=
  {| appState := appState s; image := image s;
     pixelatedImageSrc := pixelatedImageSrc s; enhancedImageSrc := v;
     finalImageSrc := finalImageSrc s; history := history s;
     historyIndex := historyIndex s;
     newHistoryEntryData := newHistoryEntryData s;
     enhancementJob := enhancementJob s;
     finalEnhancementRect := finalEnhancementRect s;
     displaySelection := displaySelection s;
     isGeneratingGif := isGeneratingGif s;
     showBananaBanner := showBananaBanner s;
     seekNanoBanana := seekNanoBanana s; sharpness := sharpness s;
     denoise := denoise s; imagination := imagination s;
     isRegenPromptVisible := isRegenPromptVisible s;
     regenPrompt := regenPrompt s; errorMessage := errorMessage s |}.

Definition setFinalImageSrc (v : option string) (s : State) : State :=
  {| appState := appState s; image := image s;
     pixelatedImageSrc := pixelatedImageSrc s;
     enhancedImageSrc := enhancedImageSrc s; finalImageSrc := v;
     history := history s; historyIndex := historyIndex s;
     newHistoryEntryData := newHistoryEntryData s;
     enhancementJob := enhancementJob s;
     finalEnhancementRect := finalEnhancementRect s;
     displaySelection := displaySelection s;
     isGeneratingGif := isGeneratingGif s;
     showBananaBanner := showBananaBanner s;
     seekNanoBanana := seekNanoBanana s; sharpness := sharpness s;
     denoise := denoise s; imagination := imagination s;
     isRegenPromptVisible := isRegenPromptVisible s;
     regenPrompt := regenPrompt s; errorMessage := errorMessage s |}.

Definition setHistory (v : list HistoryStep) (s : State) : State :=
  {| appState := appState s; image := image s;
     pixelatedImageSrc := pixelatedImageSrc s;
     enhancedImageSrc := enhancedImageSrc s;
     finalImageSrc := finalImageSrc s; history := v;
     historyIndex := historyIndex s;
     newHistoryEntryData := newHistoryEntryData s;
     enhancementJob := enhancementJob s;
     finalEnhancementRect := finalEnhancementRect s;
     displaySelection := displaySelection s;
     isGeneratingGif := isGeneratingGif s;
     showBananaBanner := showBananaBanner s;
     seekNanoBanana := seekNanoBanana s; sharpness := sharpness s;
     denoise := denoise s; imagination := imagination s;
     isRegenPromptVisible := isRegenPromptVisible s;
     regenPrompt := regenPrompt s; errorMessage := errorMessage s |}.

Definition setHistoryIndex (v : Z) (s : State) : State :=
  {| appState := appState s; image := image s;
     pixelatedImageSrc := pixelatedImageSrc s;
     enhancedImageSrc := enhancedImageSrc s;
     finalImageSrc := finalImageSrc s; history := history s;
     historyIndex := v; newHistoryEntryData := newHistoryEntryData s;
     enhancementJob := enhancementJob s;
     finalEnhancementRect := finalEnhancementRect s;
     displaySelection := displaySelection s;
     isGeneratingGif := isGeneratingGif s;
     showBananaBanner := showBananaBanner s;
     seekNanoBanana := seekNanoBanana s; sharpness := sharpness s;
     denoise := denoise s; imagination := imagination s;
     isRegenPromptVisible := isRegenPromptVisible s;
     regenPrompt := regenPrompt s; errorMessage := errorMessage s |}.

Definition setNewHistoryEntryData (v : option (ImageDescription * Rect)) (s : State) : State :=
  {| appState := appState s; image := image s;
     pixelatedImageSrc := pixelatedImageSrc s;
     enhancedImageSrc := enhancedImageSrc s;
     finalImageSrc := finalImageSrc s; history := history s;
     historyIndex := historyIndex s; newHistoryEntryData := v;
     enhancementJob := enhancementJob s;
     finalEnhancementRect := finalEnhancementRect s;
     displaySelection := displaySelection s;
     isGeneratingGif := isGeneratingGif s;
     showBananaBanner := showBananaBanner s;
     seekNanoBanana := seekNanoBanana s; sharpness := sharpness s;
     denoise := denoise s; imagination := imagination s;
     isRegenPromptVisible := isRegenPromptVisible s;
     regenPrompt := regenPrompt s; errorMessage := errorMessage s |}.

Definition setEnhancementJob (v : option EnhancementJob) (s : State) : State :=
  {| appState := appState s; image := image s;
     pixelatedImageSrc := pixelatedImageSrc s;
     enhancedImageSrc := enhancedImageSrc s;
     finalImageSrc := finalImageSrc s; history := history s;
     historyIndex := historyIndex s;
     newHistoryEntryData := newHistoryEntryData s; enhancementJob := v;
     finalEnhancementRect := finalEnhancementRect s;
     displaySelection := displaySelection s;
     isGeneratingGif := isGeneratingGif s;
     showBananaBanner := showBananaBanner s;
     seekNanoBanana := seekNanoBanana s; sharpness := sharpness s;
     denoise := denoise s; imagination := imagination s;
     isRegenPromptVisible := isRegenPromptVisible s;
     regenPrompt := regenPrompt s; errorMessage := errorMessage s |}.

Definition setFinalEnhancementRect (v : option Rect) (s : State) : State :=
  {| appState := appState s; image := image s;
     pixelatedImageSrc := pixelatedImageSrc s;
     enhancedImageSrc := enhancedImageSrc s;
     finalImageSrc := finalImageSrc s; history := history s;
     historyIndex := historyIndex s;
     newHistoryEntryData := newHistoryEntryData s;
     enhancementJob := enhancementJob s; finalEnhancementRect := v;
     displaySelection := displaySelection s;
     isGeneratingGif := isGeneratingGif s;
     showBananaBanner := showBananaBanner s;
     seekNanoBanana := seekNanoBanana s; sharpness := sharpness s;
     denoise := denoise s; imagination := imagination s;
     isRegenPromptVisible := isRegenPromptVisible s;
     regenPrompt := regenPrompt s; errorMessage := errorMessage s |}.

Definition setDisplaySelection (v : option Rect) (s : State) : State :=
  {| appState := appState s; image := image s;
     pixelatedImageSrc := pixelatedImageSrc s;
     enhancedImageSrc := enhancedImageSrc s;
     finalImageSrc := finalImageSrc s; history := history s;
     historyIndex := historyIndex s;
     newHistoryEntryData := newHistoryEntryData s;
     enhancementJob := enhancementJob s;
     finalEnhancementRect := finalEnhancementRect s; displaySelection := v;
     isGeneratingGif := isGeneratingGif s;
     showBananaBanner := showBananaBanner s;
     seekNanoBanana := seekNanoBanana s; sharpness := sharpness s;
     denoise := denoise s; imagination := imagination s;
     isRegenPromptVisible := isRegenPromptVisible s;
     regenPrompt := regenPrompt s; errorMessage := errorMessage s |}.

Definition setIsGeneratingGif (v : bool) (s : State) : State :=
  {| appState := appState s; image := image s;
     pixelatedImageSrc := pixelatedImageSrc s;
     enhancedImageSrc := enhancedImageSrc s;
     finalImageSrc := finalImageSrc s; history := history s;
     historyIndex := historyIndex s;
     newHistoryEntryData := newHistoryEntryData s;
     enhancementJob := enhancementJob s;
     finalEnhancementRect := finalEnhancementRect s;
     displaySelection := displaySelection s; isGeneratingGif := v;
     showBananaBanner := showBananaBanner s;
     seekNanoBanana := seekNanoBanana s; sharpness := sharpness s;
     denoise := denoise s; imagination := imagination s;
     isRegenPromptVisible := isRegenPromptVisible s;
     regenPrompt := regenPrompt s; errorMessage := errorMessage s |}.

Definition setShowBananaBanner (v : bool) (s : State) : State :=
  {| appState := appState s; image := image s;
     pixelatedImageSrc := pixelatedImageSrc s;
     enhancedImageSrc := enhancedImageSrc s;
     finalImageSrc := finalImageSrc s; history := history s;
     historyIndex := historyIndex s;
     newHistoryEntryData := newHistoryEntryData s;
     enhancementJob := enhancementJob s;
     finalEnhancementRect := finalEnhancementRect s;
     displaySelection := displaySelection s;
     isGeneratingGif := isGeneratingGif s; showBananaBanner := v;
     seekNanoBanana := seekNanoBanana s; sharpness := sharpness s;
     denoise := denoise s; imagination := imagination s;
     isRegenPromptVisible := isRegenPromptVisible s;
     regenPrompt := regenPrompt s; errorMessage := errorMessage s |}.

Definition setSeekNanoBanana (v : bool) (s : State) : State :=
  {| appState := appState s; image := image s;
     pixelatedImageSrc := pixelatedImageSrc s;
     enhancedImageSrc := enhancedImageSrc s;
     finalImageSrc := finalImageSrc s; history := history s;
     historyIndex := historyIndex s;
     newHistoryEntryData := newHistoryEntryData s;
     enhancementJob := enhancementJob s;
     finalEnhancementRect := finalEnhancementRect s;
     displaySelection := displaySelection s;
     isGeneratingGif := isGeneratingGif s;
     showBananaBanner := showBananaBanner s; seekNanoBanana := v;
     sharpness := sharpness s; denoise := denoise s;
     imagination := imagination s;
     isRegenPromptVisible := isRegenPromptVisible s;
     regenPrompt := regenPrompt s; errorMessage := errorMessage s |}.

Definition setSharpness (v : Q) (s : State) : State :=
  {| appState := appState s; image := image s;
     pixelatedImageSrc := pixelatedImageSrc s;
     enhancedImageSrc := enhancedImageSrc s;
     finalImageSrc := finalImageSrc s; history := history s;
     historyIndex := historyIndex s;
     newHistoryEntryData := newHistoryEntryData s;
     enhancementJob := enhancementJob s;
     finalEnhancementRect := finalEnhancementRect s;
     displaySelection := displaySelection s;
     isGeneratingGif := isGeneratingGif s;
     showBananaBanner := showBananaBanner s;
     seekNanoBanana := seekNanoBanana s; sharpness := v;
     denoise := denoise s; imagination := imagination s;
     isRegenPromptVisible := isRegenPromptVisible s;
     regenPrompt := regenPrompt s; errorMessage := errorMessage s |}.

Definition setDenoise (v : Q) (s : State) : State :=
  {| appState := appState s; image := image s;
     pixelatedImageSrc := pixelatedImageSrc s;
     enhancedImageSrc := enhancedImageSrc s;
     finalImageSrc := finalImageSrc s; history := history s;
     historyIndex := historyIndex s;
     newHistoryEntryData := newHistoryEntryData s;
     enhancementJob := enhancementJob s;
     finalEnhancementRect := finalEnhancementRect s;
     displaySelection := displaySelection s;
     isGeneratingGif := isGeneratingGif s;
     showBananaBanner := showBananaBanner s;
     seekNanoBanana := seekNanoBanana s; sharpness := sharpness s;
     denoise := v; imagination := imagination s;
     isRegenPromptVisible := isRegenPromptVisible s;
     regenPrompt := regenPrompt s; errorMessage := errorMessage s |}.

Definition setImagination (v : Q) (s : State) : State :=
  {| appState := appState s; image := image s;
     pixelatedImageSrc := pixelatedImageSrc s;
     enhancedImageSrc := enhancedImageSrc s;
     finalImageSrc := finalImageSrc s; history := history s;
     historyIndex := historyIndex s;
     newHistoryEntryData := newHistoryEntryData s;
     enhancementJob := enhancementJob s;
     finalEnhancementRect := finalEnhancementRect s;
     displaySelection := displaySelection s;
     isGeneratingGif := isGeneratingGif s;
     showBananaBanner := showBananaBanner s;
     seekNanoBanana := seekNanoBanana s; sharpness := sharpness s;
     denoise := denoise s; imagination := v;
     isRegenPromptVisible := isRegenPromptVisible s;
     regenPrompt := regenPrompt s; errorMessage := errorMessage s |}.

Definition setIsRegenPromptVisible (v : bool) (s : State) : State :=
  {| appState := appState s; image := image s;
     pixelatedImageSrc := pixelatedImageSrc s;
     enhancedImageSrc := enhancedImageSrc s;
     finalImageSrc := finalImageSrc s; history := history s;
     historyIndex := historyIndex s;
     newHistoryEntryData := newHistoryEntryData s;
     enhancementJob := enhancementJob s;
     finalEnhancementRect := finalEnhancementRect s;
     displaySelection := displaySelection s;
     isGeneratingGif := isGeneratingGif s;
     showBananaBanner := showBananaBanner s;
     seekNanoBanana := seekNanoBanana s; sharpness := sharpness s;
     denoise := denoise s; imagination := imagination s;
     isRegenPromptVisible := v; regenPrompt := regenPrompt s;
     errorMessage := errorMessage s |}.

Definition setRegenPrompt (v : string) (s : State) : State :=
  {| appState := appState s; image := image s;
     pixelatedImageSrc := pixelatedImageSrc s;
     enhancedImageSrc := enhancedImageSrc s;
     finalImageSrc := finalImageSrc s; history := history s;
     historyIndex := historyIndex s;
     newHistoryEntryData := newHistoryEntryData s;
     enhancementJob := enhancementJob s;
     finalEnhancementRect := finalEnhancementRect s;
     displaySelection := displaySelection s;
     isGeneratingGif := isGeneratingGif s;
     showBananaBanner := showBananaBanner s;
     seekNanoBanana := seekNanoBanana s; sharpness := sharpness s;
     denoise := denoise s; imagination := imagination s;
     isRegenPromptVisible := isRegenPromptVisible s; regenPrompt := v;
     errorMessage := errorMessage s |}.

Definition setErrorMessage (v : option string) (s : State) : State :=
  {| appState := appState s; image := image s;
     pixelatedImageSrc := pixelatedImageSrc s;
     enhancedImageSrc := enhancedImageSrc s;
     finalImageSrc := finalImageSrc s; history := history s;
     historyIndex := historyIndex s;
     newHistoryEntryData := newHistoryEntryData s;
     enhancementJob := enhancementJob s;
     finalEnhancementRect := finalEnhancementRect s;
     displaySelection := displaySelection s;
     isGeneratingGif := isGeneratingGif s;
     showBananaBanner := showBananaBanner s;
     seekNanoBanana := seekNanoBanana s; sharpness := sharpness s;
     denoise := denoise s; imagination := imagination s;
     isRegenPromptVisible := isRegenPromptVisible s;
     regenPrompt := regenPrompt s; errorMessage := v |}.
(** The state before the first render. *)
Definition initialState : State :=
  {| appState := LOADING; image := None; pixelatedImageSrc := None;
     enhancedImageSrc := None; finalImageSrc := None; history := [];
     historyIndex := -1; newHistoryEntryData := None;
     enhancementJob := None; finalEnhancementRect := None;
     displaySelection := None; isGeneratingGif := false;
     showBananaBanner := false; seekNanoBanana := false;
     sharpness := 50%Q; denoise := 50%Q; imagination := 0%Q;
     isRegenPromptVisible := false; regenPrompt := EmptyString;
     errorMessage := None |}.

(** *** Asynchronous code: state updates interleaved with promises

    A computation threads the pending state and settles in a value or
    a thrown error; the updates made before a throw stay. *)
Definition M (A : Type) : Type := State -> State * Outcome A.

Definition ret {A : Type} (a : A) : M A := fun s => (s, Return a).

Definition bind {A B : Type} (m : M A) (k : A -> M B) : M B :=
  fun s =>
    match m s with
    | (s', Return a) => k a s'
    | (s', Throw e) => (s', Throw e)
    end.

(** [await p] for an already settled promise. *)
Definition await {A : Type} (p : Outcome A) : M A := fun s => (s, p).

(** A call of a state setter. *)
Definition update (f : State -> State) : M unit :=
  fun s => (f s, Return tt).

(** [try { body } catch (error) { handler }] *)
Definition tryCatch (body : M unit) (handler : Error -> M unit) : M unit :=
  fun s =>
    match body s with
    | (s', Return tt) => (s', Return tt)
    | (s', Throw e) => handler e s'
    end.

(** [try { body } finally { finalizer }] *)
Definition tryFinally (body : M unit) (finalizer : M unit) : M unit :=
  fun s =>
    match body s with
    | (s', Return tt) => finalizer s'
    | (s', Throw e) =>
        match finalizer s' with
        | (s'', Return tt) => (s'', Throw e)
        | (s'', Throw e') => (s'', Throw e')
        end
    end.

(** The state left by a handler that started in [s]. *)
Definition exec {A : Type} (m : M A) (s : State) : State := fst (m s).

Declare Scope async_scope.
Delimit Scope async_scope with async.
Notation "x <- m ;; k" := (bind m (fun x => k))
  (at level 100, m at next level, k at level 200, right associativity)
  : async_scope.
Notation "m ;; k" := (bind m (fun _ => k))
  (at level 100, k at level 200, right associativity) : async_scope.

Local Open Scope async_scope.
Local Open Scope string_scope.

(** Reading a property of [undefined]. *)
Definition TypeError : Error :=
  new_Error "Cannot read properties of undefined".

(** [getApiErrorMessage] *)
Definition getApiErrorMessage (env : Env) (error : Error) : string :=
  let message := "An unexpected error occurred. Please try again." in
  match Promise.message error with
  | Some m =>
      if ServiceEnhance.truthy m then
        match JSON_apiError env m with
        | Some (parsedMessage, status) =>
            match status with
            | Some st =>
                if String.eqb st "RESOURCE_EXHAUSTED" then
                  "API quota exceeded. Please check your plan and billing details."
                else String.append "API Error: " parsedMessage
            | None => String.append "API Error: " parsedMessage
            end
        | None => m
        end
      else message
  | None => message
  end.

(** [loadInitialImage], with the [onload] / [onerror] callback of the
    image it creates.  (The bookkeeping of [imageObjectURLRef], which
    only revokes object URLs, is left out.) *)
Definition loadInitialImage (env : Env) (s : State) : State :=
  let s := setAppState LOADING s in
  match fetchInitialImage env with
  | Throw _ => setAppState IDLE s
  | Return objectURL =>
      match newImage env objectURL with
      | Some img =>
          let newStep :=
            {| imageSrc := objectURL; description := None;
               originalRect := None |} in
          setAppState LOADED
            (setDisplaySelection None
               (setFinalImageSrc (Some objectURL)
                  (setImage (Some img)
                     (setHistoryIndex 0 (setHistory [newStep] s)))))
      | None => setAppState IDLE s
      end
  end.

(** [resetState] *)
Definition resetState (env : Env) (s : State) : State :=
  let s := setEnhancementJob None s in
  let s := setFinalEnhancementRect None s in
  let s := setHistory [] s in
  let s := setHistoryIndex (-1) s in
  let s := setNewHistoryEntryData None s in
  let s := setDisplaySelection None s in
  let s := setShowBananaBanner false s in
  let s := setSeekNanoBanana false s in
  let s := setImagination 0%Q s in
  loadInitialImage env s.

(** [history.slice(0, end).map(h => h.description).filter(d => d !== null)] *)
Definition descriptionHistory (history : list HistoryStep) (end_ : Z)
    : list ImageDescription :=
  omap description (JsArray.slice history 0 end_).

(** [handleSelection] *)
Definition handleSelection (env : Env)
    (originalRect screenRect : Rect) (canvasWithSelectionDataUrl : string)
    (s : State) : M unit :=
  match image s with
  | None => ret tt
  | Some image =>
      (if (historyIndex s <? JsArray.len (history s) - 1)%Z then
         let newHistory := JsArray.slice (history s) 0 (historyIndex s + 1) in
         update (setHistory newHistory)
       else ret tt) ;;
      update (setAppState ENHANCING) ;;
      let aspectRatio := (w originalRect / h originalRect)%Q in
      let padding := (5 # 100)%Q in
      let maxWidth := (window_innerWidth env * (1 - padding))%Q in
      let maxHeight := (window_innerHeight env * (1 - padding))%Q in
      let targetWidth := maxWidth in
      let targetHeight := (targetWidth / aspectRatio)%Q in
      let '(targetWidth, targetHeight) :=
        if JsNumber.Qltb maxHeight targetHeight
        then ((maxHeight * aspectRatio)%Q, maxHeight)
        else (targetWidth, targetHeight) in
      update (setFinalEnhancementRect (Some
        {| w := targetWidth;
           h := targetHeight;
           x := ((window_innerWidth env - targetWidth) / 2)%Q;
           y := ((window_innerHeight env - targetHeight) / 2)%Q |})) ;;
      pixelatedSrc <-
        await (cropImage env image originalRect
                 (w originalRect) (h originalRect) true) ;;
      update (setEnhancementJob (Some
        {| job_originalRect := originalRect;
           canvasWithSelectionDataUrl := canvasWithSelectionDataUrl;
           pixelatedSrc := pixelatedSrc;
           screenRect := screenRect |}))
  end.

(** [new Promise((resolve, reject) => { img.onload = () => resolve(img);
    img.onerror = reject; img.src = url })] *)
Definition decodeImage (env : Env) (url : string) : Outcome HTMLImageElement :=
  match newImage env url with
  | Some img => Return img
  | None => Throw {| message := None |}
  end.

(** The call of [serviceEnhance] made by the handlers. *)
Definition callServiceEnhance (env : Env) (croppedImageDataUrl : string)
    (prompts : list string) (seekNanoBanana : bool)
    (sharpness denoise imagination : Q)
    : Outcome ServiceEnhance.Enhanced :=
  snd (ServiceEnhance.serviceEnhance (generateContent env) (JSON_flag env)
         croppedImageDataUrl prompts seekNanoBanana
         sharpness denoise imagination).

(** The body of the [try] block of [runEnhancementJob]. *)
Definition runEnhancementJob_try (env : Env) (s : State)
    (job : EnhancementJob) (image : HTMLImageElement) : M unit :=
  let originalRect := job_originalRect job in
  let descriptionHistory :=
    descriptionHistory (history s) (historyIndex s + 1) in
  description <-
    await (serviceDescribeImage env (canvasWithSelectionDataUrl job)
             descriptionHistory false) ;;
  update (setNewHistoryEntryData (Some (description, originalRect))) ;;
  let sourceImageWidth := naturalWidth image in
  let sourceImageHeight := naturalHeight image in
  let paddedRect :=
    Padding.paddedRect sourceImageWidth sourceImageHeight originalRect in
  let targetWidth := Padding.targetWidth in
  let targetHeight := Padding.targetHeight paddedRect in
  croppedForEnhancement <-
    await (cropImage env image paddedRect targetWidth targetHeight false) ;;
  enhanced <-
    await (callServiceEnhance env croppedForEnhancement
             (map prompt descriptionHistory ++ [prompt description])
             (seekNanoBanana s) (sharpness s) (denoise s) (imagination s)) ;;
  (if ServiceEnhance.foundTheBanana enhanced
   then update (setShowBananaBanner true) else ret tt) ;;
  enhancedPaddedImage <-
    await (decodeImage env (ServiceEnhance.imageSrc enhanced)) ;;
  let finalCropRect :=
    Padding.finalCropRect originalRect paddedRect
      (naturalWidth enhancedPaddedImage)
      (naturalHeight enhancedPaddedImage) in
  let finalImageWidth := Padding.finalImageWidth in
  let finalImageHeight := Padding.finalImageHeight originalRect in
  enhancedSrc <-
    await (cropImage env enhancedPaddedImage finalCropRect
             finalImageWidth finalImageHeight false) ;;
  update (setPixelatedImageSrc (Some (pixelatedSrc job))) ;;
  update (setEnhancedImageSrc (Some enhancedSrc)) ;;
  update (setAppState ENHANCED).

(** [runEnhancementJob] *)
Definition runEnhancementJob (env : Env) (s : State) : M unit :=
  match enhancementJob s, image s with
  | Some job, Some image =>
      tryFinally
        (tryCatch
           (runEnhancementJob_try env s job image)
           (fun error =>
              update (setErrorMessage (Some (getApiErrorMessage env error))) ;;
              update (setAppState LOADED) ;;
              update (setFinalEnhancementRect None)))
        (update (setEnhancementJob None))
  | _, _ => ret tt
  end.

(** [handleEnhancementComplete] *)
Definition handleEnhancementComplete (env : Env) (s : State) : State :=
  match enhancedImageSrc s, newHistoryEntryData s with
  | Some enhancedImageSrc, Some (description, originalRect) =>
      if ServiceEnhance.truthy enhancedImageSrc then
        let newStep :=
          {| imageSrc := enhancedImageSrc;
             description := Some description;
             originalRect := Some originalRect |} in
        let newHistory := JsArray.slice (history s) 0 (historyIndex s + 1) in
        let s' := setHistory (newHistory ++ [newStep]) s in
        let s' := setHistoryIndex (JsArray.len newHistory) s' in
        match newImage env enhancedImageSrc with
        | Some newImage =>
            setAppState LOADED
              (setDisplaySelection None
                 (setNewHistoryEntryData None
                    (setFinalEnhancementRect None
                       (setEnhancedImageSrc None
                          (setFinalImageSrc (Some enhancedImageSrc)
                             (setImage (Some newImage) s'))))))
        | None => s'
        end
      else s
  | _, _ => s
  end.

(** String helpers of [handleFileDrop] ([toLowerCase] on the ASCII
    letters, which is all the two suffix tests can observe). *)
Definition lowerAscii (c : ascii) : ascii :=
  let n := nat_of_ascii c in
  if ((65 <=? n) && (n <=? 90))%nat then ascii_of_nat (n + 32) else c.

Fixpoint toLowerCase (t : string) : string :=
  match t with
  | EmptyString => EmptyString
  | String c rest => String (lowerAscii c) (toLowerCase rest)
  end.

Definition endsWith (t suffix : string) : bool :=
  let n := String.length t in
  let m := String.length suffix in
  if (m <=? n)%nat then String.eqb (substring (n - m) m t) suffix
  else false.

Definition startsWith (t pre : string) : bool := String.prefix pre t.

(** [handleFileDrop] *)
Definition handleFileDrop (env : Env) (file : File) (s : State) : M unit :=
  update (setErrorMessage None) ;;
  let isHeic :=
    String.eqb (type file) "image/heic" || String.eqb (type file) "image/heif"
    || endsWith (toLowerCase (name file)) ".heic"
    || endsWith (toLowerCase (name file)) ".heif" in
  let load (imageFile : File) : M unit :=
    if startsWith (type imageFile) "image/" then
      let objectURL := createObjectURL env imageFile in
      match newImage env objectURL with
      | Some img =>
          let newStep :=
            {| imageSrc := objectURL; description := None;
               originalRect := None |} in
          update (setHistory [newStep]) ;;
          update (setHistoryIndex 0) ;;
          update (setImage (Some img)) ;;
          update (setFinalImageSrc (Some objectURL)) ;;
          update (setEnhancementJob None) ;;
          update (setFinalEnhancementRect None) ;;
          update (setDisplaySelection None) ;;
          update (setShowBananaBanner false) ;;
          update (setSeekNanoBanana false) ;;
          update (setAppState LOADED)
      | None => update (setAppState IDLE)
      end
    else ret tt in
  if isHeic then
    update (setAppState CONVERTING) ;;
    match heic2any env file with
    | Return converted => load converted
    | Throw e =>
        let heicMessage :=
          match Promise.message e with
          | Some m =>
              if ServiceEnhance.truthy m then
                ServiceEnhance.cat
                  ["HEIC conversion failed: "; m;
                   ". Please try a different image."]
              else "HEIC conversion failed. This format may not be supported by your browser. Please try a different image."
          | None => "HEIC conversion failed. This format may not be supported by your browser. Please try a different image."
          end in
        update (setErrorMessage (Some heicMessage)) ;;
        update (setAppState
                  (match image s with Some _ => LOADED | None => IDLE end))
    end
  else load file.

(** [nextStep?.originalRect || null] *)
Definition originalRectOf (step : option HistoryStep) : option Rect :=
  match step with Some st => originalRect st | None => None end.

(** [handleUndo].  The image swap happens in [img.onload]. *)
Definition handleUndo (env : Env) (s : State) : M unit :=
  if (historyIndex s <=? 0)%Z || AppState_eqb (appState s) ENHANCING
     || isGeneratingGif s
  then ret tt
  else
    let newIndex := historyIndex s - 1 in
    update (setHistoryIndex newIndex) ;;
    let nextStep := JsArray.get (history s) (newIndex + 1) in
    update (setDisplaySelection (originalRectOf nextStep)) ;;
    match JsArray.get (history s) newIndex with
    | None => await (Throw TypeError)
    | Some step =>
        let newImageSrc := imageSrc step in
        match newImage env newImageSrc with
        | Some img =>
            update (setImage (Some img)) ;;
            update (setFinalImageSrc (Some newImageSrc))
        | None => ret tt
        end
    end.

(** [handleRedo] *)
Definition handleRedo (env : Env) (s : State) : M unit :=
  if (historyIndex s >=? JsArray.len (history s) - 1)%Z
     || AppState_eqb (appState s) ENHANCING || isGeneratingGif s
  then ret tt
  else
    let newIndex := historyIndex s + 1 in
    update (setHistoryIndex newIndex) ;;
    let nextStep := JsArray.get (history s) (newIndex + 1) in
    update (setDisplaySelection (originalRectOf nextStep)) ;;
    match JsArray.get (history s) newIndex with
    | None => await (Throw TypeError)
    | Some step =>
        let newImageSrc := imageSrc step in
        match newImage env newImageSrc with
        | Some img =>
            update (setImage (Some img)) ;;
            update (setFinalImageSrc (Some newImageSrc))
        | None => ret tt
        end
    end.

(** [handleRegenerateClick] *)
Definition handleRegenerateClick (s : State) : State :=
  if (historyIndex s <=? 0)%Z || AppState_eqb (appState s) ENHANCING
     || isGeneratingGif s
  then s
  else
    let currentPrompt :=
      match JsArray.get (history s) (historyIndex s) with
      | Some step =>
          match description step with
          | Some d => prompt d
          | None => EmptyString
          end
      | None => EmptyString
      end in
    setIsRegenPromptVisible true (setRegenPrompt currentPrompt s).

(** The body of the [try] block inside [sourceImage.onload] of
    [handleRegenWithPrompt]. *)
Definition handleRegenWithPrompt_try (env : Env) (s : State)
    (currentStep : HistoryStep) (originalRect : Rect)
    (sourceImage : HTMLImageElement) : M unit :=
  let descriptionHistory := descriptionHistory (history s) (historyIndex s) in
  let description :=
    {| selectionDescription :=
         ServiceEnhance.orElse
           (match Types.description currentStep with
            | Some d => selectionDescription d
            | None => EmptyString
            end)
           "User-provided prompt for regeneration.";
       prompt := regenPrompt s |} in
  let sourceImageWidth := naturalWidth sourceImage in
  let sourceImageHeight := naturalHeight sourceImage in
  let paddedRect :=
    Padding.paddedRect sourceImageWidth sourceImageHeight originalRect in
  let targetWidth := Padding.targetWidth in
  let targetHeight := Padding.targetHeight paddedRect in
  croppedForEnhancement <-
    await (cropImage env sourceImage paddedRect
             targetWidth targetHeight false) ;;
  enhanced <-
    await (callServiceEnhance env croppedForEnhancement
             (map (fun d => ServiceEnhance.orElse (prompt d) EmptyString)
                  descriptionHistory
              ++ [ServiceEnhance.orElse (prompt description) EmptyString])
             (seekNanoBanana s) (sharpness s) (denoise s) (imagination s)) ;;
  (if ServiceEnhance.foundTheBanana enhanced
   then update (setShowBananaBanner true) else ret tt) ;;
  enhancedPaddedImage <-
    await (decodeImage env (ServiceEnhance.imageSrc enhanced)) ;;
  let finalCropRect :=
    Padding.finalCropRect originalRect paddedRect
      (naturalWidth enhancedPaddedImage)
      (naturalHeight enhancedPaddedImage) in
  let finalImageWidth := Padding.finalImageWidth in
  let finalImageHeight := Padding.finalImageHeight originalRect in
  enhancedSrc <-
    await (cropImage env enhancedPaddedImage finalCropRect
             finalImageWidth finalImageHeight false) ;;
  let newStep :=
    {| imageSrc := enhancedSrc;
       Types.description := Some description;
       Types.originalRect := Some originalRect |} in
  let newHistory :=
    (JsArray.slice (history s) 0 (historyIndex s) ++ [newStep])%list in
  update (setHistory newHistory) ;;
  update (setDisplaySelection None) ;;
  match newImage env enhancedSrc with
  | Some newImage =>
      update (setImage (Some newImage)) ;;
      update (setFinalImageSrc (Some enhancedSrc)) ;;
      update (setAppState LOADED)
  | None => ret tt
  end.

(** [handleRegenWithPrompt] *)
Definition handleRegenWithPrompt (env : Env) (s : State) : M unit :=
  if (historyIndex s <=? 0)%Z || AppState_eqb (appState s) ENHANCING
     || isGeneratingGif s
  then ret tt
  else
    update (setIsRegenPromptVisible false) ;;
    update (setAppState ENHANCING) ;;
    let previousStep := JsArray.get (history s) (historyIndex s - 1) in
    match JsArray.get (history s) (historyIndex s) with
    | None => await (Throw TypeError)
    | Some currentStep =>
        match Types.originalRect currentStep with
        | None => update (setAppState LOADED)
        | Some originalRect =>
            match previousStep with
            | None => await (Throw TypeError)
            | Some previousStep =>
                match newImage env (imageSrc previousStep) with
                | None => ret tt
                | Some sourceImage =>
                    tryCatch
                      (handleRegenWithPrompt_try env s currentStep
                         originalRect sourceImage)
                      (fun error =>
                         update (setErrorMessage
                                   (Some (getApiErrorMessage env error))) ;;
                         update (setAppState LOADED))
                end
            end
        end
    end.

(** The body of the [try] block of [runFullImageEnhancement]. *)
Definition runFullImageEnhancement_try (env : Env) (s : State)
    (image : HTMLImageElement) (newSharpness newDenoise newImagination : Q)
    : M unit :=
  fullImageDataUrl <- await (imageToDataUrl env image) ;;
  let originalRect :=
    {| x := 0%Q; y := 0%Q;
       w := naturalWidth image; h := naturalHeight image |} in
  let descriptionHistory :=
    descriptionHistory (history s) (historyIndex s + 1) in
  description <-
    await (serviceDescribeImage env fullImageDataUrl
             descriptionHistory true) ;;
  enhanced <-
    await (callServiceEnhance env fullImageDataUrl
             (map prompt descriptionHistory ++ [prompt description])
             (seekNanoBanana s) newSharpness newDenoise newImagination) ;;
  (if ServiceEnhance.foundTheBanana enhanced
   then update (setShowBananaBanner true) else ret tt) ;;
  let enhancedSrc := ServiceEnhance.imageSrc enhanced in
  let newStep :=
    {| imageSrc := enhancedSrc;
       Types.description := Some description;
       Types.originalRect := Some originalRect |} in
  let newHistory :=
    (JsArray.slice (history s) 0 (historyIndex s + 1) ++ [newStep])%list in
  update (setHistory newHistory) ;;
  update (setHistoryIndex (JsArray.len newHistory)) ;;
  match newImage env enhancedSrc with
  | Some newImage =>
      update (setImage (Some newImage)) ;;
      update (setFinalImageSrc (Some enhancedSrc)) ;;
      update (setDisplaySelection None) ;;
      update (setAppState LOADED)
  | None => ret tt
  end.

(** [runFullImageEnhancement] *)
Definition runFullImageEnhancement (env : Env) (s : State)
    (newSharpness newDenoise newImagination : Q) : M unit :=
  match image s with
  | None => update (setAppState LOADED)
  | Some image =>
      update (setAppState ENHANCING) ;;
      tryCatch
        (runFullImageEnhancement_try env s image
           newSharpness newDenoise newImagination)
        (fun error =>
           update (setErrorMessage (Some (getApiErrorMessage env error))) ;;
           update (setAppState LOADED))
  end.

(** [handleAutoEnhance] *)
Definition handleAutoEnhance (env : Env) (s : State) : M unit :=
  match image s with
  | None => ret tt
  | Some image =>
      if negb (AppState_eqb (appState s) LOADED)
         && negb (AppState_eqb (appState s) IDLE)
      then ret tt
      else
        update (setAppState ANALYZING) ;;
        tryCatch
          (imageDataUrl <- await (imageToDataUrl env image) ;;
           settings <-
             await (serviceAnalyzeForOptimalSettings env imageDataUrl) ;;
           update (setSharpness (opt_sharpness settings)) ;;
           update (setDenoise (opt_denoise settings)) ;;
           update (setImagination (opt_imagination settings)) ;;
           runFullImageEnhancement env s (opt_sharpness settings)
             (opt_denoise settings) (opt_imagination settings))
          (fun error =>
             update (setErrorMessage (Some (getApiErrorMessage env error))) ;;
             update (setAppState LOADED))
  end.

(** [handleExportGif], in its two halves: up to the [await] of
    [generateZoomGif], and the [finally] block after it. *)
Definition handleExportGif_begin (s : State) : State :=
  if (historyIndex s <? 1)%Z then s else setIsGeneratingGif true s.

Definition handleExportGif_finally (s : State) : State :=
  setIsGeneratingGif false s.

(** *** The rendered controls

    The toolbar with the undo and redo buttons is rendered only under
    [appState === AppState.LOADED && history.length >= 1]; each button
    carries a [disabled] attribute.  A click reaches the handler only
    through a rendered, enabled button. *)
Definition toolbarRendered (s : State) : bool :=
  AppState_eqb (appState s) LOADED && (1 <=? JsArray.len (history s))%Z.

Definition undoDisabled (s : State) : bool :=
  (historyIndex s <=? 0)%Z || isGeneratingGif s.

Definition redoDisabled (s : State) : bool :=
  (historyIndex s >=? JsArray.len (history s) - 1)%Z || isGeneratingGif s.

Definition clickUndo (env : Env) (s : State) : M unit :=
  if toolbarRendered s && negb (undoDisabled s)
  then handleUndo env s else ret tt.

Definition clickRedo (env : Env) (s : State) : M unit :=
  if toolbarRendered s && negb (redoDisabled s)
  then handleRedo env s else ret tt.

(** The [isEnhancing] property handed to [ImageDisplay]. *)
Definition isEnhancing (s : State) : bool :=
  AppState_eqb (appState s) ENHANCING
  || AppState_eqb (appState s) ANALYZING || isGeneratingGif s.

(** *** Vocabulary of the statements *)

(** The pointer of a history: [-1] exactly when the list is empty,
    otherwise a valid position. *)
Definition pointerValid (s : State) : Prop :=
  (history s = [] /\ historyIndex s = -1) \/
  (history s <> [] /\ 0 <= historyIndex s < JsArray.len (history s)).

Definition pointerValidb (s : State) : bool :=
  match history s with
  | [] => (historyIndex s =? -1)%Z
  | _ :: _ =>
      (0 <=? historyIndex s)%Z
      && (historyIndex s <? JsArray.len (history s))%Z
  end.

(** The app is busy: enhancing, analyzing, converting or exporting. *)
Definition busy (s : State) : Prop :=
  appState s = ENHANCING \/ appState s = ANALYZING \/
  appState s = CONVERTING \/ isGeneratingGif s = true.

End App.

(** ** Concrete inputs used by the examples *)

Module Scenario.
Import Types Promise App.
Local Open Scope string_scope.

(** The selection of the scenario of the specification. *)
Definition scenarioRect : Rect :=
  {| x := 10%Q; y := 10%Q; w := 100%Q; h := 100%Q |}.

(** A response of the backend that carries one image part. *)
Definition imageResponse : ServiceEnhance.Response :=
  {| ServiceEnhance.candidates := Some
       [ {| ServiceEnhance.content := Some
              {| ServiceEnhance.parts := Some
                   [ {| ServiceEnhance.part_text := None;
                        ServiceEnhance.part_inlineData := Some
                          {| ServiceEnhance.mimeType := "image/png";
                             ServiceEnhance.data := "ENHANCED" |} |} ] |} |} ] |}.

(** Collaborators that all succeed: every image decodes to 500x500
    pixels. *)
Definition okEnv : Env :=
  {| window_innerWidth := 1280%Q;
     window_innerHeight := 720%Q;
     newImage := fun url =>
       Some {| src := url; naturalWidth := 500%Q; naturalHeight := 500%Q |};
     cropImage := fun _ _ _ _ _ => Return "data:image/png;base64,CROP";
     imageToDataUrl := fun _ => Return "data:image/png;base64,FULL";
     serviceDescribeImage := fun _ _ _ =>
       Return {| selectionDescription := "a lamp on a table";
                 prompt := "a brass lamp" |};
     generateContent := fun _ => Return imageResponse;
     JSON_flag := fun _ => None;
     serviceAnalyzeForOptimalSettings := fun _ =>
       Return {| opt_sharpness := 70%Q; opt_denoise := 30%Q;
                 opt_imagination := 10%Q |};
     JSON_apiError := fun _ => None;
     fetchInitialImage := Return "blob:living_room";
     heic2any := fun f => Return f;
     createObjectURL := fun f => String.append "blob:" (name f) |}.

(** The same collaborators with a backend that is over quota. *)
Definition quotaEnv : Env :=
  {| window_innerWidth := window_innerWidth okEnv;
     window_innerHeight := window_innerHeight okEnv;
     newImage := newImage okEnv;
     cropImage := cropImage okEnv;
     imageToDataUrl := imageToDataUrl okEnv;
     serviceDescribeImage := serviceDescribeImage okEnv;
     generateContent := fun _ => Throw (new_Error "RESOURCE_EXHAUSTED");
     JSON_flag := JSON_flag okEnv;
     serviceAnalyzeForOptimalSettings :=
       serviceAnalyzeForOptimalSettings okEnv;
     JSON_apiError := JSON_apiError okEnv;
     fetchInitialImage := fetchInitialImage okEnv;
     heic2any := heic2any okEnv;
     createObjectURL := createObjectURL okEnv |}.

(** A fresh session: the starter image is loaded. *)
Definition freshState : State := loadInitialImage okEnv initialState.

(** One enhancement of the scenario selection, committed. *)
Definition selected : State :=
  exec (handleSelection okEnv scenarioRect scenarioRect
          "data:image/png;base64,CANVAS" freshState) freshState.

Definition enhanced : State := exec (runEnhancementJob okEnv selected) selected.

Definition oneStep : State := handleEnhancementComplete okEnv enhanced.

(** A second enhancement on top of it, then one undo: the pointer is
    at step 1 of three. *)
Definition twoSteps : State :=
  let s1 := exec (handleSelection okEnv scenarioRect scenarioRect
                    "data:image/png;base64,CANVAS" oneStep) oneStep in
  let s2 := exec (runEnhancementJob okEnv s1) s1 in
  handleEnhancementComplete okEnv s2.

Definition undone : State := exec (handleUndo okEnv twoSteps) twoSteps.

(** The regeneration prompt typed by the user. *)
Definition retyped : State := setRegenPrompt "a copper lamp" undone.

End Scenario.

(** ** [ImageDisplay.tsx]: the fit of the image, selection and panning *)

Module Display.
Import Types JsNumber.
Local Open Scope Q_scope.

(** [canvas.getBoundingClientRect()], as far as the component reads it. *)
Record CanvasRect : Type :=
  mkCanvas { left : Q; top : Q; width : Q; height : Q }.

(** The result of [getCanvasScale]. *)
Record Fit : Type :=
  mkFit { scale : Q; offsetX : Q; offsetY : Q; dWidth : Q; dHeight : Q }.

(** The properties handed to the component. *)
Record Props : Type :=
  mkProps { isEnhancing : bool;
            historicalSelection : option Rect;
            useFixedSelectionBox : bool;
            fixedSelectionSizePercentage : Q }.

(** The state variables of the component. *)
Record State : Type :=
  mkState { image : option App.HTMLImageElement;
            selection : option Rect;
            startPoint : option (Q * Q);
            transform : ImageDisplay.Transform;
            isPanning : bool;
            panStart : Q * Q }.

Definition initialState : State :=
  {| image := None; selection := None; startPoint := None;
     transform := ImageDisplay.initialTransform;
     isPanning := false; panStart := (0, 0) |}.

(** The fields of a mouse event that the handlers read. *)
Record MouseEvent : Type :=
  mkMouse { clientX : Q; clientY : Q; button : Z }.

(** A call of the [onSelect] property. *)
Record Selected : Type :=
  mkSelected { sel_originalRect : Rect;
               sel_screenRect : Rect;
               sel_canvasDataUrl : string }.

(** [getCanvasScale]: [canvas] is [None] when [canvasRef.current] is
    null. *)
Definition getCanvasScale (canvas : option CanvasRect)
    (image : option App.HTMLImageElement) : Fit :=
  match canvas, image with
  | Some rect, Some img =>
      let canvasWidth := width rect in
      let canvasHeight := height rect in
      let canvasAspect := canvasWidth / canvasHeight in
      let imageAspect := App.naturalWidth img / App.naturalHeight img in
      let '(dWidth, dHeight) :=
        if Qltb imageAspect canvasAspect
        then (canvasHeight * imageAspect, canvasHeight)
        else (canvasWidth, canvasWidth / imageAspect) in
      let offsetX := (canvasWidth - dWidth) / 2 in
      let offsetY := (canvasHeight - dHeight) / 2 in
      let scale := dWidth / App.naturalWidth img in
      {| scale := scale; offsetX := offsetX; offsetY := offsetY;
         dWidth := dWidth; dHeight := dHeight |}
  | _, _ =>
      {| scale := 1; offsetX := 0; offsetY := 0; dWidth := 0; dHeight := 0 |}
  end.

(** [getTransformedMousePos] on an event: the position inside the
    canvas, with pan and zoom undone. *)
Definition mousePos (rect : CanvasRect) (e : MouseEvent)
    (t : ImageDisplay.Transform) : Q * Q :=
  ImageDisplay.getTransformedMousePos t
    (clientX e - left rect) (clientY e - top rect).

(** The rectangle of the image that a selection of the canvas covers
    ([originalRect] of [handleMouseUpSelection]). *)
Definition toOriginalRect (fit : Fit) (selection : Rect) : Rect :=
  {| x := (x selection - offsetX fit) / scale fit;
     y := (y selection - offsetY fit) / scale fit;
     w := w selection / scale fit;
     h := h selection / scale fit |}.

(** The rectangle of the canvas at which [draw] outlines a rectangle of
    the image ([screenRect], for [historicalSelection] and for the fixed
    box). *)
Definition toScreenRect (fit : Fit) (r : Rect) : Rect :=
  {| x := x r * scale fit + offsetX fit;
     y := y r * scale fit + offsetY fit;
     w := w r * scale fit;
     h := h r * scale fit |}.

(** [setStartPoint(null); setSelection(null)] *)
Definition released (s : State) : State :=
  {| image := image s; selection := None; startPoint := None;
     transform := transform s; isPanning := isPanning s;
     panStart := panStart s |}.

(** [handleMouseUpSelection]: the state and the [onSelect] call, if
    any.  [canvasDataUrl] is what [canvas.toDataURL('image/png')]
    returns at that moment. *)
Definition handleMouseUpSelection (props : Props)
    (canvas : option CanvasRect) (canvasDataUrl : string) (s : State)
    : State * option Selected :=
  if useFixedSelectionBox props then (s, None) else
  let cleared := released s in
  match selection s, image s with
  | Some sel, Some img =>
      if Qltb (w sel) 10 || Qltb (h sel) 10 || isEnhancing props
      then (cleared, None)
      else
        match canvas with
        | None => (s, None)
        | Some _ =>
            let fit := getCanvasScale canvas (image s) in
            let originalRect := toOriginalRect fit sel in
            (cleared,
             Some {| sel_originalRect := originalRect;
                     sel_screenRect := sel;
                     sel_canvasDataUrl := canvasDataUrl |})
        end
  | _, _ => (cleared, None)
  end.

(** The fixed-size box of [handleMouseDown], for a click at [pos]:
    [None] when the click is outside the drawn image. *)
Definition fixedBox (props : Props) (fit : Fit)
    (img : App.HTMLImageElement) (pos : Q * Q) : option Rect :=
  if Qltb (fst pos) (offsetX fit)
     || Qltb (offsetX fit + dWidth fit) (fst pos)
     || Qltb (snd pos) (offsetY fit)
     || Qltb (offsetY fit + dHeight fit) (snd pos)
  then None
  else
    let originalClickX := (fst pos - offsetX fit) / scale fit in
    let originalClickY := (snd pos - offsetY fit) / scale fit in
    let boxWidth := App.naturalWidth img * fixedSelectionSizePercentage props in
    let boxHeight :=
      App.naturalHeight img * fixedSelectionSizePercentage props in
    let originalX := originalClickX - boxWidth / 2 in
    let originalY := originalClickY - boxHeight / 2 in
    let originalX := if Qltb originalX 0 then 0 else originalX in
    let originalY := if Qltb originalY 0 then 0 else originalY in
    let originalX :=
      if Qltb (App.naturalWidth img) (originalX + boxWidth)
      then App.naturalWidth img - boxWidth else originalX in
    let originalY :=
      if Qltb (App.naturalHeight img) (originalY + boxHeight)
      then App.naturalHeight img - boxHeight else originalY in
    Some {| x := originalX; y := originalY; w := boxWidth; h := boxHeight |}.

(** [handleMouseDown].  The events come from the canvas element, whose
    rectangle is [rect]; [canvasDataUrl] is the data URL of the
    temporary canvas with the box drawn on it. *)
Definition handleMouseDown (props : Props) (rect : CanvasRect)
    (canvasDataUrl : string) (e : MouseEvent) (s : State)
    : State * option Selected :=
  if isEnhancing props then (s, None) else
  if (button e =? 1)%Z then
    ({| image := image s; selection := selection s;
        startPoint := startPoint s; transform := transform s;
        isPanning := true; panStart := (clientX e, clientY e) |}, None)
  else
    let pos := mousePos rect e (transform s) in
    if useFixedSelectionBox props then
      match image s with
      | None => (s, None)
      | Some img =>
          let fit := getCanvasScale (Some rect) (image s) in
          match fixedBox props fit img pos with
          | None => (s, None)
          | Some originalRect =>
              (s, Some {| sel_originalRect := originalRect;
                          sel_screenRect := toScreenRect fit originalRect;
                          sel_canvasDataUrl := canvasDataUrl |})
          end
      end
    else
      ({| image := image s;
          selection := Some {| x := fst pos; y := snd pos; w := 0; h := 0 |};
          startPoint := Some pos; transform := transform s;
          isPanning := isPanning s; panStart := panStart s |}, None).

(** [handleMouseMove] *)
Definition handleMouseMove (props : Props) (rect : CanvasRect)
    (e : MouseEvent) (s : State) : State :=
  if isPanning s then
    let dx := clientX e - fst (panStart s) in
    let dy := clientY e - snd (panStart s) in
    {| image := image s; selection := selection s;
       startPoint := startPoint s;
       transform :=
         {| ImageDisplay.x := ImageDisplay.x (transform s) + dx;
            ImageDisplay.y := ImageDisplay.y (transform s) + dy;
            ImageDisplay.scale := ImageDisplay.scale (transform s) |};
       isPanning := isPanning s; panStart := (clientX e, clientY e) |}
  else
    match startPoint s with
    | Some start =>
        if useFixedSelectionBox props || isEnhancing props then s
        else
          let pos := mousePos rect e (transform s) in
          let x := Qmin (fst pos) (fst start) in
          let y := Qmin (snd pos) (snd start) in
          let w := Qabs (fst pos - fst start) in
          let h := Qabs (snd pos - snd start) in
          {| image := image s;
             selection := Some {| x := x; y := y; w := w; h := h |};
             startPoint := startPoint s; transform := transform s;
             isPanning := isPanning s; panStart := panStart s |}
    | None => s
    end.

(** [handleMouseUp] *)
Definition handleMouseUp (props : Props) (rect : CanvasRect)
    (canvasDataUrl : string) (s : State) : State * option Selected :=
  if isPanning s then
    ({| image := image s; selection := selection s;
        startPoint := startPoint s; transform := transform s;
        isPanning := false; panStart := panStart s |}, None)
  else handleMouseUpSelection props (Some rect) canvasDataUrl s.

(** [handleMouseLeave]: the selection part runs in the closure of the
    last render, so it starts from [s] and its updates are applied after
    [setIsPanning(false)]. *)
Definition handleMouseLeave (props : Props) (rect : CanvasRect)
    (canvasDataUrl : string) (s : State) : State * option Selected :=
  let stopPan (t : State) : State :=
    if isPanning s then
      {| image := image t; selection := selection t;
         startPoint := startPoint t; transform := transform t;
         isPanning := false; panStart := panStart t |}
    else t in
  match startPoint s with
  | Some _ =>
      let '(s', call) :=
        handleMouseUpSelection props (Some rect) canvasDataUrl s in
      (stopPan s', call)
  | None => (stopPan s, None)
  end.

(** The [keydown] listener: Escape during a drag. *)
Definition handleKeyDown (key : string) (s : State) : State :=
  match startPoint s with
  | Some _ =>
      if String.eqb key "Escape" then released s else s
  | None => s
  end.

(** [img.onload] of the effect on [imageSrc]: the view is reset. *)
Definition handleImageLoad (img : App.HTMLImageElement) (s : State) : State :=
  {| image := Some img; selection := selection s;
     startPoint := startPoint s;
     transform := ImageDisplay.initialTransform;
     isPanning := isPanning s; panStart := panStart s |}.

(** [handleWheel] on the component state. *)
Definition handleWheel (props : Props) (rect : CanvasRect)
    (e : ImageDisplay.WheelEvent) (s : State) : State :=
  {| image := image s; selection := selection s;
     startPoint := startPoint s;
     transform :=
       ImageDisplay.handleWheel (isEnhancing props)
         (Some {| ImageDisplay.left := left rect;
                  ImageDisplay.top := top rect |})
         e (transform s);
     isPanning := isPanning s; panStart := panStart s |}.

(** The events of the canvas, and a run of the component over a list of
    them; the second component collects the [onSelect] calls. *)
Inductive Event : Type :=
| MouseDown (e : MouseEvent)
| MouseMove (e : MouseEvent)
| MouseUp
| MouseLeave
| Wheel (e : ImageDisplay.WheelEvent)
| KeyDown (key : string)
| ImageLoad (img : App.HTMLImageElement).

Definition step (props : Props) (rect : CanvasRect)
    (canvasDataUrl : string) (ev : Event) (s : State)
    : State * option Selected :=
  match ev with
  | MouseDown e => handleMouseDown props rect canvasDataUrl e s
  | MouseMove e => (handleMouseMove props rect e s, None)
  | MouseUp => handleMouseUp props rect canvasDataUrl s
  | MouseLeave => handleMouseLeave props rect canvasDataUrl s
  | Wheel e => (handleWheel props rect e s, None)
  | KeyDown key => (handleKeyDown key s, None)
  | ImageLoad img => (handleImageLoad img s, None)
  end.

Fixpoint run (props : Props) (rect : CanvasRect) (canvasDataUrl : string)
    (evs : list Event) (s : State) : State * list Selected :=
  match evs with
  | [] => (s, [])
  | ev :: rest =>
      let '(s', call) := step props rect canvasDataUrl ev s in
      let '(s'', calls) := run props rect canvasDataUrl rest s' in
      (s'', match call with Some c => c :: calls | None => calls end)
  end.

(** What every state of the component satisfies: the zoom scale is in
    its range, a selection exists exactly while a drag is in progress,
    and its sides are not negative. *)
Definition wellFormed (s : State) : Prop :=
  ImageDisplay.scaleInRange (transform s) /\
  (is_Some (selection s) <-> is_Some (startPoint s)) /\
  (forall sel, selection s = Some sel -> 0 <= w sel /\ 0 <= h sel).

(** The images a run loads have positive natural sizes. *)
Definition loadsPositive (ev : Event) : Prop :=
  match ev with
  | ImageLoad img => 0 < App.naturalWidth img /\ 0 < App.naturalHeight img
  | _ => True
  end.

(** A call of [onSelect] that carries a usable selection: at least 10
    pixels on the screen, of positive size in the image. *)
Definition usable (c : Selected) : Prop :=
  10 <= w (sel_screenRect c) /\ 10 <= h (sel_screenRect c) /\
  0 < w (sel_originalRect c) /\ 0 < h (sel_originalRect c).

(** A point of the image, as [draw] places it on the canvas when it
    outlines a rectangle of the image: the fit ([scale], [offsetX],
    [offsetY]), then pan and zoom. *)
Definition imageToScreen (fit : Fit) (t : ImageDisplay.Transform)
    (p : Q * Q) : Q * Q :=
  ImageDisplay.drawnAt t
    (fst p * scale fit + offsetX fit, snd p * scale fit + offsetY fit).

(** A point of the screen, as the handlers read it back: pan and zoom
    undone, then the fit. *)
Definition screenToImage (fit : Fit) (t : ImageDisplay.Transform)
    (c : Q * Q) : Q * Q :=
  let pos := ImageDisplay.getTransformedMousePos t (fst c) (snd c) in
  ((fst pos - offsetX fit) / scale fit, (snd pos - offsetY fit) / scale fit).

End Display.

(** ** The bound of the history pointer *)

Module Pointer.
Import Types App.
Local Open Scope Z_scope.

(** The pointer is [-1] on the empty history and otherwise between 0
    and the length, the length included. *)
Definition pointerInside (s : State) : Prop :=
  (history s = [] /\ historyIndex s = -1) \/
  (history s <> [] /\ 0 <= historyIndex s <= JsArray.len (history s)).

End Pointer.

(** ** Vocabulary for the data URLs and replies of [serviceEnhance] *)

Module Reply.
Import ServiceEnhance.

(** The image a part contributes to the loop of [serviceEnhance]: the
    [else if (part.inlineData)] branch is reached only when [part.text]
    is missing or empty. *)
Definition imageOf (part : Part) : option InlineData :=
  match part_text part with
  | Some t => if truthy t then None else part_inlineData part
  | None => part_inlineData part
  end.

(** A text part whose JSON parses and carries a truthy
    [foundTheBanana]. *)
Definition flagged (JSON_flag : string -> option bool) (part : Part) : bool :=
  match part_text part with
  | Some t =>
      truthy t && match JSON_flag t with Some true => true | _ => false end
  | None => false
  end.

(** A string without a comma. *)
Definition commaFree (s : string) : bool :=
  forallb (fun c => negb (Ascii.eqb c ","%char)) (list_ascii_of_string s).

End Reply.

(** * Properties *)

(** ** Padding and inverse crop *)

Module PaddingProps.
Import Types JsNumber Padding Scenario.
Local Open Scope Q_scope.

(** [Math.max] and [Math.min] by cases, in the form [lra] consumes. *)
Lemma Qmax_cases (a b : Q) :
  (a <= b /\ Qmax a b == b) \/ (b <= a /\ Qmax a b == a).
Proof.
  destruct (Q.max_spec a b) as [[Hlt Heq] | [Hle Heq]].
  - left. split; [apply Qlt_le_weak; exact Hlt | exact Heq].
  - right. split; [exact Hle | exact Heq].
Qed.

Lemma Qmin_cases (a b : Q) :
  (a <= b /\ Qmin a b == a) \/ (b <= a /\ Qmin a b == b).
Proof.
  destruct (Q.min_spec a b) as [[Hlt Heq] | [Hle Heq]].
  - left. split; [apply Qlt_le_weak; exact Hlt | exact Heq].
  - right. split; [exact Hle | exact Heq].
Qed.

Ltac minmax_cases :=
  repeat match goal with
  | |- context [Qmax ?a ?b] =>
      let m := fresh "m" in
      let Hm := fresh "Hm" in
      destruct (Qmax_cases a b) as [Hm | Hm];
      destruct Hm as [? Hm]; revert Hm;
      generalize (Qmax a b); intros m Hm
  | |- context [Qmin ?a ?b] =>
      let m := fresh "m" in
      let Hm := fresh "Hm" in
      destruct (Qmin_cases a b) as [Hm | Hm];
      destruct Hm as [? Hm]; revert Hm;
      generalize (Qmin a b); intros m Hm
  end.

(** C3, as the code computes it. For the selection
    [{x:10, y:10, w:100, h:100}] on a 500x500 image the padded
    rectangle (factor 0.5) is [{0, 0, 160, 160}]: the low edge is
    clamped from -40 to 0 while the high edge stays at -40 + 200 = 160.
    For an enhanced result of 1024x1024 pixels the crop rectangle is
    [{64, 64, 640, 640}]. *)
Theorem scenario_padded_and_crop :
  Rect_eq (paddedRect 500 500 scenarioRect)
          {| x := 0; y := 0; w := 160; h := 160 |} /\
  Rect_eq (finalCropRect scenarioRect (paddedRect 500 500 scenarioRect)
             1024 1024)
          {| x := 64; y := 64; w := 640; h := 640 |}.
Proof.
  split; repeat split; vm_compute; reflexivity.
Qed.

(** C3, as stated, fails: the padded rectangle of the scenario is not
    [{0, 0, 200, 200}], and the crop rectangle is not
    [{51.2, 51.2, 512, 512}]. *)
Lemma scenario_not_200 :
  ~ Rect_eq (paddedRect 500 500 scenarioRect)
            {| x := 0; y := 0; w := 200; h := 200 |} /\
  ~ Rect_eq (finalCropRect scenarioRect (paddedRect 500 500 scenarioRect)
               1024 1024)
            {| x := 512 # 10; y := 512 # 10; w := 512; h := 512 |}.
Proof.
  split; intros (_ & _ & Hw & _); vm_compute in Hw; discriminate Hw.
Qed.

(** The inverse-crop formula of the scenario is right for the padded
    rectangle the specification assumed; only that rectangle is not
    the one the padding produces. *)
Lemma scenario_crop_of_assumed_rect :
  Rect_eq (finalCropRect scenarioRect
             {| x := 0; y := 0; w := 200; h := 200 |} 1024 1024)
          {| x := 512 # 10; y := 512 # 10; w := 512; h := 512 |}.
Proof. repeat split; vm_compute; reflexivity. Qed.

(** The padded rectangle stays inside the image. *)
Lemma paddedRectWith_within (p W H : Q) (r : Rect) :
  0 <= p -> within W H r -> within W H (paddedRectWith p W H r).
Proof.
  intros Hp (Hx & Hy & Hw & Hh & HxW & HyH).
  assert (Hwp : 0 <= w r * p) by (apply Qmult_le_0_compat; assumption).
  assert (Hhp : 0 <= h r * p) by (apply Qmult_le_0_compat; assumption).
  unfold within, paddedRectWith; cbn [x y w h].
  assert (Ew : w r * (1 + 2 * p) == w r + 2 * (w r * p)) by ring.
  assert (Eh : h r * (1 + 2 * p) == h r + 2 * (h r * p)) by ring.
  revert Ew Eh Hwp Hhp.
  generalize (w r * (1 + 2 * p)) (h r * (1 + 2 * p)) (w r * p) (h r * p).
  intros pw ph wp hp Ew Eh Hwp Hhp.
  minmax_cases; repeat split; lra.
Qed.

(** With room for the full padding nothing is clamped. *)
Lemma paddedRectWith_interior (p W H : Q) (r : Rect) :
  0 <= x r - w r * p -> x r + w r + w r * p <= W ->
  0 <= y r - h r * p -> y r + h r + h r * p <= H ->
  Rect_eq (paddedRectWith p W H r)
          {| x := x r - w r * p; y := y r - h r * p;
             w := w r * (1 + 2 * p); h := h r * (1 + 2 * p) |}.
Proof.
  intros Hx0 HxW Hy0 HyH.
  unfold Rect_eq, paddedRectWith; cbn [x y w h].
  assert (Ew : w r * (1 + 2 * p) == w r + 2 * (w r * p)) by ring.
  assert (Eh : h r * (1 + 2 * p) == h r + 2 * (h r * p)) by ring.
  revert Ew Eh Hx0 HxW Hy0 HyH.
  generalize (w r * (1 + 2 * p)) (h r * (1 + 2 * p)) (w r * p) (h r * p).
  intros pw ph wp hp Ew Eh Hx0 HxW Hy0 HyH.
  minmax_cases; repeat split; lra.
Qed.

(** C7. For a selection within [[0,W] x [0,H]] the padded rectangle
    lies within [[0,W] x [0,H]] and has non-negative width and height,
    for every padding factor [p >= 0] (the code uses 0.5); when the
    selection has room for the full padding on all four sides, the
    area of the padded rectangle is [(1+2p)^2] times the area of the
    selection. *)
Theorem padRect_within_and_area (p W H : Q) (r : Rect) :
  0 <= p -> within W H r ->
  within W H (paddedRectWith p W H r) /\
  (0 <= x r - w r * p -> x r + w r + w r * p <= W ->
   0 <= y r - h r * p -> y r + h r + h r * p <= H ->
   area (paddedRectWith p W H r) == (1 + 2 * p) ^ 2 * area r).
Proof.
  intros Hp Hin. split.
  - apply paddedRectWith_within; assumption.
  - intros Hx0 HxW Hy0 HyH.
    destruct (paddedRectWith_interior p W H r Hx0 HxW Hy0 HyH)
      as (_ & _ & Ew & Eh).
    unfold area. rewrite Ew, Eh. cbn [w h]. ring.
Qed.

Lemma padRect_within_and_area_witness :
  let r := {| x := 100; y := 120; w := 40; h := 60 |} in
  within 500 400 (paddedRect 500 400 r) /\
  area (paddedRect 500 400 r) == (1 + 2 * padding) ^ 2 * area r.
Proof.
  intros r.
  assert (Hp : 0 <= padding) by (vm_compute; discriminate).
  assert (Hin : within 500 400 r)
    by (repeat split; vm_compute; discriminate).
  destruct (padRect_within_and_area padding 500 400 r Hp Hin) as [H1 H2].
  split; [exact H1 |].
  apply H2; vm_compute; discriminate.
Defined.

(** A rectangle that contains a selection of positive size has
    positive size. *)
Lemma contains_positive (outer inner : Rect) :
  contains outer inner -> 0 < w inner -> 0 < h inner ->
  0 < w outer /\ 0 < h outer.
Proof.
  intros (Hx & Hy & Hx2 & Hy2) Hw Hh. split; lra.
Qed.

(** C4. For a selection of positive width and height (inside the image
    or not) and a padded rectangle that contains it, when the decoded
    result has exactly the requested dimensions [targetWidth] x
    [targetHeight], the crop rectangle is where the resize puts the
    selection, and read back through the resize it covers exactly the
    selection.  (The requested height is [Math.round] of a ratio; the
    decoded result has positive height.) *)
Theorem inverseMap_roundtrip (originalRect paddedRect : Rect)
    (naturalWidth naturalHeight : Q) :
  0 < w originalRect -> 0 < h originalRect ->
  contains paddedRect originalRect ->
  naturalWidth == targetWidth ->
  naturalHeight == targetHeight paddedRect ->
  0 < naturalHeight ->
  let crop :=
    finalCropRect originalRect paddedRect naturalWidth naturalHeight in
  Rect_eq crop
    (resized paddedRect targetWidth (targetHeight paddedRect) originalRect)
  /\
  Rect_eq
    (footprint paddedRect targetWidth (targetHeight paddedRect) crop)
    originalRect.
Proof.
  intros Hw Hh Hc Hnw Hnh Hpos crop.
  destruct (contains_positive _ _ Hc Hw Hh) as [Hpw Hph].
  assert (Hth : 0 < targetHeight paddedRect) by (rewrite <- Hnh; exact Hpos).
  assert (Htw : 0 < targetWidth) by (vm_compute; reflexivity).
  subst crop. unfold Rect_eq, finalCropRect, resized, footprint.
  cbn [x y w h]. rewrite Hnw, Hnh.
  revert Hth Htw.
  generalize (targetHeight paddedRect) targetWidth. intros th tw Hth Htw.
  assert (~ w paddedRect == 0) by lra.
  assert (~ h paddedRect == 0) by lra.
  assert (~ th == 0) by lra.
  assert (~ tw == 0) by lra.
  repeat split; field; auto.
Qed.

Lemma inverseMap_roundtrip_witness :
  let o := {| x := 100; y := 120; w := 40; h := 60 |} in
  let p := paddedRect 500 400 o in
  let crop := finalCropRect o p 1024 1536 in
  Rect_eq crop (resized p targetWidth (targetHeight p) o) /\
  Rect_eq (footprint p targetWidth (targetHeight p) crop) o.
Proof.
  intros o p crop.
  apply (inverseMap_roundtrip o p 1024 1536).
  - vm_compute; reflexivity.
  - vm_compute; reflexivity.
  - repeat split; vm_compute; discriminate.
  - vm_compute; reflexivity.
  - vm_compute; reflexivity.
  - vm_compute; reflexivity.
Defined.

End PaddingProps.

(** ** Zooming about the cursor *)

Module ImageDisplayProps.
Import JsNumber ImageDisplay.
Local Open Scope Q_scope.

Lemma clamp_in_range (val lo hi : Q) :
  lo <= hi -> lo <= clamp val lo hi /\ clamp val lo hi <= hi.
Proof.
  intros Hle. unfold clamp.
  destruct (Q.max_spec lo (Qmin val hi)) as [[H1 E1] | [H1 E1]];
    destruct (Q.min_spec val hi) as [[H2 E2] | [H2 E2]];
    rewrite E1; try rewrite E2; split; lra.
Qed.

(** The point under the cursor is drawn at the cursor. *)
Lemma drawnAt_transformed (t : Transform) (canvasX canvasY : Q) :
  ~ scale t == 0 ->
  point_eq (drawnAt t (getTransformedMousePos t canvasX canvasY))
           (canvasX, canvasY).
Proof.
  intros Hs. unfold point_eq, drawnAt, getTransformedMousePos.
  cbn [fst snd]. split; field; exact Hs.
Qed.

(** C6. For a transform whose scale is in the permitted range and any
    cursor position, one wheel step keeps the point under the cursor
    where it was: the image point drawn at the cursor before the step
    is drawn at the cursor after it, also when the new scale is
    clamped; the new scale is again in range. *)
Theorem handleWheel_pivot_invariant (isEnhancing : bool)
    (rect : DOMRect) (e : WheelEvent) (transform : Transform) :
  scaleInRange transform ->
  let mouseX := clientX e - left rect in
  let mouseY := clientY e - top rect in
  let pivot := getTransformedMousePos transform mouseX mouseY in
  let transform' := handleWheel isEnhancing (Some rect) e transform in
  point_eq (drawnAt transform pivot) (mouseX, mouseY) /\
  point_eq (drawnAt transform' pivot) (mouseX, mouseY) /\
  scaleInRange transform'.
Proof.
  intros [Hlo Hhi] mouseX mouseY pivot transform'.
  assert (Hs : ~ scale transform == 0) by lra.
  split; [apply drawnAt_transformed; exact Hs |].
  subst transform'. unfold handleWheel.
  destruct isEnhancing.
  - split; [apply drawnAt_transformed; exact Hs | split; assumption].
  - fold mouseX mouseY.
    set (newScale := if Qltb (deltaY e) 0 then _ else _).
    split.
    + subst pivot. unfold point_eq, drawnAt, getTransformedMousePos.
      cbn [fst snd x y scale].
      generalize (clamp newScale (1 # 4) 20). intros c.
      split; field; exact Hs.
    + unfold scaleInRange. cbn [scale].
      apply clamp_in_range. lra.
Qed.

Lemma handleWheel_pivot_invariant_witness :
  let t := {| x := 30; y := -20; scale := 20 |} in
  let e := {| clientX := 400; clientY := 300; deltaY := -100 |} in
  let rect := {| left := 8; top := 16 |} in
  let pivot := getTransformedMousePos t (400 - 8) (300 - 16) in
  point_eq (drawnAt (handleWheel false (Some rect) e t) pivot)
           (400 - 8, 300 - 16) /\
  scale (handleWheel false (Some rect) e t) == 20.
Proof.
  intros t e rect pivot.
  assert (Hr : scaleInRange t) by (split; vm_compute; discriminate).
  destruct (handleWheel_pivot_invariant false rect e t Hr) as (_ & H2 & _).
  split; [exact H2 | vm_compute; reflexivity].
Defined.

End ImageDisplayProps.

(** ** Arrays *)

Module JsArrayProps.
Import JsArray.
Local Open Scope Z_scope.

Section Slices.
Context {A : Type}.
Implicit Types (l : list A) (i e : Z).

(** [l.slice(0, e)] for [e >= 0] is the prefix of [e] elements. *)
Lemma slice_prefix l e : 0 <= e -> slice l 0 e = take (Z.to_nat e) l.
Proof.
  intros He. unfold slice, relIndex. cbv zeta.
  replace (0 <? 0) with false by reflexivity.
  destruct (Z.ltb_spec e 0) as [Hneg | _]; [lia |].
  rewrite (Z.min_l 0) by lia. rewrite Z.sub_0_r.
  change (drop (Z.to_nat 0) l) with l.
  destruct (Z.le_gt_cases e (Z.of_nat (length l))) as [Hle | Hgt].
  - rewrite Z.min_l by lia. reflexivity.
  - rewrite Z.min_r by lia. rewrite !take_ge by lia. reflexivity.
Qed.

Lemma len_app l k : len (l ++ k) = len l + len k.
Proof. unfold len. rewrite length_app. lia. Qed.

Lemma len_take l e : 0 <= e <= len l -> len (take (Z.to_nat e) l) = e.
Proof. unfold len. intros He. rewrite length_take. lia. Qed.

(** Reading inside a prefix reads the list. *)
Lemma get_take l e i :
  0 <= i < e -> get (take (Z.to_nat e) l) i = get l i.
Proof.
  intros Hi. unfold get.
  destruct (Z.ltb_spec i 0) as [Hneg | _]; [lia |].
  apply lookup_take_lt. lia.
Qed.

Lemma get_app_l l k i : i < len l -> get (l ++ k) i = get l i.
Proof.
  unfold get, len. intros Hi.
  destruct (Z.ltb_spec i 0) as [Hneg | Hpos]; [reflexivity |].
  apply lookup_app_l. lia.
Qed.

Lemma get_snoc l (a : A) : get (l ++ [a]) (len l) = Some a.
Proof.
  unfold get, len.
  destruct (Z.ltb_spec (Z.of_nat (length l)) 0) as [Hneg | _]; [lia |].
  rewrite Nat2Z.id. apply list_lookup_middle. reflexivity.
Qed.

Lemma get_beyond l i : len l <= i -> get l i = None.
Proof.
  unfold get, len. intros Hi.
  destruct (Z.ltb_spec i 0) as [Hneg | _]; [reflexivity |].
  apply lookup_ge_None_2. lia.
Qed.

Lemma get_in_range l i : 0 <= i < len l -> is_Some (get l i).
Proof.
  unfold get, len. intros Hi.
  destruct (Z.ltb_spec i 0) as [Hneg | _]; [lia |].
  apply lookup_lt_is_Some_2. lia.
Qed.

End Slices.

End JsArrayProps.

(** ** The history *)

Module HistoryProps.
Import Types Promise JsArray JsArrayProps App Scenario.
Local Open Scope Z_scope.

(** Unfolding of the asynchronous combinators, and case analysis on
    the next result a handler inspects. *)
Ltac async_unfold :=
  unfold exec, tryFinally, tryCatch, bind, update, await, ret in *.

Ltac async_case :=
  match goal with
  | |- context [match ?scrutinee with _ => _ end] =>
      lazymatch scrutinee with
      | context [match _ with _ => _ end] => fail
      | _ => let E := fresh "E" in destruct scrutinee eqn:E
      end
  | |- context [if ?scrutinee then _ else _] =>
      lazymatch scrutinee with
      | context [match _ with _ => _ end] => fail
      | context [if _ then _ else _] => fail
      | _ => let E := fresh "E" in destruct scrutinee eqn:E
      end
  end.



(** Regeneration, whatever its outcome, keeps the pointer and the
    steps before it; if it changes the list at all, the new list is
    the steps before the pointer followed by one new step. *)
Lemma regenerate_frame (env : Env) (s : State) :
  0 < historyIndex s < len (history s) ->
  let s' := exec (handleRegenWithPrompt env s) s in
  historyIndex s' = historyIndex s /\
  (history s' = history s \/
   exists newStep,
     history s'
       = take (Z.to_nat (historyIndex s)) (history s) ++ [newStep] /\
     (prompt <$> description newStep) = Some (regenPrompt s) /\
     Some (originalRect newStep)
       = (originalRect <$> get (history s) (historyIndex s))).
Proof.
  intros Hidx s'. subst s'.
  unfold handleRegenWithPrompt, handleRegenWithPrompt_try.
  async_unfold.
  repeat (async_case; cbn [fst snd]);
    cbn; (split; [reflexivity |]);
    try (left; reflexivity).
  all: right; eexists;
    (split; [rewrite slice_prefix by lia; reflexivity |]);
    (split; [reflexivity |]); cbn [originalRect];
    repeat match goal with
           | H : _ = Some _ |- _ => rewrite H; cbn [fmap option_fmap option_map]
           end;
    reflexivity.
Qed.

(** C1, as the code does it. Regeneration at a pointer [i > 0] keeps
    the pointer and every step before [i]; when it commits, the new
    step takes position [i] and is the last one: the list becomes the
    steps before [i] followed by the new step, so the steps after [i]
    are discarded (length [i + 1]). *)
Theorem regenerate_replaces_and_truncates (env : Env) (s : State) :
  0 < historyIndex s < len (history s) ->
  let i := historyIndex s in
  let s' := exec (handleRegenWithPrompt env s) s in
  historyIndex s' = i /\
  (forall j, 0 <= j < i -> get (history s') j = get (history s) j) /\
  (history s' <> history s ->
   exists newStep,
     history s' = take (Z.to_nat i) (history s) ++ [newStep] /\
     get (history s') i = Some newStep /\
     (prompt <$> description newStep) = Some (regenPrompt s) /\
     Some (originalRect newStep) = (originalRect <$> get (history s) i) /\
     len (history s') = i + 1 /\
     (forall j, i < j -> get (history s') j = None)).
Proof.
  intros Hidx i s'.
  destruct (regenerate_frame env s Hidx) as [Hptr Hhist].
  fold s' in Hptr, Hhist. fold i in Hhist.
  assert (Hlen : len (take (Z.to_nat i) (history s)) = i)
    by (apply len_take; subst i; lia).
  split; [exact Hptr | split].
  - intros j Hj. destruct Hhist as [Hsame | (newStep & Hnew & _)].
    + rewrite Hsame. reflexivity.
    + rewrite Hnew, get_app_l by lia. apply get_take. lia.
  - intros Hchanged.
    destruct Hhist as [Hsame | (newStep & Hnew & Hprompt & Hrect)];
      [contradiction |].
    assert (Hlen' : len (history s') = i + 1).
    { rewrite Hnew, len_app, Hlen. reflexivity. }
    exists newStep. repeat split; try assumption.
    + rewrite Hnew. rewrite <- Hlen at 2. apply get_snoc.
    + intros j Hj. apply get_beyond. lia.
Qed.

Lemma regenerate_replaces_and_truncates_witness :
  let s' := exec (handleRegenWithPrompt okEnv retyped) retyped in
  len (history retyped) = 3 /\ historyIndex retyped = 1 /\
  historyIndex s' = 1 /\ len (history s') = 2.
Proof.
  intros s'.
  assert (Hidx : 0 < historyIndex retyped < len (history retyped))
    by (vm_compute; split; reflexivity).
  destruct (regenerate_replaces_and_truncates okEnv retyped Hidx)
    as (Hptr & _ & Hcommit).
  destruct Hcommit as (newStep & _ & _ & _ & _ & Hlen & _).
  - vm_compute. discriminate.
  - split; [reflexivity | split; [reflexivity |]].
    split; [exact Hptr | exact Hlen].
Defined.

(** C1, as stated, fails: regenerating step 1 of a three-step
    history removes step 2. *)
Lemma regenerate_drops_later_steps :
  let s' := exec (handleRegenWithPrompt okEnv retyped) retyped in
  historyIndex retyped = 1 /\
  is_Some (get (history retyped) 2) /\
  get (history s') 2 = None /\
  ~ (forall j, historyIndex retyped < j ->
       get (history s') j = get (history retyped) j).
Proof.
  intros s'. split; [reflexivity |].
  split; [eexists; vm_compute; reflexivity |].
  split; [vm_compute; reflexivity |].
  intros Hall. specialize (Hall 2 ltac:(vm_compute; reflexivity)).
  vm_compute in Hall. discriminate Hall.
Qed.

(** *** The pointer invariant *)

Lemma pointerValid_intro (s : State) :
  (history s = [] /\ historyIndex s = -1) \/
  0 <= historyIndex s < len (history s) ->
  pointerValid s.
Proof.
  intros [Hempty | Hrange]; [left; exact Hempty | right].
  split; [| exact Hrange].
  intros Hnil. rewrite Hnil in Hrange. unfold len in Hrange.
  cbn in Hrange. lia.
Qed.

Lemma pointerValid_elim (s : State) :
  pointerValid s ->
  (history s = [] /\ historyIndex s = -1) \/
  0 <= historyIndex s < len (history s).
Proof. intros [H | [_ H]]; [left | right]; exact H. Qed.

Lemma pointerValid_same (s s' : State) :
  history s' = history s -> historyIndex s' = historyIndex s ->
  pointerValid s -> pointerValid s'.
Proof. unfold pointerValid. intros -> ->. exact id. Qed.

Lemma pointerValidb_spec (s : State) :
  pointerValidb s = true <-> pointerValid s.
Proof.
  unfold pointerValidb, pointerValid.
  destruct (history s) as [| step rest] eqn:E.
  - rewrite Z.eqb_eq. split.
    + intros Hi. left. split; [reflexivity | exact Hi].
    + intros [[_ Hi] | [Hne _]]; [exact Hi | contradiction].
  - rewrite andb_true_iff, Z.leb_le, Z.ltb_lt. split.
    + intros Hi. right. split; [discriminate | exact Hi].
    + intros [[Hnil _] | [_ Hi]]; [discriminate | exact Hi].
Qed.

(** Loading an image gives a one-step history with the pointer on it,
    or leaves the history alone. *)
Lemma loadInitialImage_pointerValid (env : Env) (s : State) :
  pointerValid s -> pointerValid (loadInitialImage env s).
Proof.
  intros Hs. unfold loadInitialImage.
  destruct (fetchInitialImage env) as [url | e].
  - destruct (newImage env url).
    + apply pointerValid_intro. right. cbn. unfold len. cbn. lia.
    + exact (pointerValid_same s _ eq_refl eq_refl Hs).
  - exact (pointerValid_same s _ eq_refl eq_refl Hs).
Qed.

Lemma resetState_pointerValid (env : Env) (s : State) :
  pointerValid (resetState env s).
Proof.
  unfold resetState. apply loadInitialImage_pointerValid.
  left. split; reflexivity.
Qed.

Lemma handleFileDrop_pointerValid (env : Env) (file : File) (s : State) :
  pointerValid s -> pointerValid (exec (handleFileDrop env file s) s).
Proof.
  intros Hs. unfold handleFileDrop. async_unfold.
  repeat (async_case; cbn [fst snd]);
    first [ exact (pointerValid_same s _ eq_refl eq_refl Hs)
          | apply pointerValid_intro; right; cbn; unfold len; cbn; lia ].
Qed.

(** A new selection away from the tail cuts the redo steps. *)
Lemma handleSelection_history (env : Env) (o sc : Rect) (url : string)
    (s : State) :
  -1 <= historyIndex s ->
  let s' := exec (handleSelection env o sc url s) s in
  historyIndex s' = historyIndex s /\
  (history s' = history s \/
   (historyIndex s < len (history s) - 1 /\
    history s' = take (Z.to_nat (historyIndex s + 1)) (history s))).
Proof.
  intros Hidx s'. subst s'. unfold handleSelection. async_unfold.
  destruct (image s) as [img |]; [| split; [reflexivity | left; reflexivity]].
  destruct (Z.ltb_spec (historyIndex s) (len (history s) - 1)) as [Hlt | Hge].
  - split.
    + repeat (async_case; cbn [fst snd]); reflexivity.
    + right. split; [exact Hlt |].
      rewrite <- slice_prefix by lia.
      repeat (async_case; cbn [fst snd]); reflexivity.
  - split; [| left]; repeat (async_case; cbn [fst snd]); reflexivity.
Qed.

Lemma handleSelection_pointerValid (env : Env) (o sc : Rect) (url : string)
    (s : State) :
  pointerValid s -> pointerValid (exec (handleSelection env o sc url s) s).
Proof.
  intros Hs.
  assert (Hlow : -1 <= historyIndex s)
    by (destruct (pointerValid_elim s Hs) as [[_ ->] | H]; lia).
  destruct (handleSelection_history env o sc url s Hlow) as [Hi Hh].
  destruct Hh as [Hsame | [Hlt Hcut]].
  - exact (pointerValid_same s _ Hsame Hi Hs).
  - apply pointerValid_intro. right. rewrite Hi, Hcut.
    destruct (pointerValid_elim s Hs) as [[Hnil Hm] | Hrange].
    + rewrite Hnil, Hm in Hlt. unfold len in Hlt. cbn in Hlt. lia.
    + rewrite len_take by lia. lia.
Qed.

(** Committing a selection enhancement keeps the pointer valid. *)
Lemma handleEnhancementComplete_pointerValid (env : Env) (s : State) :
  pointerValid s -> pointerValid (handleEnhancementComplete env s).
Proof.
  intros Hs.
  assert (Hlow : -1 <= historyIndex s <= len (history s) - 1).
  { destruct (pointerValid_elim s Hs) as [[Hnil ->] | H];
      [rewrite Hnil; unfold len; cbn |]; lia. }
  unfold handleEnhancementComplete.
  destruct (enhancedImageSrc s) as [url |]; [| exact Hs].
  destruct (newHistoryEntryData s) as [[d r] |]; [| exact Hs].
  destruct (ServiceEnhance.truthy url); [| exact Hs].
  rewrite slice_prefix by lia.
  assert (Hlen : len (take (Z.to_nat (historyIndex s + 1)) (history s))
                 = historyIndex s + 1) by (apply len_take; lia).
  destruct (newImage env url); apply pointerValid_intro; right; cbn;
    rewrite len_app, Hlen; unfold len; cbn; lia.
Qed.

Lemma handleRegenWithPrompt_pointerValid (env : Env) (s : State) :
  pointerValid s -> pointerValid (exec (handleRegenWithPrompt env s) s).
Proof.
  intros Hs.
  destruct (Z.le_gt_cases (historyIndex s) 0) as [Hle | Hgt].
  - unfold handleRegenWithPrompt.
    destruct (Z.leb_spec (historyIndex s) 0) as [_ | Hlt]; [| lia].
    exact Hs.
  - assert (Hidx : 0 < historyIndex s < len (history s))
      by (destruct (pointerValid_elim s Hs) as [[_ Hm] | H]; lia).
    destruct (regenerate_frame env s Hidx) as [Hi [Hsame | Hnew]].
    + exact (pointerValid_same s _ Hsame Hi Hs).
    + destruct Hnew as (newStep & Hnew & _).
      apply pointerValid_intro. right.
      rewrite Hi, Hnew, len_app, len_take by lia. unfold len. cbn. lia.
Qed.

(** Undo and redo move the pointer by one inside the list and never
    touch the list. *)
Lemma handleUndo_history (env : Env) (s : State) :
  let s' := exec (handleUndo env s) s in
  history s' = history s /\
  (historyIndex s' = historyIndex s \/
   (0 < historyIndex s /\ historyIndex s' = historyIndex s - 1)).
Proof.
  intros s'. subst s'. unfold handleUndo. async_unfold.
  destruct (Z.leb_spec (historyIndex s) 0) as [Hle | Hgt];
    [split; [reflexivity | left; reflexivity] |].
  repeat (async_case; cbn [fst snd orb]);
    (split; [reflexivity |]); first [left; reflexivity | right; split; [lia | reflexivity]].
Qed.

Lemma handleRedo_history (env : Env) (s : State) :
  let s' := exec (handleRedo env s) s in
  history s' = history s /\
  (historyIndex s' = historyIndex s \/
   (historyIndex s < len (history s) - 1 /\
    historyIndex s' = historyIndex s + 1)).
Proof.
  intros s'. subst s'. unfold handleRedo. async_unfold.
  destruct (Z.geb_spec (historyIndex s) (len (history s) - 1)) as [Hge | Hlt];
    [split; [reflexivity | left; reflexivity] |].
  repeat (async_case; cbn [fst snd orb]);
    (split; [reflexivity |]); first [left; reflexivity | right; split; [lia | reflexivity]].
Qed.

Lemma handleUndo_pointerValid (env : Env) (s : State) :
  pointerValid s -> pointerValid (exec (handleUndo env s) s).
Proof.
  intros Hs. destruct (handleUndo_history env s) as [Hh [Hi | [Hpos Hi]]].
  - exact (pointerValid_same s _ Hh Hi Hs).
  - apply pointerValid_intro. right. rewrite Hh, Hi.
    destruct (pointerValid_elim s Hs) as [[_ Hm] | H]; lia.
Qed.

Lemma handleRedo_pointerValid (env : Env) (s : State) :
  pointerValid s -> pointerValid (exec (handleRedo env s) s).
Proof.
  intros Hs. destruct (handleRedo_history env s) as [Hh [Hi | [Hlt Hi]]].
  - exact (pointerValid_same s _ Hh Hi Hs).
  - apply pointerValid_intro. right. rewrite Hh, Hi.
    destruct (pointerValid_elim s Hs) as [[Hnil Hm] | H]; [| lia].
    rewrite Hnil, Hm in Hlt. unfold len in Hlt. cbn in Hlt. lia.
Qed.

(** *** The full-image path *)

(** Whatever the collaborators answer, a full-image enhancement either
    leaves list and pointer alone or appends its step and sets the
    pointer to the new length. *)
Lemma handleAutoEnhance_history (env : Env) (s : State) :
  -1 <= historyIndex s ->
  let s' := exec (handleAutoEnhance env s) s in
  (history s' = history s /\ historyIndex s' = historyIndex s) \/
  (exists newStep,
     history s'
       = take (Z.to_nat (historyIndex s + 1)) (history s) ++ [newStep]) /\
  historyIndex s' = len (history s').
Proof.
  intros Hlow s'. subst s'.
  unfold handleAutoEnhance, runFullImageEnhancement,
    runFullImageEnhancement_try.
  async_unfold.
  repeat (async_case; cbn [fst snd]);
    cbn; try (left; split; reflexivity).
  all: right; split;
    [eexists; rewrite slice_prefix by lia; reflexivity | reflexivity].
Qed.

(** Every full-image enhancement that commits a step breaks the
    invariant, whatever the state it started from. *)
Lemma handleAutoEnhance_commit_breaks_pointer (env : Env) (s : State) :
  -1 <= historyIndex s ->
  let s' := exec (handleAutoEnhance env s) s in
  history s' <> history s -> ~ pointerValid s'.
Proof.
  intros Hlow s' Hchanged Hvalid.
  destruct (handleAutoEnhance_history env s Hlow)
    as [[Hsame _] | [[newStep Hnew] Hptr]]; [contradiction |].
  fold s' in Hnew, Hptr.
  destruct (pointerValid_elim s' Hvalid) as [[Hnil _] | Hrange]; [| lia].
  rewrite Hnew in Hnil. apply app_eq_nil in Hnil.
  destruct Hnil as [_ Hnil]. discriminate Hnil.
Qed.

(** C2 at the failing input. In a fresh session (one step, pointer 0,
    invariant holding) a full-image enhancement that succeeds leaves a
    two-step history with the pointer at 2: the pointer equals the
    length and the invariant [0 <= currentIndex < length] is broken. *)
Theorem fullImage_pointer_past_the_end :
  let s' := exec (handleAutoEnhance okEnv freshState) freshState in
  pointerValid freshState /\
  len (history freshState) = 1 /\ historyIndex freshState = 0 /\
  len (history s') = 2 /\ historyIndex s' = 2 /\
  ~ pointerValid s'.
Proof.
  intros s'.
  split; [apply (proj1 (pointerValidb_spec _)); reflexivity |].
  repeat (split; [reflexivity |]).
  intros Hvalid. apply (proj2 (pointerValidb_spec _)) in Hvalid.
  vm_compute in Hvalid. discriminate Hvalid.
Qed.

(** The step committed by the selection path from the same state
    keeps the invariant: the one-off is particular to the full-image
    path. *)
Lemma selection_commit_keeps_pointer :
  len (history oneStep) = 2 /\ historyIndex oneStep = 1 /\
  pointerValid oneStep.
Proof.
  split; [reflexivity | split; [reflexivity |]].
  apply (proj1 (pointerValidb_spec _)). reflexivity.
Qed.

(** *** Rejected undo and redo *)

(** C9. [handleUndo] at pointer 0 and [handleRedo] at the tail return
    without any update, and so do both while the app is enhancing or a
    GIF is being generated; in every busy state (enhancing, analyzing,
    converting, generating a GIF) the undo and redo buttons are not
    rendered or are disabled, so a click changes nothing: list,
    pointer and displayed image stay as they are. *)
Theorem undo_redo_rejected (env : Env) (s : State) :
  (historyIndex s = 0 -> handleUndo env s s = (s, Return tt)) /\
  (historyIndex s = len (history s) - 1 ->
   handleRedo env s s = (s, Return tt)) /\
  (appState s = ENHANCING \/ isGeneratingGif s = true ->
   handleUndo env s s = (s, Return tt) /\
   handleRedo env s s = (s, Return tt)) /\
  (busy s ->
   clickUndo env s s = (s, Return tt) /\
   clickRedo env s s = (s, Return tt)).
Proof.
  repeat split.
  - intros Hi. unfold handleUndo. rewrite Hi. reflexivity.
  - intros Hi. unfold handleRedo. rewrite Hi, Z.geb_leb, Z.leb_refl.
    reflexivity.
  - unfold handleUndo. destruct H as [-> | ->];
      cbn [AppState_eqb]; rewrite ?orb_true_r; reflexivity.
  - unfold handleRedo. destruct H as [-> | ->];
      cbn [AppState_eqb]; rewrite ?orb_true_r; reflexivity.
  - unfold clickUndo, toolbarRendered, undoDisabled.
    destruct H as [-> | [-> | [-> | ->]]];
      cbn [AppState_eqb andb]; rewrite ?orb_true_r, ?andb_false_r;
      reflexivity.
  - unfold clickRedo, toolbarRendered, redoDisabled.
    destruct H as [-> | [-> | [-> | ->]]];
      cbn [AppState_eqb andb]; rewrite ?orb_true_r, ?andb_false_r;
      reflexivity.
Qed.

Lemma undo_redo_rejected_witness :
  handleUndo okEnv freshState freshState = (freshState, Return tt) /\
  handleRedo okEnv twoSteps twoSteps = (twoSteps, Return tt) /\
  clickUndo okEnv (setAppState ANALYZING twoSteps)
    (setAppState ANALYZING twoSteps)
  = (setAppState ANALYZING twoSteps, Return tt) /\
  handleUndo okEnv (handleExportGif_begin twoSteps)
    (handleExportGif_begin twoSteps)
  = (handleExportGif_begin twoSteps, Return tt).
Proof.
  split; [| split; [| split]]; cycle 3.
  - destruct (undo_redo_rejected okEnv (handleExportGif_begin twoSteps))
      as (_ & _ & Hguard & _).
    apply Hguard. right. reflexivity.
  - destruct (undo_redo_rejected okEnv freshState) as (Hundo & _).
    apply Hundo. reflexivity.
  - destruct (undo_redo_rejected okEnv twoSteps) as (_ & Hredo & _).
    apply Hredo. reflexivity.
  - destruct (undo_redo_rejected okEnv (setAppState ANALYZING twoSteps))
      as (_ & _ & _ & Hbusy).
    apply Hbusy. right. left. reflexivity.
Defined.

(** The guard inside [handleUndo] names only the enhancing state and
    the GIF flag: while analyzing, it is the missing toolbar, not the
    handler, that rejects an undo. *)
Lemma handleUndo_relies_on_toolbar_when_analyzing :
  let s := setAppState ANALYZING twoSteps in
  historyIndex s = 2 /\
  historyIndex (exec (handleUndo okEnv s) s) = 1 /\
  toolbarRendered s = false.
Proof. repeat split. Qed.

(** *** A failed enhancement attempt *)

(** The job alone: once it exists, [runEnhancementJob] never touches
    the history, the pointer or the loaded image, and always clears the
    job ([finally]).  It ends either in [ENHANCED] or, with an error
    message, back in [LOADED]; it ends in [LOADED] when the description
    call fails, when the enhancement call fails and when the result
    does not decode. *)
Lemma runEnhancementJob_settles (env : Env) (s : State)
    (job : EnhancementJob) (img : HTMLImageElement) :
  enhancementJob s = Some job -> image s = Some img ->
  let s' := exec (runEnhancementJob env s) s in
  let prior := descriptionHistory (history s) (historyIndex s + 1) in
  let describe :=
    serviceDescribeImage env (canvasWithSelectionDataUrl job) prior false in
  let padded :=
    Padding.paddedRect (naturalWidth img) (naturalHeight img)
      (job_originalRect job) in
  let crop :=
    cropImage env img padded Padding.targetWidth
      (Padding.targetHeight padded) false in
  let enhance d c :=
    callServiceEnhance env c (map prompt prior ++ [prompt d])
      (seekNanoBanana s) (sharpness s) (denoise s) (imagination s) in
  let failed :=
    appState s' = LOADED /\ is_Some (errorMessage s') /\
    finalEnhancementRect s' = None in
  (enhancementJob s' = None /\ history s' = history s /\
   historyIndex s' = historyIndex s /\ image s' = image s /\
   finalImageSrc s' = finalImageSrc s) /\
  (appState s' = ENHANCED \/ failed) /\
  (isThrow describe = true -> failed) /\
  (forall d c, describe = Return d -> crop = Return c ->
     isThrow (enhance d c) = true -> failed) /\
  (forall d c r, describe = Return d -> crop = Return c ->
     enhance d c = Return r ->
     newImage env (ServiceEnhance.imageSrc r) = None -> failed).
Proof.
  intros Hjob Himg. cbv zeta.
  unfold runEnhancementJob, runEnhancementJob_try, decodeImage.
  rewrite Hjob, Himg. async_unfold.
  repeat (async_case; cbn [fst snd]); cbn.
  all: split; [repeat split; solve [reflexivity | congruence] |].
  all: split;
    [first [left; reflexivity | right; repeat split; eexists; reflexivity] |].
  all: repeat split; intros; cbn in *;
    try discriminate; try congruence; try (eexists; reflexivity).
  all: repeat match goal with
              | H : Return _ = Return _ |- _ => injection H as ?; subst
              end;
    repeat match goal with
           | E : ?call = Return _, H : isThrow ?call = true |- _ =>
               rewrite E in H; discriminate H
           end;
    congruence.
Qed.

(** The redo steps are cut earlier, by [handleSelection], when the
    selection is confirmed and before the job exists: a selection made
    at step 1 of three leaves two steps, and the failed job that follows
    leaves those two as they are. *)
Lemma selection_cuts_redo_before_the_job :
  let s1 :=
    exec (handleSelection okEnv scenarioRect scenarioRect
            "data:image/png;base64,CANVAS"%string undone) undone in
  let s2 := exec (runEnhancementJob quotaEnv s1) s1 in
  len (history undone) = 3 /\ len (history s1) = 2 /\
  is_Some (enhancementJob s1) /\
  history s2 = history s1 /\ historyIndex s2 = historyIndex undone /\
  appState s2 = LOADED.
Proof.
  intros s1 s2.
  split; [vm_compute; reflexivity | split; [vm_compute; reflexivity |]].
  split; [eexists; vm_compute; reflexivity |].
  split; [vm_compute; reflexivity |].
  split; vm_compute; reflexivity.
Qed.

(** What [handleSelection] leaves for the job when the placeholder
    crop resolves. *)
Lemma handleSelection_fields (env : Env) (o sc : Rect) (url : string)
    (s : State) (img : HTMLImageElement) (pixelated : string) :
  image s = Some img -> -1 <= historyIndex s ->
  cropImage env img o (w o) (h o) true = Return pixelated ->
  let s1 := exec (handleSelection env o sc url s) s in
  enhancementJob s1
    = Some {| job_originalRect := o; canvasWithSelectionDataUrl := url;
              pixelatedSrc := pixelated; screenRect := sc |} /\
  history s1 = take (Z.to_nat (historyIndex s + 1)) (history s) /\
  historyIndex s1 = historyIndex s /\ image s1 = Some img /\
  finalImageSrc s1 = finalImageSrc s /\
  seekNanoBanana s1 = seekNanoBanana s /\ sharpness s1 = sharpness s /\
  denoise s1 = denoise s /\ imagination s1 = imagination s.
Proof.
  intros Himg Hlow Hcrop. cbv zeta.
  unfold handleSelection. rewrite Himg. async_unfold. rewrite Hcrop.
  destruct (Z.ltb_spec (historyIndex s) (len (history s) - 1)) as [Hlt | Hge].
  - rewrite slice_prefix by lia.
    repeat (async_case; cbn [fst snd]); cbn; repeat split;
      solve [reflexivity | exact Himg].
  - assert (Hall : take (Z.to_nat (historyIndex s + 1)) (history s)
                   = history s)
      by (apply take_ge; unfold len in Hge; lia).
    rewrite Hall.
    repeat (async_case; cbn [fst snd]); cbn; repeat split;
      solve [reflexivity | exact Himg].
Qed.

(** The descriptions of the kept steps are those of the steps up to
    the pointer. *)
Lemma descriptionHistory_take (history : list HistoryStep) (i : Z) :
  -1 <= i ->
  descriptionHistory (take (Z.to_nat (i + 1)) history) (i + 1)
  = descriptionHistory history (i + 1).
Proof.
  intros Hi. unfold descriptionHistory.
  rewrite !slice_prefix by lia. rewrite take_take, Nat.min_id.
  reflexivity.
Qed.

(** The claim as it was stated fails: a selection confirmed at step 1
    of three, whose enhancement call then fails, leaves two steps.  The
    attempt failed, nothing was committed, and the history is not the
    one it started from. *)
Lemma failed_attempt_cuts_redo_steps :
  let s1 :=
    exec (handleSelection quotaEnv scenarioRect scenarioRect
            "data:image/png;base64,CANVAS"%string undone) undone in
  let s2 := exec (runEnhancementJob quotaEnv s1) s1 in
  appState undone = LOADED /\ len (history undone) = 3 /\
  historyIndex undone = 1 /\
  is_Some (enhancementJob s1) /\
  appState s2 = LOADED /\ is_Some (errorMessage s2) /\
  enhancementJob s2 = None /\
  len (history s2) = 2 /\ history s2 <> history undone.
Proof.
  intros s1 s2.
  do 3 (split; [vm_compute; reflexivity |]).
  split; [eexists; vm_compute; reflexivity |].
  split; [vm_compute; reflexivity |].
  split; [eexists; vm_compute; reflexivity |].
  split; [vm_compute; reflexivity |].
  split; [vm_compute; reflexivity |].
  intros Heq. apply (f_equal (@length HistoryStep)) in Heq.
  vm_compute in Heq. discriminate Heq.
Qed.

(** C8. An enhancement attempt is the confirmed selection followed by
    its job.  However it ends, the job is cleared and no step is
    committed: pointer, image and displayed source are those before
    the attempt, and the history is the one before the attempt cut
    after the pointer (the selection discards the redo steps), so it
    is unchanged when the pointer stood on the last step.  The attempt
    ends either in [ENHANCED] or, with an error message, back in
    [LOADED]; it ends in [LOADED] when the description call fails, when
    the enhancement call fails and when the result does not decode. *)
Theorem failed_attempt_commits_nothing (env : Env) (s : State)
    (o sc : Rect) (url : string) (img : HTMLImageElement)
    (pixelated : string) :
  image s = Some img -> -1 <= historyIndex s ->
  cropImage env img o (w o) (h o) true = Return pixelated ->
  let s1 := exec (handleSelection env o sc url s) s in
  let s2 := exec (runEnhancementJob env s1) s1 in
  let prior := descriptionHistory (history s) (historyIndex s + 1) in
  let describe := serviceDescribeImage env url prior false in
  let padded :=
    Padding.paddedRect (naturalWidth img) (naturalHeight img) o in
  let crop :=
    cropImage env img padded Padding.targetWidth
      (Padding.targetHeight padded) false in
  let enhance d c :=
    callServiceEnhance env c (map prompt prior ++ [prompt d])
      (seekNanoBanana s) (sharpness s) (denoise s) (imagination s) in
  let failed :=
    appState s2 = LOADED /\ is_Some (errorMessage s2) /\
    finalEnhancementRect s2 = None in
  (is_Some (enhancementJob s1) /\ enhancementJob s2 = None /\
   history s2 = take (Z.to_nat (historyIndex s + 1)) (history s) /\
   (len (history s) - 1 <= historyIndex s -> history s2 = history s) /\
   historyIndex s2 = historyIndex s /\ image s2 = image s /\
   finalImageSrc s2 = finalImageSrc s) /\
  (appState s2 = ENHANCED \/ failed) /\
  (isThrow describe = true -> failed) /\
  (forall d c, describe = Return d -> crop = Return c ->
     isThrow (enhance d c) = true -> failed) /\
  (forall d c r, describe = Return d -> crop = Return c ->
     enhance d c = Return r ->
     newImage env (ServiceEnhance.imageSrc r) = None -> failed).
Proof.
  intros Himg Hlow Hcrop. cbv zeta.
  destruct (handleSelection_fields env o sc url s img pixelated
              Himg Hlow Hcrop)
    as (Hjob & Hh & Hi & Him & Hf & Hb & Hsh & Hdn & Hig).
  cbv zeta in Hjob, Hh, Hi, Him, Hf, Hb, Hsh, Hdn, Hig.
  remember (exec (handleSelection env o sc url s) s) as s1 eqn:Es1.
  pose proof (runEnhancementJob_settles env s1 _ img Hjob Him) as Hrun.
  cbv zeta in Hrun.
  cbn [canvasWithSelectionDataUrl job_originalRect] in Hrun.
  rewrite Hi, Hh, Hb, Hsh, Hdn, Hig, Hf, Him in Hrun.
  rewrite (descriptionHistory_take (history s) (historyIndex s) Hlow)
    in Hrun.
  destruct Hrun as ((Hc & Hh2 & Hi2 & Him2 & Hf2) & Hend & Hd & He & Hn).
  split; [| split; [exact Hend | split; [exact Hd | split; [exact He |
                                                           exact Hn]]]].
  split; [rewrite Hjob; eexists; reflexivity |].
  split; [exact Hc |]. split; [exact Hh2 |].
  split.
  - intros Htail. rewrite Hh2. apply take_ge. unfold len in Htail. lia.
  - split; [exact Hi2 |]. split; [rewrite Him2; symmetry; exact Himg |].
    exact Hf2.
Qed.

Lemma failed_attempt_commits_nothing_witness :
  let s1 :=
    exec (handleSelection quotaEnv scenarioRect scenarioRect
            "data:image/png;base64,CANVAS"%string undone) undone in
  let s2 := exec (runEnhancementJob quotaEnv s1) s1 in
  enhancementJob s2 = None /\ historyIndex s2 = historyIndex undone /\
  history s2 = take 2 (history undone) /\ appState s2 = LOADED.
Proof.
  intros s1 s2.
  assert (Hi : image undone
               = Some {| src := "data:image/png;base64,CROP"%string;
                         naturalWidth := 500%Q; naturalHeight := 500%Q |})
    by (vm_compute; reflexivity).
  assert (Hl : -1 <= historyIndex undone) by (vm_compute; discriminate).
  destruct (failed_attempt_commits_nothing quotaEnv undone
              scenarioRect scenarioRect "data:image/png;base64,CANVAS"%string
              _ "data:image/png;base64,CROP"%string Hi Hl eq_refl)
    as ((_ & Hc & Hh & _ & Hp & _) & _ & _ & Henhance & _).
  split; [exact Hc |]. split; [exact Hp |]. split; [exact Hh |].
  eapply Henhance; reflexivity.
Defined.

End HistoryProps.

(** ** The request of [serviceEnhance] *)

Module ServiceEnhanceProps.
Import Promise ServiceEnhance.

Section Requests.
Variable generateContent : Request -> Outcome Response.
Variable JSON_flag : string -> option bool.
Variables (croppedImageDataUrl : string) (seekNanoBanana : bool).
Variables sharpness denoise imagination : Q.

(** The context string is the last element of a non-empty history. *)
Lemma lastPrompt_last (history : list string) (context : string) :
  last history = Some context -> lastPrompt history = context.
Proof.
  unfold lastPrompt. rewrite last_lookup, Nat.sub_1_r.
  intros ->. reflexivity.
Qed.

Lemma nonempty_last (history : list string) :
  history <> [] -> exists context, last history = Some context.
Proof.
  intros Hne. destruct (last history) as [c |] eqn:E; [eauto |].
  apply last_None in E. contradiction.
Qed.

(** A call with a non-empty history issues exactly one request, whose
    prompt is built from the last element. *)
Lemma serviceEnhance_request (history : list string) (context : string) :
  last history = Some context ->
  map text
    (fst (serviceEnhance generateContent JSON_flag croppedImageDataUrl
            history seekNanoBanana sharpness denoise imagination))
  = [generationPrompt context seekNanoBanana sharpness denoise imagination].
Proof.
  intros Hlast. unfold serviceEnhance.
  destruct history as [| p rest]; [discriminate Hlast |].
  cbn [length Nat.eqb].
  rewrite (lastPrompt_last _ _ Hlast).
  destruct (generateContent _); reflexivity.
Qed.

(** C10. Two calls whose non-empty prompt histories end in the same
    element, with the other arguments equal, send the same request (the
    same prompt text) and settle alike; the prompt is the text built
    from that last element, the dials and the flag.  A call with an
    empty history throws "Enhancement history is empty." and issues no
    request. *)
Theorem prompt_depends_on_last_only (history1 history2 : list string) :
  (history1 <> [] -> history2 <> [] -> last history1 = last history2 ->
   serviceEnhance generateContent JSON_flag croppedImageDataUrl
     history1 seekNanoBanana sharpness denoise imagination
   = serviceEnhance generateContent JSON_flag croppedImageDataUrl
       history2 seekNanoBanana sharpness denoise imagination /\
   exists context,
     last history1 = Some context /\
     map text
       (fst (serviceEnhance generateContent JSON_flag croppedImageDataUrl
               history1 seekNanoBanana sharpness denoise imagination))
     = [generationPrompt context seekNanoBanana
          sharpness denoise imagination]) /\
  serviceEnhance generateContent JSON_flag croppedImageDataUrl
    [] seekNanoBanana sharpness denoise imagination
  = ([], Throw (new_Error "Enhancement history is empty.")).
Proof.
  split; [| reflexivity].
  intros Hne1 Hne2 Hlast.
  destruct (nonempty_last history1 Hne1) as [context Hc].
  assert (Hc2 : last history2 = Some context) by congruence.
  split.
  - unfold serviceEnhance.
    destruct history1 as [| p1 r1]; [contradiction |].
    destruct history2 as [| p2 r2]; [contradiction |].
    cbn [length Nat.eqb].
    rewrite (lastPrompt_last _ _ Hc), (lastPrompt_last _ _ Hc2).
    reflexivity.
  - exists context. split; [exact Hc |].
    apply serviceEnhance_request. exact Hc.
Qed.

End Requests.

Lemma prompt_depends_on_last_only_witness :
  let backend := fun _ : Request => Return Scenario.imageResponse in
  let parse := fun _ : string => @None bool in
  serviceEnhance backend parse "data:image/png;base64,CROP"
    ["a living room"; "a brass lamp"]%string true 85 10 50
  = serviceEnhance backend parse "data:image/png;base64,CROP"
      ["a brass lamp"]%string true 85 10 50.
Proof.
  intros backend parse.
  destruct (prompt_depends_on_last_only backend parse
              "data:image/png;base64,CROP" true 85 10 50
              ["a living room"; "a brass lamp"]%string
              ["a brass lamp"]%string) as [Hsame _].
  apply Hsame; [discriminate | discriminate | reflexivity].
Defined.

End ServiceEnhanceProps.

(** ** The fit of the image, selection and panning *)

Module DisplayProps.
Import Types JsNumber Display.
Local Open Scope Q_scope.

Lemma Qltb_true (a b : Q) : Qltb a b = true -> a < b.
Proof.
  unfold Qltb. rewrite negb_true_iff. intros Hle.
  apply Qnot_le_lt. intros Hba. apply Qle_bool_iff in Hba. congruence.
Qed.

Lemma Qltb_false (a b : Q) : Qltb a b = false -> b <= a.
Proof.
  unfold Qltb. rewrite negb_false_iff. apply Qle_bool_iff.
Qed.

(** Facts about quotients of positive numbers. *)
Lemma Qdiv_pos (a b : Q) : 0 < a -> 0 < b -> 0 < a / b.
Proof. intros Ha Hb. apply Qlt_shift_div_l; lra. Qed.

Lemma Qhalf_nonneg (a : Q) : 0 <= a -> 0 <= a / 2.
Proof. intros Ha. apply Qle_shift_div_l; lra. Qed.

Lemma mul_lt_of_lt_div (a c d : Q) : 0 < d -> a < c / d -> d * a < c.
Proof.
  intros Hd Hlt.
  assert (E : c / d * d == c) by (field; lra).
  revert Hlt E. generalize (c / d). intros q Hlt E. nra.
Qed.

Lemma div_le_of_div_le (a c d : Q) :
  0 < d -> 0 < a -> c / d <= a -> c / a <= d.
Proof.
  intros Hd Ha Hle.
  assert (E1 : c / d * d == c) by (field; lra).
  assert (E2 : c / a * a == c) by (field; lra).
  revert Hle E1 E2. generalize (c / d) (c / a). intros q r Hle E1 E2. nra.
Qed.

(** The facts about the fit that the selection and the fixed box rely
    on. *)
Lemma getCanvasScale_fit (rect : CanvasRect)
    (img : App.HTMLImageElement) :
  0 < width rect -> 0 < height rect ->
  0 < App.naturalWidth img -> 0 < App.naturalHeight img ->
  let fit := getCanvasScale (Some rect) (Some img) in
  0 < scale fit /\
  dWidth fit == scale fit * App.naturalWidth img /\
  dHeight fit == scale fit * App.naturalHeight img /\
  dWidth fit <= width rect /\ dHeight fit <= height rect /\
  (dWidth fit == width rect \/ dHeight fit == height rect) /\
  0 <= offsetX fit /\ 0 <= offsetY fit /\
  offsetX fit + dWidth fit + offsetX fit == width rect /\
  offsetY fit + dHeight fit + offsetY fit == height rect.
Proof.
  intros Hcw Hch Hnw Hnh fit. subst fit. unfold getCanvasScale.
  pose proof (Qdiv_pos _ _ Hnw Hnh) as Ha.
  destruct (Qltb _ _) eqn:E; cbn [scale offsetX offsetY dWidth dHeight].
  - apply Qltb_true in E. apply mul_lt_of_lt_div in E; [| exact Hch].
    assert (Hd : 0 < height rect * (App.naturalWidth img / App.naturalHeight img))
      by (apply Qmult_lt_0_compat; assumption).
    split; [apply Qdiv_pos; assumption |].
    split; [field; lra |]. split; [field; lra |].
    split; [lra |]. split; [lra |]. split; [right; reflexivity |].
    split; [apply Qhalf_nonneg; lra |].
    split; [apply Qhalf_nonneg; lra |].
    split; field; lra.
  - apply Qltb_false in E.
    apply div_le_of_div_le in E; [| exact Hch | exact Ha].
    assert (Hd : 0 < width rect / (App.naturalWidth img / App.naturalHeight img))
      by (apply Qdiv_pos; assumption).
    split; [apply Qdiv_pos; assumption |].
    split; [field; lra |]. split; [field; lra |].
    split; [lra |]. split; [exact E |]. split; [left; reflexivity |].
    split; [apply Qhalf_nonneg; lra |].
    split; [apply Qhalf_nonneg; lra |].
    split; field; lra.
Qed.

(** X1. The letterbox fit: the drawn image is inside the canvas, fills one
    of its two axes, is centred, and both of its sides are the natural
    sides times [scale]. *)
Theorem getCanvasScale_letterbox (rect : CanvasRect)
    (img : App.HTMLImageElement) :
  0 < width rect -> 0 < height rect ->
  0 < App.naturalWidth img -> 0 < App.naturalHeight img ->
  let fit := getCanvasScale (Some rect) (Some img) in
  0 < scale fit /\
  dWidth fit == scale fit * App.naturalWidth img /\
  dHeight fit == scale fit * App.naturalHeight img /\
  dWidth fit <= width rect /\ dHeight fit <= height rect /\
  (dWidth fit == width rect \/ dHeight fit == height rect) /\
  0 <= offsetX fit /\ 0 <= offsetY fit /\
  offsetX fit + dWidth fit + offsetX fit == width rect /\
  offsetY fit + dHeight fit + offsetY fit == height rect.
Proof. exact (getCanvasScale_fit rect img). Qed.

Lemma getCanvasScale_letterbox_witness :
  let rect := {| left := 8; top := 16; width := 1200; height := 600 |} in
  let img := {| App.src := "blob:a"; App.naturalWidth := 500;
                App.naturalHeight := 500 |} in
  let fit := getCanvasScale (Some rect) (Some img) in
  dHeight fit == 600 /\ dWidth fit <= 1200 /\ offsetX fit == 300.
Proof.
  intros rect img fit.
  destruct (getCanvasScale_letterbox rect img)
    as (_ & _ & _ & Hw & _); try (vm_compute; reflexivity).
  split; [vm_compute; reflexivity |].
  split; [exact Hw | vm_compute; reflexivity].
Defined.

(** X2. Reading a screen position back to the image undoes drawing an
    image point on the screen, and the other way round, for every
    non-zero fit scale and zoom scale. *)
Theorem screen_image_round_trip (fit : Fit) (t : ImageDisplay.Transform)
    (p : Q * Q) :
  ~ scale fit == 0 -> ~ ImageDisplay.scale t == 0 ->
  ImageDisplay.point_eq (screenToImage fit t (imageToScreen fit t p)) p /\
  ImageDisplay.point_eq (imageToScreen fit t (screenToImage fit t p)) p.
Proof.
  intros Hf Ht.
  unfold ImageDisplay.point_eq, screenToImage, imageToScreen,
    ImageDisplay.drawnAt, ImageDisplay.getTransformedMousePos.
  cbn [fst snd]. repeat split; field; auto.
Qed.

Lemma screen_image_round_trip_witness :
  let fit := {| scale := 2; offsetX := 100; offsetY := 0;
                dWidth := 1000; dHeight := 1000 |} in
  let t := {| ImageDisplay.x := 30; ImageDisplay.y := -20;
              ImageDisplay.scale := 11 # 10 |} in
  ImageDisplay.point_eq
    (screenToImage fit t (imageToScreen fit t (120, 45))) (120, 45).
Proof.
  intros fit t.
  apply (screen_image_round_trip fit t (120, 45)); vm_compute; discriminate.
Defined.

(** X3. The rectangle handed to [onSelect] and the outline [draw] paints for
    it are inverse to each other. *)
Theorem original_screen_rect_round_trip (fit : Fit) (r : Rect) :
  ~ scale fit == 0 ->
  Rect_eq (toScreenRect fit (toOriginalRect fit r)) r /\
  Rect_eq (toOriginalRect fit (toScreenRect fit r)) r.
Proof.
  intros Hf. unfold Rect_eq, toScreenRect, toOriginalRect.
  cbn [x y w h]. repeat split; field; exact Hf.
Qed.

Lemma original_screen_rect_round_trip_witness :
  let fit := {| scale := 2; offsetX := 100; offsetY := 0;
                dWidth := 1000; dHeight := 1000 |} in
  let r := {| x := 120; y := 40; w := 200; h := 60 |} in
  Rect_eq (toScreenRect fit (toOriginalRect fit r)) r.
Proof.
  intros fit r.
  apply (original_screen_rect_round_trip fit r). vm_compute. discriminate.
Defined.

(** X4. While a drag is in progress, the selection is the bounding box of
    the start point and the pointer: its sides are not negative and it
    does not depend on the direction of the drag. *)
Theorem drag_selection_is_bounding_box (props : Props) (rect : CanvasRect)
    (e : MouseEvent) (s : State) (start : Q * Q) :
  isPanning s = false -> startPoint s = Some start ->
  useFixedSelectionBox props = false -> isEnhancing props = false ->
  let pos := mousePos rect e (transform s) in
  exists sel,
    selection (handleMouseMove props rect e s) = Some sel /\
    0 <= w sel /\ 0 <= h sel /\
    x sel == Qmin (fst start) (fst pos) /\
    x sel + w sel == Qmax (fst start) (fst pos) /\
    y sel == Qmin (snd start) (snd pos) /\
    y sel + h sel == Qmax (snd start) (snd pos).
Proof.
  intros Hpan Hstart Hfixed Henh pos.
  unfold handleMouseMove. rewrite Hpan, Hstart, Hfixed, Henh.
  cbn [orb selection]. fold pos.
  eexists. split; [reflexivity |]. cbn [x y w h].
  assert (Habs : forall a b : Q,
             0 <= Qabs (a - b) /\ Qmin a b == Qmin b a /\
             Qmin a b + Qabs (a - b) == Qmax b a).
  { intros a b. split; [apply Qabs_nonneg |]. split; [apply Q.min_comm |].
    destruct (Qlt_le_dec a b) as [Hlt | Hle].
    - rewrite Q.min_l, Q.max_l by lra.
      rewrite Qabs_neg by lra. ring.
    - rewrite Q.min_r, Q.max_r by lra.
      rewrite Qabs_pos by lra. ring. }
  destruct (Habs (fst pos) (fst start)) as (Hw & Hx & Hx2).
  destruct (Habs (snd pos) (snd start)) as (Hh & Hy & Hy2).
  repeat split; assumption.
Qed.

Lemma drag_selection_is_bounding_box_witness :
  let rect := {| left := 0; top := 0; width := 800; height := 600 |} in
  let props := {| isEnhancing := false; historicalSelection := None;
                  useFixedSelectionBox := false;
                  fixedSelectionSizePercentage := 1 # 8 |} in
  let dragging :=
    fst (handleMouseDown props rect "data:,"
           {| clientX := 300; clientY := 200; button := 0 |} initialState) in
  exists sel,
    selection (handleMouseMove props rect
                 {| clientX := 100; clientY := 260; button := 0 |} dragging)
    = Some sel /\ 0 <= w sel /\ 0 <= h sel.
Proof.
  intros rect props dragging.
  destruct (drag_selection_is_bounding_box props rect
              {| clientX := 100; clientY := 260; button := 0 |}
              dragging (300, 200) eq_refl eq_refl eq_refl eq_refl)
    as (sel & Hsel & Hw & Hh & _).
  exists sel. repeat split; assumption.
Defined.





(** X7. While the middle button is held, every mouse move shifts the pan by
    the distance the pointer travelled: over any sequence of moves the
    offset between pan and pointer stays what it was, the zoom scale
    and the selection are untouched. *)
Theorem pan_follows_pointer (props : Props) (rect : CanvasRect)
    (url : string) (es : list MouseEvent) (s : State) :
  isPanning s = true ->
  let s' := fst (run props rect url (map MouseMove es) s) in
  ImageDisplay.x (transform s') - fst (panStart s')
    == ImageDisplay.x (transform s) - fst (panStart s) /\
  ImageDisplay.y (transform s') - snd (panStart s')
    == ImageDisplay.y (transform s) - snd (panStart s) /\
  ImageDisplay.scale (transform s') = ImageDisplay.scale (transform s) /\
  panStart s'
    = default (panStart s)
        (last (map (fun e => (clientX e, clientY e)) es)) /\
  selection s' = selection s /\ isPanning s' = true.
Proof.
  revert s. induction es as [| e es IH]; intros s Hpan.
  - cbn. repeat split; try reflexivity. exact Hpan.
  - cbn [map run step].
    destruct (run props rect url (map MouseMove es)
                (handleMouseMove props rect e s)) as [s'' calls] eqn:E.
    cbn [fst].
    specialize (IH (handleMouseMove props rect e s)).
    rewrite E in IH. cbn [fst] in IH.
    unfold handleMouseMove in IH. rewrite Hpan in IH.
    cbn [transform panStart isPanning selection fst snd
         ImageDisplay.x ImageDisplay.y ImageDisplay.scale] in IH.
    destruct (IH eq_refl) as (Hx & Hy & Hs & Hp & Hsel & Hpan').
    repeat split; try assumption; try lra.
    rewrite Hp. cbn [map]. rewrite (last_cons (clientX e, clientY e)).
    destruct (last _); reflexivity.
Qed.

Lemma pan_follows_pointer_witness :
  let rect := {| left := 0; top := 0; width := 800; height := 600 |} in
  let props := {| isEnhancing := false; historicalSelection := None;
                  useFixedSelectionBox := false;
                  fixedSelectionSizePercentage := 1 # 8 |} in
  let held :=
    fst (handleMouseDown props rect "data:,"
           {| clientX := 300; clientY := 200; button := 1 |} initialState) in
  let s' :=
    fst (run props rect "data:,"
           [MouseMove {| clientX := 310; clientY := 180; button := 1 |};
            MouseMove {| clientX := 350; clientY := 150; button := 1 |}]
           held) in
  ImageDisplay.x (transform s') - 350 == 0 - 300.
Proof.
  intros rect props held s'.
  destruct (pan_follows_pointer props rect "data:,"
              [{| clientX := 310; clientY := 180; button := 1 |};
               {| clientX := 350; clientY := 150; button := 1 |}]
              held eq_refl) as (Hx & _).
  exact Hx.
Defined.

(** *** Invariants of the component *)

Lemma wheel_scale_in_range (isEnhancing : bool)
    (canvas : option ImageDisplay.DOMRect) (e : ImageDisplay.WheelEvent)
    (t : ImageDisplay.Transform) :
  ImageDisplay.scaleInRange t ->
  ImageDisplay.scaleInRange (ImageDisplay.handleWheel isEnhancing canvas e t).
Proof.
  intros Ht. unfold ImageDisplay.handleWheel.
  destruct isEnhancing; [exact Ht |].
  destruct canvas as [r |]; [| exact Ht].
  unfold ImageDisplay.scaleInRange, ImageDisplay.clamp.
  cbn [ImageDisplay.scale].
  match goal with |- context [Qmin ?v 20] => generalize v end. intros v.
  destruct (Q.max_spec (1 # 4) (Qmin v 20)) as [[H1 E1] | [H1 E1]];
    destruct (Q.min_spec v 20) as [[H2 E2] | [H2 E2]];
    rewrite E1; try rewrite E2; split; lra.
Qed.

Lemma step_wellFormed (props : Props) (rect : CanvasRect) (url : string)
    (ev : Event) (s : State) :
  wellFormed s -> wellFormed (fst (step props rect url ev s)).
Proof.
  intros Hs. pose proof Hs as (Hscale & Hdrag & Hsides).
  assert (Hnone : wellFormed (released s)).
  { split; [exact Hscale |]. split.
    - cbn [released selection startPoint].
      split; intros [? H]; discriminate H.
    - cbn [released selection]. intros sel H. discriminate H. }
  assert (Hsame : forall s',
             transform s' = transform s -> selection s' = selection s ->
             startPoint s' = startPoint s -> wellFormed s').
  { intros s' Ht Hsel Hp. unfold wellFormed. rewrite Ht, Hsel, Hp.
    split; [exact Hscale | split; [exact Hdrag | exact Hsides]]. }
  assert (Hup : forall canvas,
             wellFormed (fst (handleMouseUpSelection props canvas url s))).
  { intros canvas. unfold handleMouseUpSelection.
    destruct (useFixedSelectionBox props); [exact Hs |].
    cbv zeta.
    destruct (selection s) as [sel |]; [| exact Hnone].
    destruct (image s) as [img |]; [| exact Hnone].
    destruct (_ || _ || _); [exact Hnone |].
    destruct canvas; [exact Hnone | exact Hs]. }
  destruct ev as [e | e | | | e | key | img]; cbn [step fst].
  - unfold handleMouseDown.
    destruct (isEnhancing props); [exact Hs |].
    destruct (button e =? 1)%Z; [apply Hsame; reflexivity |].
    destruct (useFixedSelectionBox props).
    + destruct (image s) as [img |]; [| exact Hs].
      destruct (fixedBox _ _ _ _); exact Hs.
    + split; [exact Hscale |]. lazy beta iota zeta delta [selection startPoint]. split.
      * split; intros _; eexists; reflexivity.
      * intros sel H.
        pose proof (f_equal (from_option w 0) H) as Ew.
        pose proof (f_equal (from_option h 0) H) as Eh.
        change (from_option w 0 (Some sel)) with (w sel) in Ew.
        change (from_option h 0 (Some sel)) with (h sel) in Eh.
        rewrite <- Ew, <- Eh. split; exact (Qle_refl 0).
  - unfold handleMouseMove.
    destruct (isPanning s).
    + split; [| split; [exact Hdrag | exact Hsides]].
      destruct Hscale as [H1 H2]. split; assumption.
    + destruct (startPoint s) as [start |] eqn:Estart;
        [| exact Hs].
      destruct (_ || _); [exact Hs |].
      split; [exact Hscale |]. lazy beta iota zeta delta [selection startPoint]. split.
      * split; intros _; eexists; reflexivity.
      * intros sel H.
        pose proof (f_equal (from_option w 0) H) as Ew.
        pose proof (f_equal (from_option h 0) H) as Eh.
        change (from_option w 0 (Some sel)) with (w sel) in Ew.
        change (from_option h 0 (Some sel)) with (h sel) in Eh.
        rewrite <- Ew, <- Eh. split.
        -- exact (Qabs_nonneg
                    (fst (mousePos rect e (transform s)) - fst start)).
        -- exact (Qabs_nonneg
                    (snd (mousePos rect e (transform s)) - snd start)).
  - unfold handleMouseUp.
    destruct (isPanning s); [apply Hsame; reflexivity | apply Hup].
  - unfold handleMouseLeave.
    destruct (startPoint s) as [start |].
    + destruct (handleMouseUpSelection props (Some rect) url s)
        as [s' call] eqn:E.
      pose proof (Hup (Some rect)) as H. rewrite E in H. cbn [fst] in H.
      destruct (isPanning s); [| exact H].
      destruct H as (H1 & H2 & H3).
      split; [exact H1 | split; [exact H2 | exact H3]].
    + destruct (isPanning s); [apply Hsame; reflexivity |].
      exact Hs.
  - split; [| split; [exact Hdrag | exact Hsides]].
    cbn [handleWheel transform]. apply wheel_scale_in_range. exact Hscale.
  - unfold handleKeyDown.
    destruct (startPoint s); [| exact Hs].
    destruct (String.eqb key "Escape");
      [exact Hnone | exact Hs].
  - split; [| split; [exact Hdrag | exact Hsides]].
    cbn [handleImageLoad transform]. split; vm_compute; discriminate.
Qed.

(** X9. Whatever the events, the component keeps its zoom scale within
    [0.25, 20] (so no handler divides by a zero scale), has a selection
    exactly while a drag is in progress, and never holds a selection
    with a negative side. *)
Theorem run_wellFormed (props : Props) (rect : CanvasRect) (url : string)
    (evs : list Event) :
  wellFormed (fst (run props rect url evs initialState)).
Proof.
  assert (Hgen : forall s, wellFormed s ->
                   wellFormed (fst (run props rect url evs s))).
  { induction evs as [| ev evs IH]; intros s Hs; [exact Hs |].
    cbn [run].
    pose proof (step_wellFormed props rect url ev s Hs) as Hstep.
    destruct (step props rect url ev s) as [s' call].
    specialize (IH s' Hstep).
    destruct (run props rect url evs s') as [s'' calls]. exact IH. }
  apply Hgen. split; [split; vm_compute; discriminate |]. split.
  - cbn. split; intros [? H]; discriminate H.
  - cbn. intros sel H. discriminate H.
Qed.

Lemma mouseUpSelection_usable (props : Props) (rect : CanvasRect)
    (url : string) (s : State) :
  0 < width rect -> 0 < height rect ->
  (forall img, image s = Some img ->
     0 < App.naturalWidth img /\ 0 < App.naturalHeight img) ->
  match snd (handleMouseUpSelection props (Some rect) url s) with
  | Some c => usable c
  | None => True
  end.
Proof.
  intros Hcw Hch Himg. unfold handleMouseUpSelection.
  destruct (useFixedSelectionBox props); [exact I |]. cbv zeta.
  destruct (selection s) as [sel |]; [| exact I].
  destruct (image s) as [img |]; [| exact I].
  destruct (Himg img eq_refl) as [Hnw Hnh].
  destruct (getCanvasScale_fit rect img Hcw Hch Hnw Hnh) as (Hs & _).
  revert Hs. generalize (getCanvasScale (Some rect) (Some img)).
  intros fit Hs.
  destruct (Qltb (w sel) 10) eqn:Ew; [exact I |].
  destruct (Qltb (h sel) 10) eqn:Eh; [exact I |].
  destruct (isEnhancing props); [exact I |].
  apply Qltb_false in Ew, Eh.
  lazy beta iota zeta delta [orb snd usable sel_screenRect sel_originalRect
                             toOriginalRect].
  split; [exact Ew | split; [exact Eh | split]].
  - change (0 < w sel / scale fit). apply Qlt_shift_div_l; lra.
  - change (0 < h sel / scale fit). apply Qlt_shift_div_l; lra.
Qed.

Lemma mouseUpSelection_image (props : Props) (canvas : option CanvasRect)
    (url : string) (s : State) :
  image (fst (handleMouseUpSelection props canvas url s)) = image s.
Proof.
  unfold handleMouseUpSelection.
  destruct (useFixedSelectionBox props); [reflexivity |]. cbv zeta.
  assert (Hr : image (released s) = image s) by reflexivity.
  revert Hr. generalize (released s). intros t Hr.
  destruct (selection s); [| exact Hr].
  destruct (image s) eqn:Ei; [| exact Hr].
  destruct (_ || _ || _); [exact Hr |].
  destruct canvas; [exact Hr | exact Ei].
Qed.

(** X10. In drag mode, on a canvas of positive size showing images of
    positive size, every selection the component reports is at least 10
    pixels wide and high on the screen and has positive width and height
    in the image. *)
Theorem reported_selections_usable (props : Props) (rect : CanvasRect)
    (url : string) (evs : list Event) :
  useFixedSelectionBox props = false ->
  0 < width rect -> 0 < height rect ->
  Forall loadsPositive evs ->
  Forall usable (snd (run props rect url evs initialState)).
Proof.
  intros Hdrag Hcw Hch.
  assert (Hgen : forall s,
    (forall img, image s = Some img ->
       0 < App.naturalWidth img /\ 0 < App.naturalHeight img) ->
    Forall loadsPositive evs ->
    Forall usable (snd (run props rect url evs s))).
  { induction evs as [| ev evs IH]; intros s Himg Hevs; [constructor |].
    inversion Hevs as [| ? ? Hev Hrest]; subst.
    cbn [run].
    destruct (step props rect url ev s) as [s' call] eqn:Estep.
    assert (Himg' : forall img, image s' = Some img ->
              0 < App.naturalWidth img /\ 0 < App.naturalHeight img).
    { assert (Hkeep : image s' = image s \/
                      exists img, ev = ImageLoad img /\ image s' = Some img).
      { destruct ev as [e | e | | | e | key | img]; cbn [step] in Estep.
        - left. unfold handleMouseDown in Estep.
          destruct (isEnhancing props); [injection Estep as <- _; reflexivity |].
          destruct (button e =? 1)%Z; [injection Estep as <- _; reflexivity |].
          rewrite Hdrag in Estep. injection Estep as <- _. reflexivity.
        - left. injection Estep as <- _. unfold handleMouseMove.
          destruct (isPanning s); [reflexivity |].
          destruct (startPoint s); [| reflexivity].
          destruct (_ || _); reflexivity.
        - left. unfold handleMouseUp in Estep.
          destruct (isPanning s); [injection Estep as <- _; reflexivity |].
          pose proof (mouseUpSelection_image props (Some rect) url s) as Hup.
          rewrite Estep in Hup. exact Hup.
        - left. unfold handleMouseLeave in Estep.
          pose proof (mouseUpSelection_image props (Some rect) url s) as Hup.
          destruct (startPoint s);
            [| destruct (isPanning s); injection Estep as <- _; reflexivity].
          destruct (handleMouseUpSelection props (Some rect) url s)
            as [t call'].
          cbn [fst] in Hup.
          destruct (isPanning s); injection Estep as <- _; exact Hup.
        - left. injection Estep as <- _. reflexivity.
        - left. injection Estep as <- _. unfold handleKeyDown.
          destruct (startPoint s); [| reflexivity].
          destruct (String.eqb key "Escape"); reflexivity.
        - right. exists img. injection Estep as <- _.
          split; reflexivity. }
      intros img Hs'.
      destruct Hkeep as [Hsame | (img' & -> & Hload)].
      - apply Himg. rewrite <- Hsame. exact Hs'.
      - rewrite Hload in Hs'. injection Hs' as <-. exact Hev. }
    specialize (IH s' Himg' Hrest).
    destruct (run props rect url evs s') as [s'' calls].
    cbn [snd] in *.
    destruct call as [c |]; [| exact IH].
    constructor; [| exact IH].
    destruct ev as [e | e | | | e | key | img]; cbn [step] in Estep;
      try (injection Estep as _ Hcall; discriminate Hcall).
    - unfold handleMouseDown in Estep.
      destruct (isEnhancing props); [discriminate Estep |].
      destruct (button e =? 1)%Z; [discriminate Estep |].
      rewrite Hdrag in Estep. discriminate Estep.
    - unfold handleMouseUp in Estep.
      destruct (isPanning s); [discriminate Estep |].
      pose proof (mouseUpSelection_usable props rect url s Hcw Hch Himg)
        as Hup.
      rewrite Estep in Hup. exact Hup.
    - unfold handleMouseLeave in Estep.
      destruct (startPoint s);
        [| destruct (isPanning s); discriminate Estep].
      destruct (handleMouseUpSelection props (Some rect) url s)
        as [t call'] eqn:Eup.
      pose proof (mouseUpSelection_usable props rect url s Hcw Hch Himg)
        as Hup.
      rewrite Eup in Hup. cbn [snd] in Hup.
      assert (Hcall : call' = Some c) by congruence.
      rewrite Hcall in Hup. exact Hup. }
  apply Hgen. intros img H. discriminate H.
Qed.

Lemma reported_selections_usable_witness :
  let rect := {| left := 0; top := 0; width := 800; height := 600 |} in
  let props := {| isEnhancing := false; historicalSelection := None;
                  useFixedSelectionBox := false;
                  fixedSelectionSizePercentage := 1 # 8 |} in
  let evs :=
    [ImageLoad {| App.src := "blob:a"; App.naturalWidth := 400;
                  App.naturalHeight := 300 |};
     MouseDown {| clientX := 300; clientY := 200; button := 0 |};
     MouseMove {| clientX := 100; clientY := 260; button := 0 |};
     MouseUp] in
  length (snd (run props rect "data:," evs initialState)) = 1%nat /\
  Forall usable (snd (run props rect "data:," evs initialState)).
Proof.
  intros rect props evs. split; [vm_compute; reflexivity |].
  apply (reported_selections_usable props rect "data:," evs);
    try reflexivity.
  repeat constructor.
Defined.

End DisplayProps.

(** ** More on padding, the requested size and the crop *)

Module PaddingMore.
Import Types JsNumber Padding.
Local Open Scope Q_scope.

(** [Math.round] returns an integer within half a unit of its argument,
    ties going up. *)
Lemma Math_round_bounds (v : Q) :
  v - (1 # 2) < Math_round v /\ Math_round v <= v + (1 # 2) /\
  exists n : Z, Math_round v = inject_Z n.
Proof.
  unfold Math_round.
  pose proof (Qfloor_le (v + (1 # 2))) as Hle.
  pose proof (Qlt_floor (v + (1 # 2))) as Hlt.
  rewrite inject_Z_plus in Hlt.
  change (inject_Z 1) with 1 in Hlt.
  split; [lra | split; [lra | eexists; reflexivity]].
Qed.

(** X11. The size requested for the padded crop, and the size of the final
    crop, keep the aspect ratio of their rectangle up to half a pixel:
    the height is an integer within 1/2 of [1024 * h / w], and it is at
    least 1 exactly when [1024 * h / w >= 1/2]. *)
Theorem requested_height_keeps_aspect (r : Rect) :
  0 < w r ->
  let ideal := 1024 * (h r / w r) in
  (ideal - (1 # 2) < targetHeight r /\ targetHeight r <= ideal + (1 # 2) /\
   (exists n : Z, targetHeight r = inject_Z n) /\
   (1 <= targetHeight r <-> 1 # 2 <= ideal)) /\
  finalImageHeight r = targetHeight r.
Proof.
  intros _ ideal. split; [| reflexivity].
  unfold targetHeight, targetWidth. fold ideal.
  destruct (Math_round_bounds ideal) as (Hlo & Hhi & n & Hn).
  split; [exact Hlo | split; [exact Hhi | split; [exists n; exact Hn |]]].
  rewrite Hn in *. split.
  - intros H1. lra.
  - intros Hhalf.
    assert (Hpos : 0 < inject_Z n) by lra.
    change 0 with (inject_Z 0) in Hpos. rewrite <- Zlt_Qlt in Hpos.
    change 1 with (inject_Z 1). rewrite <- Zle_Qle. lia.
Qed.

Lemma requested_height_keeps_aspect_witness :
  targetHeight {| x := 80; y := 90; w := 80; h := 120 |} <= 1536 + (1 # 2) /\
  1 <= targetHeight {| x := 80; y := 90; w := 80; h := 120 |}.
Proof.
  destruct (requested_height_keeps_aspect
              {| x := 80; y := 90; w := 80; h := 120 |})
    as ((_ & Hhi & _ & Hone) & _); [vm_compute; reflexivity |].
  split; [exact Hhi |]. apply Hone. vm_compute. discriminate.
Defined.

(** X12. For a selection of positive size inside the image, the padded
    rectangle (factor 0.5) contains the selection and is at most twice
    as wide and as high; so the crop taken from an enhanced image of any
    size lies inside that image and covers at least half of each of its
    sides. *)
Theorem crop_inside_enhanced_image (W H : Q) (r : Rect) (nw nh : Q) :
  within W H r -> 0 < w r -> 0 < h r -> 0 <= nw -> 0 <= nh ->
  let p := paddedRect W H r in
  let c := finalCropRect r p nw nh in
  contains p r /\ w p <= 2 * w r /\ h p <= 2 * h r /\
  within nw nh c /\ nw <= 2 * w c /\ nh <= 2 * h c.
Proof.
  intros (Hx & Hy & _ & _ & HxW & HyH) Hw Hh Hnw Hnh p c.
  assert (Hp :
    (x p <= x r /\ x r + w r <= x p + w p /\ w p <= 2 * w r) /\
    (y p <= y r /\ y r + h r <= y p + h p /\ h p <= 2 * h r)).
  { subst p. unfold paddedRect, paddedRectWith, padding. cbn [x y w h].
    split;
      repeat match goal with
      | |- context [Qmax ?a ?b] =>
          destruct (Q.max_spec a b) as [[? ->] | [? ->]]
      | |- context [Qmin ?a ?b] =>
          destruct (Q.min_spec a b) as [[? ->] | [? ->]]
      end; repeat split; lra. }
  destruct Hp as [(Hpx & Hpx2 & Hpw) (Hpy & Hpy2 & Hph)].
  split; [repeat split; assumption |].
  split; [exact Hpw | split; [exact Hph |]].
  assert (Hwp : 0 < w p) by lra. assert (Hhp : 0 < h p) by lra.
  subst c. unfold within, finalCropRect. cbn [x y w h].
  assert (Efrac : forall a b : Q, 0 < b -> a / b * b == a)
    by (intros a b Hb; field; lra).
  pose proof (Efrac (x r - x p) (w p) Hwp) as E1.
  pose proof (Efrac (y r - y p) (h p) Hhp) as E2.
  pose proof (Efrac (w r) (w p) Hwp) as E3.
  pose proof (Efrac (h r) (h p) Hhp) as E4.
  revert E1 E2 E3 E4.
  generalize ((x r - x p) / w p) ((y r - y p) / h p) (w r / w p) (h r / h p).
  intros fx fy fw fh E1 E2 E3 E4.
  assert (Hfx : 0 <= fx) by nra. assert (Hfy : 0 <= fy) by nra.
  assert (Hfw : 1 # 2 <= fw) by nra. assert (Hfh : 1 # 2 <= fh) by nra.
  assert (Hfxw : fx + fw <= 1) by nra. assert (Hfyh : fy + fh <= 1) by nra.
  repeat split; nra.
Qed.

Lemma crop_inside_enhanced_image_witness :
  let r := {| x := 10; y := 10; w := 100; h := 100 |} in
  let p := paddedRect 500 500 r in
  within 1024 1024 (finalCropRect r p 1024 1024) /\ w p <= 2 * w r.
Proof.
  intros r p.
  destruct (crop_inside_enhanced_image 500 500 r 1024 1024)
    as (_ & Hw & _ & Hin & _);
    [repeat split; vm_compute; discriminate
    | vm_compute; reflexivity | vm_compute; reflexivity
    | vm_compute; discriminate | vm_compute; discriminate |].
  split; [exact Hin | exact Hw].
Defined.

(** X13. The padding clamps each edge on its own and does not look at the
    other one: for a selection whose padded left edge lies right of the
    image, the padded rectangle has negative width. *)
Theorem padded_width_negative_right_of_image (p W H : Q) (r : Rect) :
  0 <= W -> 0 <= p -> 0 <= w r -> W < x r - w r * p ->
  w (paddedRectWith p W H r) < 0.
Proof.
  intros HW Hp Hw Hout.
  assert (Hwp : 0 <= w r * p) by (apply Qmult_le_0_compat; assumption).
  unfold paddedRectWith. cbn [w].
  assert (Ew : w r * (1 + 2 * p) == w r + 2 * (w r * p)) by ring.
  revert Ew Hwp Hout.
  generalize (w r * (1 + 2 * p)) (w r * p). intros pw wp Ew Hwp Hout.
  destruct (Q.max_spec 0 (x r - wp)) as [[? ->] | [? ->]];
    destruct (Q.min_spec W (x r - wp + pw)) as [[? ->] | [? ->]]; lra.
Qed.

Lemma padded_width_negative_right_of_image_witness :
  w (paddedRect 500 500 {| x := 700; y := 10; w := 100; h := 100 |}) < 0.
Proof.
  apply (padded_width_negative_right_of_image padding 500 500);
    vm_compute; try discriminate; reflexivity.
Defined.

End PaddingMore.

(** ** The bound of the history pointer *)

Module PointerProps.
Import Types Promise JsArray JsArrayProps App Scenario HistoryProps Pointer.
Local Open Scope Z_scope.

Lemma pointerInside_same (s s' : State) :
  history s' = history s -> historyIndex s' = historyIndex s ->
  pointerInside s -> pointerInside s'.
Proof. unfold pointerInside. intros -> ->. exact id. Qed.

Lemma pointerInside_intro (s : State) :
  (history s = [] /\ historyIndex s = -1) \/
  (0 < len (history s) /\ 0 <= historyIndex s <= len (history s)) ->
  pointerInside s.
Proof.
  intros [Hempty | [Hpos Hrange]]; [left; exact Hempty | right].
  split; [| exact Hrange].
  intros Hnil. rewrite Hnil in Hpos. unfold len in Hpos. cbn in Hpos. lia.
Qed.

Lemma pointerInside_elim (s : State) :
  pointerInside s ->
  (history s = [] /\ historyIndex s = -1) \/
  (0 < len (history s) /\ 0 <= historyIndex s <= len (history s)).
Proof.
  intros [H | [Hne H]]; [left; exact H | right].
  split; [| exact H].
  destruct (history s); [contradiction | unfold len; cbn; lia].
Qed.

(** The job never writes the list or the pointer, whether it exists or
    not and however it ends. *)
Lemma runEnhancementJob_frame (env : Env) (s : State) :
  let s' := exec (runEnhancementJob env s) s in
  history s' = history s /\ historyIndex s' = historyIndex s.
Proof.
  intros s'. subst s'.
  unfold runEnhancementJob, runEnhancementJob_try, decodeImage.
  async_unfold.
  repeat (async_case; cbn [fst snd]); cbn; split; reflexivity.
Qed.

(** Regeneration with the pointer at or past the length reads no step
    and changes neither list nor pointer. *)
Lemma regenerate_outside (env : Env) (s : State) :
  len (history s) <= historyIndex s ->
  let s' := exec (handleRegenWithPrompt env s) s in
  history s' = history s /\ historyIndex s' = historyIndex s.
Proof.
  intros Hout s'. subst s'. unfold handleRegenWithPrompt.
  rewrite (get_beyond (history s) (historyIndex s) Hout).
  async_unfold.
  repeat (async_case; cbn [fst snd]); cbn; split; reflexivity.
Qed.

Lemma handleEnhancementComplete_inside (env : Env) (s : State) :
  pointerInside s -> pointerInside (handleEnhancementComplete env s).
Proof.
  intros Hs.
  assert (Hlow : -1 <= historyIndex s <= len (history s))
    by (destruct (pointerInside_elim s Hs) as [[Hnil ->] | H];
        [rewrite Hnil; unfold len; cbn |]; lia).
  unfold handleEnhancementComplete.
  destruct (enhancedImageSrc s) as [url |]; [| exact Hs].
  destruct (newHistoryEntryData s) as [[d r] |]; [| exact Hs].
  destruct (ServiceEnhance.truthy url); [| exact Hs].
  rewrite slice_prefix by lia.
  assert (Hlen : 0 <= len (take (Z.to_nat (historyIndex s + 1)) (history s))
                 <= historyIndex s + 1)
    by (unfold len; rewrite length_take; lia).
  destruct (newImage env url); apply pointerInside_intro; right; cbn;
    rewrite len_app; unfold len in *; cbn; lia.
Qed.

Lemma loadInitialImage_inside (env : Env) (s : State) :
  pointerInside s -> pointerInside (loadInitialImage env s).
Proof.
  intros Hs. unfold loadInitialImage.
  destruct (fetchInitialImage env) as [url | e];
    [| exact (pointerInside_same s _ eq_refl eq_refl Hs)].
  destruct (newImage env url);
    [| exact (pointerInside_same s _ eq_refl eq_refl Hs)].
  apply pointerInside_intro. right. cbn. unfold len. cbn. lia.
Qed.

Lemma handleRegenWithPrompt_inside (env : Env) (s : State) :
  pointerInside s -> pointerInside (exec (handleRegenWithPrompt env s) s).
Proof.
  intros Hs.
  destruct (Z.le_gt_cases (historyIndex s) 0) as [Hle | Hgt].
  - unfold handleRegenWithPrompt.
    destruct (Z.leb_spec (historyIndex s) 0) as [_ | Hlt]; [| lia].
    exact Hs.
  - destruct (Z.le_gt_cases (len (history s)) (historyIndex s))
      as [Hout | Hin].
    + destruct (regenerate_outside env s Hout) as [Hh Hi].
      exact (pointerInside_same s _ Hh Hi Hs).
    + destruct (regenerate_frame env s (conj Hgt Hin))
        as [Hi [Hsame | (newStep & Hnew & _)]].
      * exact (pointerInside_same s _ Hsame Hi Hs).
      * apply pointerInside_intro. right.
        rewrite Hi, Hnew, len_app, len_take by lia.
        unfold len. cbn. lia.
Qed.

(** X14. Each handler that writes the list or the pointer, started in
    a state whose pointer is [-1] on the empty history and otherwise
    between 0 and the length, and run to completion on that state
    (nothing else writes the state while it awaits), ends in such a
    state.  The length itself is reached by the full-image path. *)
Theorem handlers_keep_pointer_inside (env : Env) (s : State) :
  pointerInside s ->
  pointerInside (loadInitialImage env s) /\
  pointerInside (resetState env s) /\
  (forall file, pointerInside (exec (handleFileDrop env file s) s)) /\
  (forall o sc url,
     pointerInside (exec (handleSelection env o sc url s) s)) /\
  pointerInside (exec (runEnhancementJob env s) s) /\
  pointerInside (handleEnhancementComplete env s) /\
  pointerInside (exec (handleUndo env s) s) /\
  pointerInside (exec (handleRedo env s) s) /\
  pointerInside (exec (handleRegenWithPrompt env s) s) /\
  pointerInside (exec (handleAutoEnhance env s) s).
Proof.
  intros Hs.
  assert (Hlow : -1 <= historyIndex s)
    by (destruct (pointerInside_elim s Hs) as [[_ ->] | H]; lia).
  split; [apply loadInitialImage_inside; exact Hs |].
  split.
  { unfold resetState. apply loadInitialImage_inside.
    left. split; reflexivity. }
  split.
  { intros file. unfold handleFileDrop. async_unfold.
    repeat (async_case; cbn [fst snd]);
      first [ exact (pointerInside_same s _ eq_refl eq_refl Hs)
            | apply pointerInside_intro; right; cbn; unfold len; cbn; lia ]. }
  split.
  { intros o sc url.
    destruct (handleSelection_history env o sc url s Hlow)
      as [Hi [Hsame | [Hlt Hcut]]].
    - exact (pointerInside_same s _ Hsame Hi Hs).
    - apply pointerInside_intro. right. rewrite Hi, Hcut.
      destruct (pointerInside_elim s Hs) as [[Hnil Hm] | [Hpos Hrange]].
      + rewrite Hnil, Hm in Hlt. unfold len in Hlt. cbn in Hlt. lia.
      + rewrite len_take by lia. lia. }
  split.
  { destruct (runEnhancementJob_frame env s) as [Hh Hi].
    exact (pointerInside_same s _ Hh Hi Hs). }
  split; [apply handleEnhancementComplete_inside; exact Hs |].
  split.
  { destruct (handleUndo_history env s) as [Hh [Hi | [Hpos Hi]]].
    - exact (pointerInside_same s _ Hh Hi Hs).
    - apply pointerInside_intro. right. rewrite Hh, Hi.
      destruct (pointerInside_elim s Hs) as [[_ Hm] | H]; lia. }
  split.
  { destruct (handleRedo_history env s) as [Hh [Hi | [Hlt Hi]]].
    - exact (pointerInside_same s _ Hh Hi Hs).
    - apply pointerInside_intro. right. rewrite Hh, Hi.
      destruct (pointerInside_elim s Hs) as [[Hnil Hm] | H]; [| lia].
      rewrite Hnil, Hm in Hlt. unfold len in Hlt. cbn in Hlt. lia. }
  split; [apply handleRegenWithPrompt_inside; exact Hs |].
  destruct (handleAutoEnhance_history env s Hlow)
    as [[Hh Hi] | [[newStep Hnew] Hi]].
  - exact (pointerInside_same s _ Hh Hi Hs).
  - apply pointerInside_intro. right. rewrite Hi, Hnew, len_app.
    unfold len. cbn. lia.
Qed.

Lemma handlers_keep_pointer_inside_witness :
  let s' := exec (handleAutoEnhance okEnv freshState) freshState in
  pointerInside s' /\ historyIndex s' = len (history s').
Proof.
  intros s'.
  assert (Hs : pointerInside freshState)
    by (right; split; [discriminate | vm_compute; split; discriminate]).
  destruct (handlers_keep_pointer_inside okEnv freshState Hs)
    as (_ & _ & _ & _ & _ & _ & _ & _ & _ & Hauto).
  split; [exact Hauto | vm_compute; reflexivity].
Defined.

(** X15. Undo and redo rely on that bound.  In a state whose pointer
    is [-1] on the empty history and otherwise between 0 and the
    length, both find the step they read and return normally.  With
    the pointer beyond the length, an undo that passes its guard reads
    a step that does not exist and throws. *)
Theorem undo_redo_rely_on_pointer_bound (env : Env) (s : State) :
  (pointerInside s ->
   snd (handleUndo env s s) = Return tt /\
   snd (handleRedo env s s) = Return tt) /\
  (len (history s) < historyIndex s ->
   appState s <> ENHANCING -> isGeneratingGif s = false ->
   snd (handleUndo env s s) = Throw TypeError).
Proof.
  split.
  - intros Hs.
    destruct (pointerInside_elim s Hs) as [[Hnil Hm] | [Hpos Hrange]].
    + unfold handleUndo, handleRedo. rewrite Hm, Hnil. split; reflexivity.
    + split.
      * unfold handleUndo.
        destruct (Z.leb_spec (historyIndex s) 0) as [_ | Hgt];
          [reflexivity |].
        destruct (_ || _); [reflexivity |].
        async_unfold. cbn [fst snd].
        destruct (get_in_range (history s) (historyIndex s - 1))
          as [st Hst]; [lia |].
        rewrite Hst. destruct (newImage env (imageSrc st)); reflexivity.
      * unfold handleRedo.
        destruct (Z.geb_spec (historyIndex s) (len (history s) - 1))
          as [_ | Hlt]; [reflexivity |].
        destruct (_ || _); [reflexivity |].
        async_unfold. cbn [fst snd].
        destruct (get_in_range (history s) (historyIndex s + 1))
          as [st Hst]; [lia |].
        rewrite Hst. destruct (newImage env (imageSrc st)); reflexivity.
  - intros Hout Hstate Hgif.
    assert (Hlen : 0 <= len (history s)) by (unfold len; lia).
    assert (Ea : AppState_eqb (appState s) ENHANCING = false)
      by (destruct (appState s); try reflexivity; contradiction).
    unfold handleUndo.
    destruct (Z.leb_spec (historyIndex s) 0) as [Hle | _]; [lia |].
    rewrite Ea, Hgif. cbn [orb].
    rewrite (get_beyond (history s) (historyIndex s - 1)) by lia.
    async_unfold. reflexivity.
Qed.

Lemma undo_redo_rely_on_pointer_bound_witness :
  let atLength := exec (handleAutoEnhance okEnv freshState) freshState in
  let beyond := setHistoryIndex 3 oneStep in
  snd (handleUndo okEnv atLength atLength) = Return tt /\
  len (history beyond) = 2 /\
  snd (handleUndo okEnv beyond beyond) = Throw TypeError.
Proof.
  intros atLength beyond.
  destruct (undo_redo_rely_on_pointer_bound okEnv atLength) as [Hin _].
  destruct (undo_redo_rely_on_pointer_bound okEnv beyond) as [_ Hout].
  split.
  - apply Hin. right.
    split; [vm_compute; discriminate | vm_compute; split; discriminate].
  - split; [vm_compute; reflexivity |].
    apply Hout;
      [vm_compute; reflexivity | vm_compute; discriminate
      | vm_compute; reflexivity].
Defined.

End PointerProps.

(** ** More on the handlers of [App.tsx] *)

Module AppProps.
Import Types Promise JsArray JsArrayProps App Scenario HistoryProps.
Local Open Scope Z_scope.

(** X16. [getApiErrorMessage] never returns the empty string: every caught
    error puts a visible banner on the screen. *)
Theorem error_message_never_empty (env : Env) (error : Error) :
  ServiceEnhance.truthy (getApiErrorMessage env error) = true.
Proof.
  unfold getApiErrorMessage.
  destruct (message error) as [m |]; [| reflexivity].
  destruct (ServiceEnhance.truthy m) eqn:Em; [| reflexivity].
  destruct (JSON_apiError env m) as [[parsed [st |]] |]; [| reflexivity | exact Em].
  destruct (String.eqb st "RESOURCE_EXHAUSTED"); reflexivity.
Qed.

(** X17. Regeneration is rejected at the root step, while an enhancement
    runs and while a GIF is generated: neither the click on "Re-gen" nor
    the confirmation of the dialog changes anything. *)
Theorem regenerate_rejected (env : Env) (s : State) :
  historyIndex s <= 0 \/ appState s = ENHANCING \/ isGeneratingGif s = true ->
  handleRegenerateClick s = s /\
  handleRegenWithPrompt env s s = (s, Return tt).
Proof.
  intros Hguard.
  assert (E : (historyIndex s <=? 0) || AppState_eqb (appState s) ENHANCING
              || isGeneratingGif s = true).
  { destruct Hguard as [Hi | [Ha | Hg]].
    - apply Z.leb_le in Hi. rewrite Hi. reflexivity.
    - rewrite Ha. cbn [AppState_eqb]. rewrite orb_true_r. reflexivity.
    - rewrite Hg. rewrite orb_true_r. reflexivity. }
  unfold handleRegenerateClick, handleRegenWithPrompt. rewrite E.
  split; reflexivity.
Qed.

Lemma regenerate_rejected_witness :
  handleRegenWithPrompt okEnv freshState freshState = (freshState, Return tt).
Proof.
  destruct (regenerate_rejected okEnv freshState) as [_ H];
    [left; vm_compute; discriminate | exact H].
Defined.

(** X18. With the pointer on the length of the list (where a full-image
    enhancement leaves it), regeneration finds no current step: it
    throws after switching to [ENHANCING], and nothing switches back. *)
Theorem regenerate_past_the_end_sticks (env : Env) (s : State) :
  0 < historyIndex s -> len (history s) <= historyIndex s ->
  appState s <> ENHANCING -> isGeneratingGif s = false ->
  let s' := exec (handleRegenWithPrompt env s) s in
  snd (handleRegenWithPrompt env s s) = Throw TypeError /\
  appState s' = ENHANCING /\
  history s' = history s /\ historyIndex s' = historyIndex s /\
  image s' = image s.
Proof.
  intros Hpos Hout Hstate Hgif s'. subst s'.
  unfold handleRegenWithPrompt.
  destruct (Z.leb_spec (historyIndex s) 0) as [Hle | _]; [lia |].
  rewrite Hgif.
  assert (Ea : AppState_eqb (appState s) ENHANCING = false)
    by (destruct (appState s); try reflexivity; contradiction).
  rewrite Ea. cbn [orb].
  rewrite (get_beyond (history s) (historyIndex s) Hout).
  async_unfold. cbn. repeat split; reflexivity.
Qed.

Lemma regenerate_past_the_end_sticks_witness :
  let s := exec (handleAutoEnhance okEnv freshState) freshState in
  appState s = LOADED /\
  appState (exec (handleRegenWithPrompt okEnv s) s) = ENHANCING.
Proof.
  intros s. split; [vm_compute; reflexivity |].
  assert (H1 : 0 < historyIndex s) by (vm_compute; reflexivity).
  assert (H2 : len (history s) <= historyIndex s)
    by (vm_compute; discriminate).
  assert (H3 : appState s <> ENHANCING) by (vm_compute; discriminate).
  assert (H4 : isGeneratingGif s = false) by (vm_compute; reflexivity).
  destruct (regenerate_past_the_end_sticks okEnv s H1 H2 H3 H4)
    as (_ & H & _).
  exact H.
Defined.

(** X19. A regeneration whose enhancement call fails, or whose result does
    not decode, leaves list, pointer and displayed image alone, closes
    the dialog, puts the message of the error on the banner and returns
    to [LOADED]. *)
Theorem regenerate_failure_keeps_history (env : Env) (s : State)
    (current previous : HistoryStep) (r : Rect)
    (sourceImage : HTMLImageElement) (cropped : string) :
  0 < historyIndex s -> appState s <> ENHANCING ->
  isGeneratingGif s = false ->
  get (history s) (historyIndex s) = Some current ->
  originalRect current = Some r ->
  get (history s) (historyIndex s - 1) = Some previous ->
  newImage env (imageSrc previous) = Some sourceImage ->
  let padded :=
    Padding.paddedRect (naturalWidth sourceImage) (naturalHeight sourceImage)
      r in
  cropImage env sourceImage padded Padding.targetWidth
    (Padding.targetHeight padded) false = Return cropped ->
  let enhance :=
    callServiceEnhance env cropped
      (map (fun d => ServiceEnhance.orElse (prompt d) EmptyString)
           (descriptionHistory (history s) (historyIndex s))
       ++ [ServiceEnhance.orElse (regenPrompt s) EmptyString])
      (seekNanoBanana s) (sharpness s) (denoise s) (imagination s) in
  let s' := exec (handleRegenWithPrompt env s) s in
  let failedWith e :=
    history s' = history s /\ historyIndex s' = historyIndex s /\
    image s' = image s /\ finalImageSrc s' = finalImageSrc s /\
    isRegenPromptVisible s' = false /\ appState s' = LOADED /\
    errorMessage s' = Some (getApiErrorMessage env e) in
  (forall e, enhance = Throw e -> failedWith e) /\
  (forall enhanced, enhance = Return enhanced ->
     newImage env (ServiceEnhance.imageSrc enhanced) = None ->
     failedWith {| message := None |}).
Proof.
  intros Hpos Hstate Hgif Hcur Hrect Hprev Hsrc padded Hcrop.
  cbv zeta. subst padded.
  unfold handleRegenWithPrompt, handleRegenWithPrompt_try, decodeImage.
  destruct (Z.leb_spec (historyIndex s) 0) as [Hle | _]; [lia |].
  assert (Ea : AppState_eqb (appState s) ENHANCING = false)
    by (destruct (appState s); try reflexivity; contradiction).
  rewrite Ea, Hgif, Hcur, Hrect, Hprev, Hsrc. cbn [orb].
  async_unfold. rewrite Hcrop. cbn [fst snd prompt].
  match goal with
  | |- context [callServiceEnhance ?a ?b ?c ?d ?e ?f ?g] =>
      destruct (callServiceEnhance a b c d e f g) as [enh | err]
  end.
  - split; [intros e He; discriminate He |].
    intros enhanced [= <-] Hnone.
    destruct (ServiceEnhance.foundTheBanana enh); cbn [fst snd];
      rewrite Hnone; cbn; repeat split; reflexivity.
  - split; [| intros enhanced He; discriminate He].
    intros e [= <-]. cbn. repeat split; reflexivity.
Qed.

Lemma regenerate_failure_keeps_history_witness :
  let s' := exec (handleRegenWithPrompt quotaEnv retyped) retyped in
  history s' = history retyped /\ appState s' = LOADED /\
  errorMessage s' = Some "RESOURCE_EXHAUSTED"%string.
Proof.
  intros s'.
  assert (H1 : 0 < historyIndex retyped) by (vm_compute; reflexivity).
  assert (H2 : appState retyped <> ENHANCING) by (vm_compute; discriminate).
  destruct (regenerate_failure_keeps_history quotaEnv retyped
              (default {| imageSrc := EmptyString; description := None;
                          originalRect := None |}
                 (get (history retyped) 1))
              (default {| imageSrc := EmptyString; description := None;
                          originalRect := None |}
                 (get (history retyped) 0))
              scenarioRect
              {| src := "blob:living_room"; naturalWidth := 500%Q;
                 naturalHeight := 500%Q |}
              "data:image/png;base64,CROP"
              H1 H2 eq_refl eq_refl eq_refl eq_refl eq_refl eq_refl)
    as [Hthrow _].
  destruct (Hthrow (new_Error "RESOURCE_EXHAUSTED") eq_refl)
    as (Hh & _ & _ & _ & _ & Hstate & Hmsg).
  split; [exact Hh | split; [exact Hstate | exact Hmsg]].
Defined.

(** X20. A failing auto-enhance leaves list, pointer and image alone and
    returns to [LOADED] with the message of the error.  The three dials
    keep their values when the analysis itself failed, and already show
    the advisor's values when the failure came after it (description or
    enhancement). *)
Theorem auto_enhance_failure_keeps_history (env : Env) (s : State)
    (img : HTMLImageElement) (url : string) :
  image s = Some img ->
  appState s = LOADED \/ appState s = IDLE ->
  imageToDataUrl env img = Return url ->
  let s' := exec (handleAutoEnhance env s) s in
  let described := descriptionHistory (history s) (historyIndex s + 1) in
  let failedWith e :=
    history s' = history s /\ historyIndex s' = historyIndex s /\
    image s' = image s /\ appState s' = LOADED /\
    errorMessage s' = Some (getApiErrorMessage env e) in
  let dialsAt a b c :=
    sharpness s' = a /\ denoise s' = b /\ imagination s' = c in
  (forall e, serviceAnalyzeForOptimalSettings env url = Throw e ->
     failedWith e /\ dialsAt (sharpness s) (denoise s) (imagination s)) /\
  (forall st e, serviceAnalyzeForOptimalSettings env url = Return st ->
     serviceDescribeImage env url described true = Throw e ->
     failedWith e /\
     dialsAt (opt_sharpness st) (opt_denoise st) (opt_imagination st)) /\
  (forall st d e, serviceAnalyzeForOptimalSettings env url = Return st ->
     serviceDescribeImage env url described true = Return d ->
     callServiceEnhance env url (map prompt described ++ [prompt d])
       (seekNanoBanana s) (opt_sharpness st) (opt_denoise st)
       (opt_imagination st) = Throw e ->
     failedWith e /\
     dialsAt (opt_sharpness st) (opt_denoise st) (opt_imagination st)).
Proof.
  intros Himg Hstate Hurl. cbv zeta.
  unfold handleAutoEnhance, runFullImageEnhancement,
    runFullImageEnhancement_try.
  rewrite Himg.
  assert (Eg : negb (AppState_eqb (appState s) LOADED)
               && negb (AppState_eqb (appState s) IDLE) = false)
    by (destruct Hstate as [-> | ->]; reflexivity).
  rewrite Eg. async_unfold. rewrite Hurl. cbn [fst snd].
  split; [| split].
  - intros e ->. cbn. repeat split; try reflexivity; exact Himg.
  - intros st e -> Hd. cbn [fst snd]. rewrite Hd.
    cbn. repeat split; try reflexivity; exact Himg.
  - intros st d e -> Hd He. cbn [fst snd]. rewrite Hd. cbn [fst snd].
    rewrite He. cbn. repeat split; try reflexivity; exact Himg.
Qed.

Lemma auto_enhance_failure_keeps_history_witness :
  let s' := exec (handleAutoEnhance quotaEnv freshState) freshState in
  history s' = history freshState /\ appState s' = LOADED /\
  sharpness s' = 70%Q.
Proof.
  intros s'.
  assert (Hi : image freshState
               = Some {| src := "blob:living_room"; naturalWidth := 500%Q;
                         naturalHeight := 500%Q |})
    by (vm_compute; reflexivity).
  assert (Hs : appState freshState = LOADED \/ appState freshState = IDLE)
    by (left; vm_compute; reflexivity).
  destruct (auto_enhance_failure_keeps_history quotaEnv freshState _
              "data:image/png;base64,FULL" Hi Hs eq_refl)
    as (_ & _ & Henh).
  destruct (Henh {| opt_sharpness := 70%Q; opt_denoise := 30%Q;
                    opt_imagination := 10%Q |}
              {| selectionDescription := "a lamp on a table";
                 prompt := "a brass lamp" |}
              (new_Error "RESOURCE_EXHAUSTED") eq_refl eq_refl eq_refl)
    as ((Hh & _ & _ & Hl & _) & (Hsh & _)).
  split; [exact Hh | split; [exact Hl | exact Hsh]].
Defined.

(** X21. A successful auto-enhance enhances with the advisor's settings of
    this very call, not with the dials of the render it started from;
    the step it appends covers the whole source image, carries the
    description and the enhanced image as returned (no final crop), and
    the dials end on the advisor's values.  A banner left by an earlier
    failure is not cleared. *)
Theorem auto_enhance_commits_full_image (env : Env) (s : State)
    (img newImg : HTMLImageElement) (url : string) (st : OptimalSettings)
    (d : ImageDescription) (enhanced : ServiceEnhance.Enhanced) :
  image s = Some img ->
  appState s = LOADED \/ appState s = IDLE ->
  -1 <= historyIndex s ->
  imageToDataUrl env img = Return url ->
  serviceAnalyzeForOptimalSettings env url = Return st ->
  let described := descriptionHistory (history s) (historyIndex s + 1) in
  serviceDescribeImage env url described true = Return d ->
  callServiceEnhance env url (map prompt described ++ [prompt d])
    (seekNanoBanana s) (opt_sharpness st) (opt_denoise st)
    (opt_imagination st) = Return enhanced ->
  newImage env (ServiceEnhance.imageSrc enhanced) = Some newImg ->
  let s' := exec (handleAutoEnhance env s) s in
  history s'
    = take (Z.to_nat (historyIndex s + 1)) (history s)
      ++ [{| imageSrc := ServiceEnhance.imageSrc enhanced;
             description := Some d;
             originalRect :=
               Some {| x := 0%Q; y := 0%Q;
                       w := naturalWidth img; h := naturalHeight img |} |}] /\
  sharpness s' = opt_sharpness st /\ denoise s' = opt_denoise st /\
  imagination s' = opt_imagination st /\
  image s' = Some newImg /\
  finalImageSrc s' = Some (ServiceEnhance.imageSrc enhanced) /\
  displaySelection s' = None /\ appState s' = LOADED /\
  errorMessage s' = errorMessage s.
Proof.
  intros Himg Hstate Hlow Hurl Hset described Hd He Hnew. cbv zeta.
  subst described.
  unfold handleAutoEnhance, runFullImageEnhancement,
    runFullImageEnhancement_try.
  rewrite Himg.
  assert (Eg : negb (AppState_eqb (appState s) LOADED)
               && negb (AppState_eqb (appState s) IDLE) = false)
    by (destruct Hstate as [-> | ->]; reflexivity).
  rewrite Eg. async_unfold. rewrite Hurl. cbn [fst snd].
  rewrite Hset. cbn [fst snd]. rewrite Hd. cbn [fst snd].
  rewrite He. cbn [fst snd].
  destruct (ServiceEnhance.foundTheBanana enhanced); cbn [fst snd];
    rewrite Hnew; cbn; rewrite slice_prefix by lia;
    repeat split; reflexivity.
Qed.

Lemma auto_enhance_commits_full_image_witness :
  let s' := exec (handleAutoEnhance okEnv freshState) freshState in
  option_map originalRect (get (history s') 1)
    = Some (Some {| x := 0%Q; y := 0%Q; w := 500%Q; h := 500%Q |}) /\
  sharpness s' = 70%Q.
Proof.
  intros s'.
  assert (Hi : image freshState
               = Some {| src := "blob:living_room"; naturalWidth := 500%Q;
                         naturalHeight := 500%Q |})
    by (vm_compute; reflexivity).
  assert (Hs : appState freshState = LOADED \/ appState freshState = IDLE)
    by (left; vm_compute; reflexivity).
  assert (Hl : -1 <= historyIndex freshState) by (vm_compute; discriminate).
  destruct (auto_enhance_commits_full_image okEnv freshState _
              {| src := "data:image/png;base64,ENHANCED";
                 naturalWidth := 500%Q; naturalHeight := 500%Q |}
              "data:image/png;base64,FULL"
              {| opt_sharpness := 70%Q; opt_denoise := 30%Q;
                 opt_imagination := 10%Q |}
              {| selectionDescription := "a lamp on a table";
                 prompt := "a brass lamp" |}
              {| ServiceEnhance.imageSrc := "data:image/png;base64,ENHANCED";
                 ServiceEnhance.foundTheBanana := false |}
              Hi Hs Hl eq_refl eq_refl eq_refl eq_refl eq_refl)
    as (Hh & Hsh & _).
  split; [| exact Hsh].
  fold s' in Hh. rewrite Hh. vm_compute. reflexivity.
Defined.

(** *** Dropped files *)

(** X22. A dropped image that decodes starts a new session on it: a
    one-step list holding the root (no description, no rectangle),
    pointer 0, job, frame, selection, banner and easter-egg flag
    cleared.  Unlike [resetState] it leaves the three dials where they
    are, an unfinished enhancement result included. *)
Theorem file_drop_starts_new_history (env : Env) (file : File) (s : State)
    (img : HTMLImageElement) :
  String.eqb (type file) "image/heic" || String.eqb (type file) "image/heif"
    || endsWith (toLowerCase (name file)) ".heic"
    || endsWith (toLowerCase (name file)) ".heif" = false ->
  startsWith (type file) "image/" = true ->
  newImage env (createObjectURL env file) = Some img ->
  let s' := exec (handleFileDrop env file s) s in
  history s'
    = [{| imageSrc := createObjectURL env file; description := None;
          originalRect := None |}] /\
  historyIndex s' = 0 /\ pointerValid s' /\
  image s' = Some img /\
  finalImageSrc s' = Some (createObjectURL env file) /\
  enhancementJob s' = None /\ finalEnhancementRect s' = None /\
  displaySelection s' = None /\ showBananaBanner s' = false /\
  seekNanoBanana s' = false /\ appState s' = LOADED /\
  errorMessage s' = None /\
  sharpness s' = sharpness s /\ denoise s' = denoise s /\
  imagination s' = imagination s /\
  enhancedImageSrc s' = enhancedImageSrc s /\
  newHistoryEntryData s' = newHistoryEntryData s.
Proof.
  intros Hheic Himage Hnew. cbv zeta.
  unfold handleFileDrop. rewrite Hheic, Himage, Hnew.
  async_unfold. cbn.
  repeat (split; [reflexivity |]).
  split; [| repeat split; reflexivity].
  right. unfold len. cbn. split; [discriminate | lia].
Qed.

Lemma file_drop_starts_new_history_witness :
  let file := {| type := "image/png"; name := "Cat.PNG" |} in
  let s' := exec (handleFileDrop okEnv file twoSteps) twoSteps in
  len (history twoSteps) = 3 /\ len (history s') = 1 /\
  historyIndex s' = 0.
Proof.
  intros file s'.
  destruct (file_drop_starts_new_history okEnv file twoSteps
              {| src := "blob:Cat.PNG"; naturalWidth := 500%Q;
                 naturalHeight := 500%Q |} eq_refl eq_refl eq_refl)
    as (Hh & Hi & _).
  split; [vm_compute; reflexivity |].
  split; [fold s' in Hh; rewrite Hh; reflexivity | exact Hi].
Defined.

(** X23. A HEIC file (by type, or by name in any letter case) whose
    conversion fails leaves list, pointer and image alone, shows a
    message that starts with "HEIC conversion failed", and returns to
    [LOADED] when an image was on display and to [IDLE] otherwise. *)
Theorem heic_failure_keeps_image (env : Env) (file : File) (s : State)
    (e : Error) :
  String.eqb (type file) "image/heic" || String.eqb (type file) "image/heif"
    || endsWith (toLowerCase (name file)) ".heic"
    || endsWith (toLowerCase (name file)) ".heif" = true ->
  heic2any env file = Throw e ->
  let s' := exec (handleFileDrop env file s) s in
  history s' = history s /\ historyIndex s' = historyIndex s /\
  image s' = image s /\ finalImageSrc s' = finalImageSrc s /\
  appState s' = match image s with Some _ => LOADED | None => IDLE end /\
  exists detail,
    errorMessage s' = Some (String.append "HEIC conversion failed" detail).
Proof.
  intros Hheic Hconv. cbv zeta.
  unfold handleFileDrop. rewrite Hheic, Hconv.
  async_unfold. cbn [fst snd].
  do 4 (split; [reflexivity |]).
  split; [destruct (image s); reflexivity |].
  destruct (message e) as [m |]; [destruct (ServiceEnhance.truthy m) |];
    cbn; eexists; reflexivity.
Qed.

Lemma heic_failure_keeps_image_witness :
  let env :=
    {| window_innerWidth := window_innerWidth okEnv;
       window_innerHeight := window_innerHeight okEnv;
       newImage := newImage okEnv;
       cropImage := cropImage okEnv;
       imageToDataUrl := imageToDataUrl okEnv;
       serviceDescribeImage := serviceDescribeImage okEnv;
       generateContent := generateContent okEnv;
       JSON_flag := JSON_flag okEnv;
       serviceAnalyzeForOptimalSettings :=
         serviceAnalyzeForOptimalSettings okEnv;
       JSON_apiError := JSON_apiError okEnv;
       fetchInitialImage := fetchInitialImage okEnv;
       heic2any := fun _ => Throw (new_Error "ERR_LIBHEIF format not supported");
       createObjectURL := createObjectURL okEnv |} in
  let file := {| type := EmptyString; name := "IMG_0042.HEIC" |} in
  let s' := exec (handleFileDrop env file twoSteps) twoSteps in
  history s' = history twoSteps /\ appState s' = LOADED.
Proof.
  intros env file s'.
  destruct (heic_failure_keeps_image env file twoSteps
              (new_Error "ERR_LIBHEIF format not supported")
              eq_refl eq_refl)
    as (Hh & _ & _ & _ & Hs & _).
  split; [exact Hh | exact Hs].
Defined.

(** *** Undo and redo *)

(** X24. One undo shows the previous step and marks, on it, the rectangle
    that the undone step had zoomed into; the redo that follows brings
    back pointer, image and displayed source of the step it started
    from.  Neither changes the list. *)
Theorem undo_then_redo_restores (env : Env) (s : State)
    (current previous : HistoryStep) (imgCur imgPrev : HTMLImageElement) :
  0 < historyIndex s -> appState s <> ENHANCING ->
  isGeneratingGif s = false ->
  get (history s) (historyIndex s) = Some current ->
  get (history s) (historyIndex s - 1) = Some previous ->
  newImage env (imageSrc previous) = Some imgPrev ->
  newImage env (imageSrc current) = Some imgCur ->
  let s1 := exec (handleUndo env s) s in
  let s2 := exec (handleRedo env s1) s1 in
  (history s1 = history s /\ historyIndex s1 = historyIndex s - 1 /\
   image s1 = Some imgPrev /\ finalImageSrc s1 = Some (imageSrc previous) /\
   displaySelection s1 = originalRect current) /\
  (history s2 = history s /\ historyIndex s2 = historyIndex s /\
   image s2 = Some imgCur /\ finalImageSrc s2 = Some (imageSrc current) /\
   displaySelection s2
     = originalRectOf (get (history s) (historyIndex s + 1))).
Proof.
  intros Hpos Hstate Hgif Hcur Hprev Hip Hic.
  assert (Hlen : historyIndex s < len (history s)).
  { destruct (Z.lt_ge_cases (historyIndex s) (len (history s)))
      as [Hlt | Hge]; [exact Hlt |].
    rewrite (get_beyond _ _ Hge) in Hcur. discriminate Hcur. }
  assert (Ea : AppState_eqb (appState s) ENHANCING = false)
    by (destruct (appState s); try reflexivity; contradiction).
  assert (Eundo : exec (handleUndo env s) s
            = setFinalImageSrc (Some (imageSrc previous))
                (setImage (Some imgPrev)
                   (setDisplaySelection (originalRect current)
                      (setHistoryIndex (historyIndex s - 1) s)))).
  { unfold exec, handleUndo.
    destruct (Z.leb_spec (historyIndex s) 0) as [Hle | _]; [lia |].
    rewrite Ea, Hgif. cbn [orb].
    replace (historyIndex s - 1 + 1) with (historyIndex s) by lia.
    rewrite Hcur, Hprev, Hip. async_unfold. reflexivity. }
  cbv zeta. rewrite Eundo.
  split; [repeat split; reflexivity |].
  unfold exec, handleRedo.
  cbn [historyIndex history appState isGeneratingGif
       setFinalImageSrc setImage setDisplaySelection setHistoryIndex].
  destruct (Z.geb_spec (historyIndex s - 1) (len (history s) - 1))
    as [Hge | _]; [lia |].
  rewrite Ea, Hgif. cbn [orb].
  replace (historyIndex s - 1 + 1) with (historyIndex s) by lia.
  rewrite Hcur, Hic. async_unfold. cbn. repeat split; reflexivity.
Qed.

Lemma undo_then_redo_restores_witness :
  let s1 := exec (handleUndo okEnv oneStep) oneStep in
  let s2 := exec (handleRedo okEnv s1) s1 in
  historyIndex s1 = 0 /\ displaySelection s1 = Some scenarioRect /\
  historyIndex s2 = 1 /\ finalImageSrc s2 = finalImageSrc oneStep.
Proof.
  intros s1 s2.
  assert (H1 : 0 < historyIndex oneStep) by (vm_compute; reflexivity).
  assert (H2 : appState oneStep <> ENHANCING) by (vm_compute; discriminate).
  destruct (undo_then_redo_restores okEnv oneStep
              (default {| imageSrc := EmptyString; description := None;
                          originalRect := None |}
                 (get (history oneStep) 1))
              (default {| imageSrc := EmptyString; description := None;
                          originalRect := None |}
                 (get (history oneStep) 0))
              {| src := "data:image/png;base64,CROP"; naturalWidth := 500%Q;
                 naturalHeight := 500%Q |}
              {| src := "blob:living_room"; naturalWidth := 500%Q;
                 naturalHeight := 500%Q |}
              H1 H2 eq_refl eq_refl eq_refl eq_refl eq_refl)
    as ((_ & Hi1 & _ & _ & Hd1) & (_ & Hi2 & _ & Hf2 & _)).
  split; [exact Hi1 |]. split; [exact Hd1 |].
  split; [exact Hi2 |]. exact Hf2.
Defined.

(** *** The frame of a confirmed selection *)

(** X25. The frame into which the enhanced selection is animated keeps the
    aspect ratio of the selection, fits in 95% of the window while
    filling one of the two axes, and is centred in the window.  It is
    set before the placeholder crop is awaited, so it is there whatever
    the crop does. *)
Theorem selection_frame_fits_window (env : Env) (r screen : Rect)
    (url : string) (s : State) (img : HTMLImageElement) :
  image s = Some img ->
  (0 < w r)%Q -> (0 < h r)%Q ->
  (0 < window_innerWidth env)%Q -> (0 < window_innerHeight env)%Q ->
  let s' := exec (handleSelection env r screen url s) s in
  let maxWidth := (window_innerWidth env * (95 # 100))%Q in
  let maxHeight := (window_innerHeight env * (95 # 100))%Q in
  appState s' = ENHANCING /\
  exists frame,
    finalEnhancementRect s' = Some frame /\
    (w frame * h r == h frame * w r)%Q /\
    (w frame <= maxWidth)%Q /\ (h frame <= maxHeight)%Q /\
    (w frame == maxWidth \/ h frame == maxHeight)%Q /\
    (x frame + w frame / 2 == window_innerWidth env / 2)%Q /\
    (y frame + h frame / 2 == window_innerHeight env / 2)%Q.
Proof.
  intros Himg Hw Hh HW HH. cbv zeta.
  unfold handleSelection. rewrite Himg.
  pose proof (DisplayProps.Qdiv_pos _ _ Hw Hh) as Ha.
  assert (Ea : (w r / h r * h r == w r)%Q) by (field; lra).
  revert Ha Ea. generalize (w r / h r)%Q. intros a Ha Ea.
  destruct (JsNumber.Qltb (window_innerHeight env * (1 - (5 # 100)))
              (window_innerWidth env * (1 - (5 # 100)) / a)) eqn:Et.
  - apply DisplayProps.Qltb_true in Et.
    apply (DisplayProps.mul_lt_of_lt_div _ _ _ Ha) in Et.
    async_unfold.
    split; [repeat (async_case; cbn [fst snd]); reflexivity |].
    eexists. split; [repeat (async_case; cbn [fst snd]); reflexivity |].
    cbn [w h x y].
    split; [nra |]. split; [nra |]. split; [lra |].
    split; [right; lra |]. split; field.
  - apply DisplayProps.Qltb_false in Et.
    assert (Eb : (window_innerWidth env * (1 - (5 # 100)) / a * a
                  == window_innerWidth env * (1 - (5 # 100)))%Q)
      by (field; lra).
    revert Et Eb.
    generalize (window_innerWidth env * (1 - (5 # 100)) / a)%Q.
    intros t Et Eb.
    async_unfold.
    split; [repeat (async_case; cbn [fst snd]); reflexivity |].
    eexists. split; [repeat (async_case; cbn [fst snd]); reflexivity |].
    cbn [w h x y].
    split; [nra |]. split; [lra |]. split; [lra |].
    split; [left; lra |]. split; field.
Qed.

Lemma selection_frame_fits_window_witness :
  let s' :=
    exec (handleSelection okEnv scenarioRect scenarioRect
            "data:image/png;base64,CANVAS" freshState) freshState in
  exists frame,
    finalEnhancementRect s' = Some frame /\ (h frame <= 684)%Q.
Proof.
  intros s'.
  assert (Hi : image freshState
               = Some {| src := "blob:living_room"; naturalWidth := 500%Q;
                         naturalHeight := 500%Q |})
    by (vm_compute; reflexivity).
  assert (Hw : (0 < w scenarioRect)%Q) by (vm_compute; reflexivity).
  assert (Hh : (0 < h scenarioRect)%Q) by (vm_compute; reflexivity).
  assert (HW : (0 < window_innerWidth okEnv)%Q) by (vm_compute; reflexivity).
  assert (HH : (0 < window_innerHeight okEnv)%Q) by (vm_compute; reflexivity).
  destruct (selection_frame_fits_window okEnv scenarioRect scenarioRect
              "data:image/png;base64,CANVAS" freshState _ Hi Hw Hh HW HH)
    as (_ & frame & Hf & _ & _ & Hle & _).
  exists frame. split; [exact Hf |].
  eapply Qle_trans; [exact Hle |]. vm_compute. discriminate.
Defined.

(** X26. The job that starts the enhancement exists only once the
    placeholder crop has been made: it then carries the rectangle, the
    canvas snapshot, the placeholder and the screen rectangle as given.
    A crop that fails rejects the handler after the state has become
    [ENHANCING], with no job, no message and nothing that would leave
    that state. *)
Theorem selection_job_needs_the_placeholder (env : Env) (r screen : Rect)
    (url : string) (s : State) (img : HTMLImageElement) :
  image s = Some img ->
  let result := handleSelection env r screen url s s in
  (forall pixelated,
     cropImage env img r (w r) (h r) true = Return pixelated ->
     snd result = Return tt /\
     enhancementJob (fst result)
       = Some {| job_originalRect := r;
                 canvasWithSelectionDataUrl := url;
                 pixelatedSrc := pixelated;
                 screenRect := screen |}) /\
  (forall e,
     cropImage env img r (w r) (h r) true = Throw e ->
     snd result = Throw e /\
     appState (fst result) = ENHANCING /\
     enhancementJob (fst result) = enhancementJob s /\
     errorMessage (fst result) = errorMessage s).
Proof.
  intros Himg. cbv zeta.
  unfold handleSelection. rewrite Himg. async_unfold.
  split.
  - intros pixelated Hcrop. rewrite Hcrop.
    repeat (async_case; cbn [fst snd]); split; reflexivity.
  - intros e Hcrop. rewrite Hcrop.
    repeat (async_case; cbn [fst snd]); repeat split; reflexivity.
Qed.

Lemma selection_job_needs_the_placeholder_witness :
  is_Some
    (enhancementJob
       (exec (handleSelection okEnv scenarioRect scenarioRect
                "data:image/png;base64,CANVAS" freshState) freshState)).
Proof.
  assert (Hi : image freshState
               = Some {| src := "blob:living_room"; naturalWidth := 500%Q;
                         naturalHeight := 500%Q |})
    by (vm_compute; reflexivity).
  destruct (selection_job_needs_the_placeholder okEnv scenarioRect
              scenarioRect "data:image/png;base64,CANVAS" freshState _ Hi)
    as [Hok _].
  destruct (Hok "data:image/png;base64,CROP"%string eq_refl) as [_ Hjob].
  unfold exec. rewrite Hjob. eexists. reflexivity.
Defined.

End AppProps.

(** ** Data URLs, replies and quality sentences of [serviceEnhance] *)

Module ServiceEnhanceMore.
Import Promise ServiceEnhance Reply.
Local Open Scope string_scope.

Lemma append_assoc (a b c : string) : (a ++ b) ++ c = a ++ (b ++ c).
Proof. induction a as [| ch a IH]; cbn; [reflexivity | rewrite IH; reflexivity]. Qed.

Lemma commaFree_cons (c : ascii) (s : string) :
  commaFree (String c s) = negb (Ascii.eqb c ","%char) && commaFree s.
Proof. reflexivity. Qed.

Lemma commaFree_app (a b : string) :
  commaFree (a ++ b) = commaFree a && commaFree b.
Proof.
  induction a as [| ch a IH]; [reflexivity |].
  cbn [append]. rewrite !commaFree_cons, IH. apply andb_assoc.
Qed.

Lemma splitComma_commaFree (s : string) :
  commaFree s = true -> splitComma s = [s].
Proof.
  induction s as [| ch s IH]; [reflexivity |].
  rewrite commaFree_cons. intros [Hc Hs]%andb_true_iff.
  apply negb_true_iff in Hc. cbn [splitComma]. rewrite Hc, (IH Hs).
  reflexivity.
Qed.

Lemma splitComma_app (a b : string) :
  commaFree a = true ->
  splitComma (a ++ String ","%char b) = a :: splitComma b.
Proof.
  induction a as [| ch a IH]; [reflexivity |].
  rewrite commaFree_cons. intros [Hc Ha]%andb_true_iff.
  apply negb_true_iff in Hc. cbn [append splitComma]. rewrite Hc, (IH Ha).
  reflexivity.
Qed.

(** X27. [dataUrlToBase64] returns what stands between the first and the
    second comma: the whole payload of a data URL, nothing of what a
    further comma would start, and the empty string when there is no
    comma at all. *)
Theorem dataUrlToBase64_between_commas (header payload rest : string) :
  commaFree header = true -> commaFree payload = true ->
  dataUrlToBase64 (header ++ "," ++ payload) = payload /\
  dataUrlToBase64 (header ++ "," ++ payload ++ "," ++ rest) = payload /\
  dataUrlToBase64 header = EmptyString.
Proof.
  intros Hh Hp. unfold dataUrlToBase64. cbn [append].
  split; [| split].
  - rewrite (splitComma_app _ _ Hh), (splitComma_commaFree _ Hp).
    reflexivity.
  - rewrite (splitComma_app _ _ Hh), (splitComma_app _ _ Hp).
    reflexivity.
  - rewrite (splitComma_commaFree _ Hh). reflexivity.
Qed.

Lemma dataUrlToBase64_between_commas_witness :
  dataUrlToBase64 "data:image/png;base64,iVBORw0KGgo=" = "iVBORw0KGgo=".
Proof.
  destruct (dataUrlToBase64_between_commas "data:image/png;base64"
              "iVBORw0KGgo=" EmptyString eq_refl eq_refl) as [H _].
  exact H.
Defined.

(** X28. The image source built from a reply part and the payload taken
    from a data URL are inverse: what the service returns as
    [imageSrc] yields the part's [data] again. *)
Theorem dataUrl_round_trip (d : InlineData) :
  commaFree (mimeType d) = true -> commaFree (data d) = true ->
  dataUrlToBase64 (dataUrl d) = data d.
Proof.
  intros Hm Hd. unfold dataUrl, cat, dataUrlToBase64.
  cbn [String.concat].
  change (splitComma
            ("data:" ++ EmptyString ++ mimeType d ++ EmptyString
             ++ ";base64," ++ EmptyString ++ data d))
    with (splitComma ("data:" ++ (mimeType d ++ (";base64" ++ String ","%char (data d))))).
  rewrite <- !append_assoc.
  rewrite splitComma_app.
  - rewrite (splitComma_commaFree _ Hd). reflexivity.
  - rewrite !commaFree_app, Hm. reflexivity.
Qed.

Lemma dataUrl_round_trip_witness :
  dataUrlToBase64 (dataUrl {| mimeType := "image/png"; data := "ENHANCED" |})
    = "ENHANCED".
Proof.
  apply (dataUrl_round_trip {| mimeType := "image/png"; data := "ENHANCED" |});
    reflexivity.
Defined.

Lemma omap_cons {A B : Type} (f : A -> option B) (a : A) (l : list A) :
  omap f (a :: l)
  = match f a with Some b => b :: omap f l | None => omap f l end.
Proof. reflexivity. Qed.

(** The loop over the parts, without its accumulators. *)
Lemma scanParts_spec (JSON_flag : string -> option bool) (ps : list Part)
    (found : bool) (src : option string) :
  scanParts JSON_flag ps found src
  = (found || existsb (flagged JSON_flag) ps,
     match last (omap imageOf ps) with
     | Some d => Some (dataUrl d)
     | None => src
     end).
Proof.
  revert found src. induction ps as [| part rest IH]; intros found src.
  - cbn. rewrite orb_false_r. reflexivity.
  - cbn [scanParts existsb]. rewrite omap_cons.
    assert (Ei : imageOf part
                 = match part_text part with
                   | Some t => if truthy t then None else part_inlineData part
                   | None => part_inlineData part
                   end) by reflexivity.
    assert (Ef : flagged JSON_flag part
                 = match part_text part with
                   | Some t =>
                       truthy t
                       && match JSON_flag t with
                          | Some true => true
                          | _ => false
                          end
                   | None => false
                   end) by reflexivity.
    revert Ei Ef.
    destruct (part_text part) as [t |].
    + destruct (truthy t).
      * destruct (JSON_flag t) as [[|] |]; intros -> ->; rewrite IH;
          cbn [andb orb]; rewrite ?orb_true_r; reflexivity.
      * destruct (part_inlineData part) as [d |]; intros -> ->;
          rewrite IH; cbn [andb orb]; [| reflexivity].
        rewrite last_cons. destruct (last (omap imageOf rest)); reflexivity.
    + destruct (part_inlineData part) as [d |]; intros -> ->; rewrite IH;
        cbn [orb]; [| reflexivity].
      rewrite last_cons. destruct (last (omap imageOf rest)); reflexivity.
Qed.

(** X29. Only the first candidate of a reply is read.  The image returned
    is the one of its last image part; without an image part the call
    fails with "API response did not include an image.".  The flag is
    raised by any text part whose JSON says so, before or after the
    image. *)
Theorem reply_last_image_wins (JSON_flag : string -> option bool)
    (ps : list Part) (others : list Candidate) :
  readResponse JSON_flag
    {| candidates :=
         Some ({| content := Some {| parts := Some ps |} |} :: others) |}
  = match last (omap imageOf ps) with
    | Some d =>
        Return {| imageSrc := dataUrl d;
                  foundTheBanana := existsb (flagged JSON_flag) ps |}
    | None => Throw (new_Error "API response did not include an image.")
    end.
Proof.
  unfold readResponse. cbn [candidates content parts].
  rewrite scanParts_spec. cbn [orb].
  destruct (last (omap imageOf ps)) as [d |]; reflexivity.
Qed.

(** X30. For whole-number dials the prompt carries no quality sentence at
    all exactly when both sharpness and noise reduction are between 21
    and 60. *)
Theorem quality_modifiers_neutral_band (sharpness denoise : Z) :
  getQualityModifiers (inject_Z sharpness) (inject_Z denoise) = []
  <-> (21 <= sharpness <= 60 /\ 21 <= denoise <= 60)%Z.
Proof.
  unfold getQualityModifiers, Qle_bool. cbn [Qnum Qden inject_Z].
  rewrite !Z.mul_1_r.
  change (Z.pos (Qden 20)) with 1%Z.
  split.
  - repeat match goal with
           | |- context [(?a <=? ?b)%Z] =>
               destruct (Z.leb_spec a b)
           end; cbn; intros Hnil; try discriminate Hnil; lia.
  - intros [Hs Hd].
    repeat match goal with
           | |- context [(?a <=? ?b)%Z] =>
               destruct (Z.leb_spec a b); try lia
           end; reflexivity.
Qed.

End ServiceEnhanceMore.
